(** * PubSubNode: a shallow embedding of marlin's publish/subscribe node

    The development follows [pubsub/include/marlin/pubsub/PubSubNode.hpp].
    The node is a single-threaded object driven by upcalls; every member
    function becomes a computation in a small state-and-output monad over
    the node's fields.  Calls that leave the node (sends on a transport,
    closes, delegate upcalls, dials) are recorded, in program order, as
    events; values that come back from outside the node (return codes of
    the transport, the attester's verdict, the delegate's re-balancing of
    the slot sets) are read from an explicit environment. *)

From Stdlib Require Import Strings.Byte Strings.String.
From stdpp Require Import base numbers list gmap fin_sets.

Set Warnings "-clear-no-such-hyp".

Open Scope N_scope.

(** ** Machine integers *)

Definition wrap8 (x : N) : N := x mod 2 ^ 8.
Definition wrap16 (x : N) : N := x mod 2 ^ 16.
Definition wrap64 (x : N) : N := x mod 2 ^ 64.

#[global] Instance byte_eq_dec : EqDecision byte :=
  fun x y =>
    match Byte.eqb x y as b return Byte.eqb x y = b -> Decision (x = y) with
    | true => fun E => left (Byte.byte_dec_bl x y E)
    | false => fun E => right (@Byte.eqb_false x y E)
    end eq_refl.

Definition byte_of_N (x : N) : byte :=
  match Byte.of_N (x mod 256) with
  | Some b => b
  | None => x00
  end.

(** ** net::Buffer *)

(** Modelled from the spec: [net::Buffer] (marlin/core/Buffer.hpp) is not
    part of the sources at hand.  A buffer is the window of bytes that
    [data()] and [size()] expose; [cover n] hides the first [n] bytes;
    integers are big-endian (spec, section 6).  Reads past the end see
    zero bytes and writes or covers that do not fit are dropped; no
    statement below depends on these out-of-window choices. *)
Module Buffer.

Abbreviation t := (list byte).

Definition size (b : t) : N := N.of_nat (length b).

Definition byte_at (b : t) (pos : N) : N :=
  match b !! N.to_nat pos with
  | Some x => Byte.to_N x
  | None => 0
  end.

Fixpoint read_be (n : nat) (b : t) (pos : N) : N :=
  match n with
  | O => 0
  | S n' => byte_at b pos * 2 ^ (8 * N.of_nat n') + read_be n' b (pos + 1)
  end.

Definition read_uint16_be (b : t) (pos : N) : N := read_be 2 b pos.
Definition read_uint64_be (b : t) (pos : N) : N := read_be 8 b pos.

Fixpoint encode_be (n : nat) (v : N) : list byte :=
  match n with
  | O => []
  | S n' => byte_of_N (v / 2 ^ (8 * N.of_nat n')) :: encode_be n' v
  end.

Definition slice (b : t) (pos len : N) : list byte :=
  take (N.to_nat len) (drop (N.to_nat pos) b).

Definition write (b : t) (pos : N) (src : list byte) : t :=
  if decide (pos + N.of_nat (length src) <= size b)
  then take (N.to_nat pos) b ++ src
         ++ drop (N.to_nat pos + length src)%nat b
  else b.

Definition write_uint16_be (b : t) (pos v : N) : t :=
  write b pos (encode_be 2 (wrap16 v)).
Definition write_uint64_be (b : t) (pos v : N) : t :=
  write b pos (encode_be 8 (wrap64 v)).

Definition cover (b : t) (n : N) : t :=
  if decide (n <= size b) then drop (N.to_nat n) b else b.

(** [Buffer({i0, ...}, size)]: [size] bytes, the first ones given. *)
Definition init (prefix : list byte) (sz : N) : t :=
  take (N.to_nat sz) (prefix ++ replicate (N.to_nat sz) x00).

(** [Buffer(ptr, size)] taking ownership of [size] bytes. *)
Definition of_bytes (src : list byte) (sz : N) : t :=
  take (N.to_nat sz) src.

End Buffer.

(** ** Identities *)

(** A [BaseTransport*] is an opaque handle; a [net::SocketAddress] is an
    opaque value compared by equality; channels are 16-bit, message ids
    64-bit and cut-through stream ids 16-bit unsigned integers. *)
Definition TransportId : Type := N.
Definition SocketAddress : Type := N.

(** Modelled from the spec: [PubSubTransportSet] (PubSubTransportSet.hpp)
    is not part of the sources at hand; the node uses it as a set of
    transport pointers with [size], [insert], [erase], iteration and the
    membership test [check_tranport_in_set]. *)
Module TransportSet.
Abbreviation t := (gset TransportId).
Definition check_tranport_in_set (s : t) (tr : TransportId) : bool :=
  bool_decide (tr ∈ s).
Definition insert (tr : TransportId) (s : t) : t := {[tr]} ∪ s.
Definition erase (tr : TransportId) (s : t) : t := s ∖ {[tr]}.
End TransportSet.

(** ** Message header *)

(** [MessageHeader]: two (pointer, size) pairs into the received buffer.
    A pointer is kept as the bytes visible from it. *)
Record MessageHeaderType : Type := MkHeader {
  attestation_data : Buffer.t;
  attestation_size : N;
  witness_data : Buffer.t;
  witness_size : N
}.

Definition empty_header : MessageHeaderType := MkHeader [] 0 [] 0.

(** ** Template parameters: attester and witnesser *)

Class Attester : Type := {
  attester_attestation_size :
    N -> N -> Buffer.t -> N -> MessageHeaderType -> N;
  attester_attest :
    N -> N -> Buffer.t -> N -> MessageHeaderType -> Buffer.t -> N -> Buffer.t;
  attester_parse_size : Buffer.t -> N -> N;
  attester_verify : N -> N -> Buffer.t -> N -> MessageHeaderType -> bool
}.

Class Witnesser : Type := {
  witnesser_witness_size : MessageHeaderType -> N;
  witnesser_witness : MessageHeaderType -> Buffer.t -> N -> Buffer.t;
  witnesser_parse_size : Buffer.t -> N -> N
}.

(** Modelled from the spec: [EmptyAttester] and [EmptyWitnesser] are not
    part of the sources at hand; "Default implementations are empty (both
    sizes = 0)" and the empty attester accepts every message. *)
Definition EmptyAttester : Attester := {|
  attester_attestation_size := fun _ _ _ _ _ => 0;
  attester_attest := fun _ _ _ _ _ m _ => m;
  attester_parse_size := fun _ _ => 0;
  attester_verify := fun _ _ _ _ _ => true
|}.

Definition EmptyWitnesser : Witnesser := {|
  witnesser_witness_size := fun _ => 0;
  witnesser_witness := fun _ m _ => m;
  witnesser_parse_size := fun _ _ => 0
|}.

(** ** The world outside the node *)

(** What the node reads from its transports and from the transport
    factory [f].  Return codes are signed. *)
Record TransportLayer : Type := {
  dst_addr : TransportId -> SocketAddress;
  get_remote_static_pk : TransportId -> list byte;
  is_active : TransportId -> bool;
  cut_through_used_ids : TransportId -> list N;
  get_transport : SocketAddress -> option TransportId;
  cut_through_send : TransportId -> Buffer.t -> Z;
  cut_through_send_start : TransportId -> N -> N;
  cut_through_send_bytes : TransportId -> N -> Buffer.t -> Z;
  factory_dial_result : SocketAddress -> list byte -> Z;
  crypto_scalarmult_base : list byte -> list byte
}.

(** What the node reads from its delegate.  [manage_subscriptions] is
    handed [max_sol_conns] and references to [sol_conns] and
    [sol_standby_conns]; its result is the new content of the two sets. *)
Record PubSubDelegate : Type := {
  channels : list N;
  manage_subscriptions :
    nat -> TransportSet.t -> TransportSet.t -> TransportSet.t * TransportSet.t
}.

(** Calls that leave the node. *)
Inductive Event : Type :=
| transport_send (t : TransportId) (m : Buffer.t)
| transport_cut_through_send (t : TransportId) (m : Buffer.t)
| transport_close (t : TransportId)
| transport_cut_through_send_start (t : TransportId) (length : N)
| transport_cut_through_send_bytes (t : TransportId) (id : N) (b : Buffer.t)
| transport_cut_through_send_end (t : TransportId) (id : N)
| transport_cut_through_send_flush (t : TransportId) (id : N)
| transport_cut_through_send_skip (t : TransportId) (id : N)
| delegate_did_recv_message
    (payload : Buffer.t) (header : MessageHeaderType) (channel message_id : N)
| delegate_manage_subscriptions
| factory_dial (addr : SocketAddress) (remote_static_pk : list byte).

(** ** Node state *)

Record Node : Type := MkNode {
  max_sol_conns : nat;
  max_unsol_conns : nat;
  sol_conns : TransportSet.t;
  sol_standby_conns : TransportSet.t;
  unsol_conns : TransportSet.t;
  blacklist_addr : gset SocketAddress;
  message_id_events : list (list N);
  message_id_idx : N;
  message_id_set : gset N;
  cut_through_map : gmap (TransportId * N) (list (TransportId * N));
  cut_through_length : gmap (TransportId * N) N;
  cut_through_header_recv : gmap (TransportId * N) bool;
  keys : list byte
}.

(** The constructor: empty slot sets, 256 empty dedup buckets. *)
Definition PubSubNode (max_sol max_unsol : nat) (keys : list byte) : Node :=
  {| max_sol_conns := max_sol; max_unsol_conns := max_unsol;
     sol_conns := ∅; sol_standby_conns := ∅; unsol_conns := ∅;
     blacklist_addr := ∅;
     message_id_events := replicate 256 [];
     message_id_idx := 0;
     message_id_set := ∅;
     cut_through_map := ∅; cut_through_length := ∅;
     cut_through_header_recv := ∅;
     keys := keys |}.

(** ** The monad of member functions *)

Definition M (A : Type) : Type := Node -> A * Node * list Event.

Definition ret {A} (a : A) : M A := fun s => (a, s, []).

Definition bind {A B} (m : M A) (k : A -> M B) : M B :=
  fun s =>
    let '(a, s1, e1) := m s in
    let '(b, s2, e2) := k a s1 in
    (b, s2, e1 ++ e2).

Definition get : M Node := fun s => (s, s, []).
Definition gets {A} (f : Node -> A) : M A := fun s => (f s, s, []).
Definition modify (f : Node -> Node) : M unit := fun s => (tt, f s, []).
Definition emit (e : Event) : M unit := fun s => (tt, s, [e]).

Declare Scope node_scope.
Delimit Scope node_scope with node.
Notation "'let*' x := m 'in' k" := (bind m (fun x => k))
  (at level 10, x name, m at level 100, k at level 200) : node_scope.
Notation "m ;;; k" := (bind m (fun _ => k))
  (at level 100, k at level 200, right associativity) : node_scope.
Open Scope node_scope.

Fixpoint for_each {A} (l : list A) (body : A -> M unit) : M unit :=
  match l with
  | [] => ret tt
  | x :: l' => body x ;;; for_each l' body
  end.

Definition when (c : bool) (m : M unit) : M unit := if c then m else ret tt.

Definition result {A} (r : A * Node * list Event) : A := r.1.1.
Definition state_of {A} (r : A * Node * list Event) : Node := r.1.2.
Definition events {A} (r : A * Node * list Event) : list Event := r.2.

(** ** Field updates *)

Definition set_sol_conns (v : TransportSet.t) (s : Node) : Node :=
  MkNode (max_sol_conns s) (max_unsol_conns s) v (sol_standby_conns s)
    (unsol_conns s) (blacklist_addr s) (message_id_events s)
    (message_id_idx s) (message_id_set s) (cut_through_map s)
    (cut_through_length s) (cut_through_header_recv s) (keys s).

Definition set_sol_standby_conns (v : TransportSet.t) (s : Node) : Node :=
  MkNode (max_sol_conns s) (max_unsol_conns s) (sol_conns s) v
    (unsol_conns s) (blacklist_addr s) (message_id_events s)
    (message_id_idx s) (message_id_set s) (cut_through_map s)
    (cut_through_length s) (cut_through_header_recv s) (keys s).

Definition set_unsol_conns (v : TransportSet.t) (s : Node) : Node :=
  MkNode (max_sol_conns s) (max_unsol_conns s) (sol_conns s)
    (sol_standby_conns s) v (blacklist_addr s) (message_id_events s)
    (message_id_idx s) (message_id_set s) (cut_through_map s)
    (cut_through_length s) (cut_through_header_recv s) (keys s).

Definition set_blacklist_addr (v : gset SocketAddress) (s : Node) : Node :=
  MkNode (max_sol_conns s) (max_unsol_conns s) (sol_conns s)
    (sol_standby_conns s) (unsol_conns s) v (message_id_events s)
    (message_id_idx s) (message_id_set s) (cut_through_map s)
    (cut_through_length s) (cut_through_header_recv s) (keys s).

Definition set_message_ids
    (ev : list (list N)) (idx : N) (set : gset N) (s : Node) : Node :=
  MkNode (max_sol_conns s) (max_unsol_conns s) (sol_conns s)
    (sol_standby_conns s) (unsol_conns s) (blacklist_addr s) ev idx set
    (cut_through_map s) (cut_through_length s) (cut_through_header_recv s)
    (keys s).

Definition set_cut_through_map
    (v : gmap (TransportId * N) (list (TransportId * N))) (s : Node) : Node :=
  MkNode (max_sol_conns s) (max_unsol_conns s) (sol_conns s)
    (sol_standby_conns s) (unsol_conns s) (blacklist_addr s)
    (message_id_events s) (message_id_idx s) (message_id_set s) v
    (cut_through_length s) (cut_through_header_recv s) (keys s).

Definition set_cut_through_length
    (v : gmap (TransportId * N) N) (s : Node) : Node :=
  MkNode (max_sol_conns s) (max_unsol_conns s) (sol_conns s)
    (sol_standby_conns s) (unsol_conns s) (blacklist_addr s)
    (message_id_events s) (message_id_idx s) (message_id_set s)
    (cut_through_map s) v (cut_through_header_recv s) (keys s).

Definition set_cut_through_header_recv
    (v : gmap (TransportId * N) bool) (s : Node) : Node :=
  MkNode (max_sol_conns s) (max_unsol_conns s) (sol_conns s)
    (sol_standby_conns s) (unsol_conns s) (blacklist_addr s)
    (message_id_events s) (message_id_idx s) (message_id_set s)
    (cut_through_map s) (cut_through_length s) v (keys s).

(** The three slot sets, as [remove_conn] receives them by reference. *)
Inductive SlotRef : Type := ref_sol_conns | ref_sol_standby_conns | ref_unsol_conns.

Definition slot (r : SlotRef) (s : Node) : TransportSet.t :=
  match r with
  | ref_sol_conns => sol_conns s
  | ref_sol_standby_conns => sol_standby_conns s
  | ref_unsol_conns => unsol_conns s
  end.

Definition set_slot (r : SlotRef) (v : TransportSet.t) (s : Node) : Node :=
  match r with
  | ref_sol_conns => set_sol_conns v s
  | ref_sol_standby_conns => set_sol_standby_conns v s
  | ref_unsol_conns => set_unsol_conns v s
  end.

(** [std::unordered_map::operator[]]: a missing key is first inserted
    with the default value. *)
Definition index_default `{Countable K} {V} (d : V) (k : K) (m : gmap K V)
    : V * gmap K V :=
  match m !! k with
  | Some v => (v, m)
  | None => (d, <[k := d]> m)
  end.

(** A 32-byte key read through a pointer. *)
Definition key32 (pk : list byte) : list byte :=
  take 32 (pk ++ replicate 32 x00).

(** The list loop of [did_close] and [cut_through_recv_skip]: erase the
    first entry that matches, then [break]. *)
Fixpoint erase_first {A} (p : A -> bool) (l : list A) : list A :=
  match l with
  | [] => []
  | x :: l' => if p x then l' else x :: erase_first p l'
  end.

(** ** Member functions *)

Section PubSubNode.

Context {attester : Attester} {witnesser : Witnesser}.
Variable f : TransportLayer.
Variable delegate : PubSubDelegate.
(** Template parameters of the class. *)
Variables enable_cut_through accept_unsol_conn enable_relay : bool.

Definition transport_close_ (t : TransportId) : M unit :=
  emit (transport_close t).

(** *** Wire messages *)

Definition send_SUBSCRIBE (transport : TransportId) (channel : N) : M unit :=
  let bytes := Buffer.init [x00] 3 in
  let bytes := Buffer.write_uint16_be bytes 1 channel in
  emit (transport_send transport bytes).

Definition send_UNSUBSCRIBE (transport : TransportId) (channel : N) : M unit :=
  let bytes := Buffer.init [x01] 3 in
  let bytes := Buffer.write_uint16_be bytes 1 channel in
  emit (transport_send transport bytes).

Definition send_RESPONSE
    (transport : TransportId) (success : bool) (msg_string : string) : M unit :=
  let msg := list_byte_of_string msg_string in
  let m := Buffer.init [x02; if success then x01 else x00]
             (N.of_nat (length msg) + 2) in
  let m := Buffer.write m 2 msg in
  emit (transport_send transport m).

Definition send_HEARTBEAT (transport : TransportId) : M unit :=
  emit (transport_send transport (Buffer.init [x04] 1)).

Definition create_MESSAGE
    (channel message_id : N) (data : Buffer.t) (size : N)
    (prev_header : MessageHeaderType) : Buffer.t :=
  let att :=
    attester_attestation_size message_id channel data size prev_header in
  let buf_size := wrap64 (11 + size) in
  let buf_size := wrap64 (buf_size + att) in
  let buf_size := wrap64 (buf_size + witnesser_witness_size prev_header) in
  let m := Buffer.init [x03] buf_size in
  let m := Buffer.write_uint64_be m 1 message_id in
  let m := Buffer.write_uint16_be m 9 channel in
  let offset := 11 in
  let m := attester_attest message_id channel data size prev_header m offset in
  let offset := wrap64 (offset + att) in
  let m := witnesser_witness prev_header m offset in
  let offset := wrap64 (offset + witnesser_witness_size prev_header) in
  Buffer.write m offset (take (N.to_nat size) data).

Definition send_MESSAGE
    (transport : TransportId) (channel message_id : N) (data : Buffer.t)
    (size : N) (prev_header : MessageHeaderType) : M unit :=
  let m := create_MESSAGE channel message_id data size prev_header in
  emit (transport_send transport m).

(** *** Slot management *)

Definition check_tranport_present (transport : TransportId) : M bool :=
  gets (fun s =>
    TransportSet.check_tranport_in_set (sol_conns s) transport
    || TransportSet.check_tranport_in_set (sol_standby_conns s) transport
    || TransportSet.check_tranport_in_set (unsol_conns s) transport).

Definition remove_conn (t_set : SlotRef) (transport : TransportId) : M bool :=
  let* present :=
    gets (fun s => TransportSet.check_tranport_in_set (slot t_set s) transport) in
  if present then
    modify (fun s => set_slot t_set (TransportSet.erase transport (slot t_set s)) s) ;;;
    match t_set with
    | ref_sol_conns => send_RESPONSE transport true "UNSUBSCRIBED"
    | _ => ret tt
    end ;;;
    ret true
  else ret false.

Definition add_sol_standby_conn (transport : TransportId) : M bool :=
  let* present := check_tranport_present transport in
  if negb present then
    modify (fun s =>
      set_sol_standby_conns
        (TransportSet.insert transport (sol_standby_conns s)) s) ;;;
    ret true
  else ret false.

Definition add_unsol_conn (transport : TransportId) : M bool :=
  let* full := gets (fun s => bool_decide (max_unsol_conns s ≤ size (unsol_conns s))%nat) in
  if full then ret false
  else
    let* present := check_tranport_present transport in
    if negb present then
      modify (fun s =>
        set_unsol_conns (TransportSet.insert transport (unsol_conns s)) s) ;;;
      send_RESPONSE transport true "SUBSCRIBED" ;;;
      ret true
    else ret false.

Definition add_sol_conn (transport : TransportId) : M bool :=
  let* full := gets (fun s => bool_decide (max_sol_conns s ≤ size (sol_conns s))%nat) in
  if full then
    add_sol_standby_conn transport ;;;
    ret false
  else
    remove_conn ref_sol_standby_conns transport ;;;
    remove_conn ref_unsol_conns transport ;;;
    let* present := check_tranport_present transport in
    if negb present then
      for_each (channels delegate) (fun channel =>
        send_SUBSCRIBE transport channel) ;;;
      modify (fun s =>
        set_sol_conns (TransportSet.insert transport (sol_conns s)) s) ;;;
      send_RESPONSE transport true "SUBSCRIBED" ;;;
      ret true
    else ret false.

(** The address overload.  Its second path calls the transport overload
    and reaches the closing brace with no [return] statement: the
    function then yields no value, rendered here as [None]. *)
Definition add_sol_conn_addr (addr : SocketAddress) : M (option bool) :=
  match get_transport f addr with
  | None => ret (Some false)
  | Some transport =>
      add_sol_conn transport ;;;
      ret None
  end.

(** *** Incoming SUBSCRIBE / UNSUBSCRIBE *)

Definition did_recv_SUBSCRIBE (transport : TransportId) (bytes : Buffer.t) : M Z :=
  if accept_unsol_conn then
    let* listed :=
      gets (fun s => bool_decide (dst_addr f transport ∈ blacklist_addr s)) in
    if listed then
      modify (fun s =>
        set_blacklist_addr (blacklist_addr s ∖ {[dst_addr f transport]}) s) ;;;
      add_sol_conn transport ;;;
      ret 0%Z
    else
      add_unsol_conn transport ;;;
      let* present := check_tranport_present transport in
      if negb present then
        transport_close_ transport ;;;
        ret (-1)%Z
      else ret 0%Z
  else ret 0%Z.

Definition did_recv_UNSUBSCRIBE (transport : TransportId) (bytes : Buffer.t) : M unit :=
  remove_conn ref_unsol_conns transport ;;; ret tt.

Definition did_dial (transport : TransportId) : M unit :=
  add_sol_conn transport ;;; ret tt.

(** *** Publishing *)

Definition send_message_with_cut_through_check
    (transport : TransportId) (channel message_id : N) (data : Buffer.t)
    (size : N) (prev_header : MessageHeaderType) : M unit :=
  if decide (50000 < size) then
    let m := create_MESSAGE channel message_id data size prev_header in
    emit (transport_cut_through_send transport m) ;;;
    let res := cut_through_send f transport m in
    when (bool_decide (res < 0)%Z) (transport_close_ transport)
  else
    send_MESSAGE transport channel message_id data size prev_header.

Definition is_excluded (excluded : option SocketAddress) (t : TransportId) : bool :=
  match excluded with
  | Some a => bool_decide (dst_addr f t = a)
  | None => false
  end.

Definition send_message_on_channel
    (channel message_id : N) (data : Buffer.t) (size : N)
    (excluded : option SocketAddress) (prev_header : MessageHeaderType)
    : M unit :=
  let* sol := gets sol_conns in
  for_each (elements sol) (fun it =>
    if is_excluded excluded it then ret tt
    else send_message_with_cut_through_check
           it channel message_id data size prev_header) ;;;
  let* unsol := gets unsol_conns in
  for_each (elements unsol) (fun it =>
    if is_excluded excluded it then ret tt
    else send_message_with_cut_through_check
           it channel message_id data size prev_header).

(** *** Incoming MESSAGE *)

Definition record_message_id (message_id : N) (s : Node) : Node :=
  set_message_ids
    (alter (fun bucket => bucket ++ [message_id])
           (N.to_nat (message_id_idx s)) (message_id_events s))
    (message_id_idx s)
    ({[message_id]} ∪ message_id_set s) s.

Definition did_recv_MESSAGE (transport : TransportId) (bytes : Buffer.t) : M Z :=
  let message_id := Buffer.read_uint64_be bytes 0 in
  let channel := Buffer.read_uint16_be bytes 8 in
  let* seen := gets (fun s => bool_decide (message_id ∈ message_id_set s)) in
  if negb seen then
    let bytes := Buffer.cover bytes 10 in
    let a_data := bytes in
    let a_size := attester_parse_size bytes 0 in
    let bytes := Buffer.cover bytes a_size in
    let w_data := bytes in
    let w_size := witnesser_parse_size bytes 0 in
    let bytes := Buffer.cover bytes w_size in
    let header := MkHeader a_data a_size w_data w_size in
    if negb (attester_verify message_id channel bytes (Buffer.size bytes) header)
    then
      transport_close_ transport ;;;
      ret (-1)%Z
    else
      modify (record_message_id message_id) ;;;
      when enable_relay
        (send_message_on_channel channel message_id bytes (Buffer.size bytes)
           (Some (dst_addr f transport)) header) ;;;
      emit (delegate_did_recv_message bytes header channel message_id) ;;;
      ret 0%Z
  else ret 0%Z.

(** *** Subscribing *)

Definition dial (addr : SocketAddress) (remote_static_pk : list byte) : M Z :=
  emit (factory_dial addr remote_static_pk) ;;;
  ret (factory_dial_result f addr remote_static_pk).

Definition subscribe (addr : SocketAddress) (remote_static_pk : list byte) : M unit :=
  let* listed := gets (fun s => bool_decide (addr ∈ blacklist_addr s)) in
  if listed then ret tt
  else
    match get_transport f addr with
    | None => dial addr remote_static_pk ;;; ret tt
    | Some transport =>
        if negb (is_active f transport) then ret tt
        else add_sol_conn transport ;;; ret tt
    end.

Definition unsubscribe (addr : SocketAddress) : M unit :=
  match get_transport f addr with
  | None => ret tt
  | Some transport =>
      for_each (channels delegate) (fun channel =>
        send_UNSUBSCRIBE transport channel)
  end.

(** *** Transport close *)

Definition cut_through_map_at (k : TransportId * N) : M (list (TransportId * N)) :=
  fun s =>
    let '(v, m) := index_default [] k (cut_through_map s) in
    (v, set_cut_through_map m s, []).

Definition cut_through_header_recv_at (k : TransportId * N) : M bool :=
  fun s =>
    let '(v, m) := index_default false k (cut_through_header_recv s) in
    (v, set_cut_through_header_recv m s, []).

Definition cut_through_length_at (k : TransportId * N) : M N :=
  fun s =>
    let '(v, m) := index_default 0 k (cut_through_length s) in
    (v, set_cut_through_length m s, []).

Definition call_manage_subscriptions : M unit :=
  emit delegate_manage_subscriptions ;;;
  modify (fun s =>
    let '(sol, standby) :=
      manage_subscriptions delegate
        (max_sol_conns s) (sol_conns s) (sol_standby_conns s) in
    set_sol_standby_conns standby (set_sol_conns sol s)).

Definition did_close (transport : TransportId) : M unit :=
  let* r1 := remove_conn ref_sol_conns transport in
  let* r2 := (if r1 then ret true
              else remove_conn ref_sol_standby_conns transport) in
  when r2
    (modify (fun s =>
       set_blacklist_addr ({[dst_addr f transport]} ∪ blacklist_addr s) s)) ;;;
  remove_conn ref_unsol_conns transport ;;;
  for_each (cut_through_used_ids f transport) (fun id =>
    let* subscribers := cut_through_map_at (transport, id) in
    for_each subscribers (fun sub =>
      emit (transport_cut_through_send_flush sub.1 sub.2)) ;;;
    modify (fun s =>
      set_cut_through_map (delete (transport, id) (cut_through_map s)) s)) ;;;
  modify (fun s =>
    set_cut_through_map
      (erase_first (fun sub => bool_decide (sub.1 = transport))
         <$> cut_through_map s) s) ;;;
  call_manage_subscriptions.

(** *** Timers *)

Definition peer_selection_timer_cb : M unit := call_manage_subscriptions.

Definition blacklist_timer_cb : M unit :=
  modify (set_blacklist_addr ∅).

Definition message_id_timer_cb : M unit :=
  modify (fun s =>
    let idx := wrap8 (message_id_idx s + 1) in
    let bucket := default [] (message_id_events s !! N.to_nat idx) in
    set_message_ids
      (<[N.to_nat idx := []]> (message_id_events s))
      idx
      (message_id_set s ∖ list_to_set bucket) s) ;;;
  let* sol := gets sol_conns in
  for_each (elements sol) send_HEARTBEAT ;;;
  let* standby := gets sol_standby_conns in
  for_each (elements standby) send_HEARTBEAT.

(** *** Cut-through relay *)

Definition cut_through_recv_start (transport : TransportId) (id length : N) : M unit :=
  modify (fun s =>
    set_cut_through_map (<[(transport, id) := []]> (cut_through_map s)) s) ;;;
  modify (fun s =>
    set_cut_through_header_recv
      (<[(transport, id) := false]> (cut_through_header_recv s)) s) ;;;
  modify (fun s =>
    set_cut_through_length
      (<[(transport, id) := length]> (cut_through_length s)) s).

(** The inner [for] loop with [memcmp] and [break]: does the
    subscriber's key equal one of the [witness_length / 32] aligned
    chunks that start at byte 13? *)
Definition found_in_witness
    (bytes : Buffer.t) (witness_length : N) (subscriber : TransportId) : bool :=
  existsb (fun i : nat =>
      bool_decide (Buffer.slice bytes (13 + 32 * N.of_nat i) 32
                   = key32 (get_remote_static_pk f subscriber)))
    (seq 0 (N.to_nat (witness_length / 32))).

(** Body of the two subscriber loops of the first chunk. *)
Definition cut_through_subscribe
    (transport : TransportId) (id : N) (bytes : Buffer.t) (witness_length : N)
    (subscriber : TransportId) : M unit :=
  if bool_decide (transport = subscriber) then ret tt
  else if found_in_witness bytes witness_length subscriber then ret tt
  else
    let* length := cut_through_length_at (transport, id) in
    let length := wrap64 (length + 32) in
    emit (transport_cut_through_send_start subscriber length) ;;;
    let sub_id := cut_through_send_start f subscriber length in
    if bool_decide (sub_id = 0) then ret tt
    else
      let* subs := cut_through_map_at (transport, id) in
      modify (fun s =>
        set_cut_through_map
          (<[(transport, id) := subs ++ [(subscriber, sub_id)]]>
             (cut_through_map s)) s).

(** The function calls itself twice after the header has been marked
    as received; [fuel] bounds that nesting and [None] is returned only
    when it is exhausted. *)
Fixpoint cut_through_recv_bytes_fuel
    (fuel : nat) (transport : TransportId) (id : N) (bytes : Buffer.t)
    : M (option Z) :=
  match fuel with
  | O => ret None
  | S fuel' =>
    let* header_recv := cut_through_header_recv_at (transport, id) in
    if negb header_recv then
      let witness_length := Buffer.read_uint16_be bytes 11 in
      if decide (wrap16 (Buffer.size bytes) < 13 + witness_length) then
        transport_close_ transport ;;;
        ret (Some (-1)%Z)
      else
        let message_id := Buffer.read_uint64_be bytes 1 in
        modify (fun s =>
          set_cut_through_header_recv
            (<[(transport, id) := true]> (cut_through_header_recv s)) s) ;;;
        let* seen := gets (fun s => bool_decide (message_id ∈ message_id_set s)) in
        if seen then
          emit (transport_cut_through_send_skip transport id) ;;;
          ret (Some (-1)%Z)
        else
          modify (record_message_id message_id) ;;;
          let* sol := gets sol_conns in
          for_each (elements sol)
            (cut_through_subscribe transport id bytes witness_length) ;;;
          let* unsol := gets unsol_conns in
          for_each (elements unsol)
            (cut_through_subscribe transport id bytes witness_length) ;;;
          let new_header := Buffer.slice bytes 0 (13 + witness_length) in
          let bytes := Buffer.cover bytes (13 + witness_length) in
          let* sk := gets keys in
          let new_header := new_header ++ key32 (crypto_scalarmult_base f sk) in
          let buf := Buffer.of_bytes new_header (13 + witness_length + 32) in
          let buf := Buffer.write_uint16_be buf 11 (witness_length + 32) in
          let* res := cut_through_recv_bytes_fuel fuel' transport id buf in
          match res with
          | None => ret None
          | Some r =>
              if bool_decide (r < 0)%Z then ret (Some (-1)%Z)
              else cut_through_recv_bytes_fuel fuel' transport id bytes
          end
    else
      let* subs := cut_through_map_at (transport, id) in
      for_each subs (fun sub =>
        let sub_bytes := Buffer.write (Buffer.init [] (Buffer.size bytes)) 0 bytes in
        emit (transport_cut_through_send_bytes sub.1 sub.2 sub_bytes) ;;;
        let res := cut_through_send_bytes f sub.1 sub.2 sub_bytes in
        when (bool_decide (res < 0)%Z) (transport_close_ sub.1)) ;;;
      ret (Some 0%Z)
  end.

Definition cut_through_recv_bytes
    (transport : TransportId) (id : N) (bytes : Buffer.t) : M (option Z) :=
  cut_through_recv_bytes_fuel 2 transport id bytes.

Definition cut_through_recv_end (transport : TransportId) (id : N) : M unit :=
  let* subs := cut_through_map_at (transport, id) in
  for_each subs (fun sub => emit (transport_cut_through_send_end sub.1 sub.2)).

Definition cut_through_recv_flush (transport : TransportId) (id : N) : M unit :=
  let* subs := cut_through_map_at (transport, id) in
  for_each subs (fun sub => emit (transport_cut_through_send_flush sub.1 sub.2)).

Definition cut_through_recv_skip (transport : TransportId) (id : N) : M unit :=
  modify (fun s =>
    set_cut_through_map
      (erase_first (fun sub => bool_decide (sub.1 = transport ∧ sub.2 = id))
         <$> cut_through_map s) s).

End PubSubNode.

(** * Properties *)

Ltac unfold_monad :=
  unfold bind, ret, gets, get, modify, emit, when, transport_close_,
    result, state_of, events in *.

(** ** Loops *)

(** A loop whose body never touches the node only collects events. *)
Lemma for_each_pure {A} (l : list A) (body : A -> M unit)
    (ev : A -> list Event) (s : Node) :
  (forall x, x ∈ l -> body x s = (tt, s, ev x)) ->
  for_each l body s = (tt, s, mjoin (ev <$> l)).
Proof.
  induction l as [|x l IH]; intros Hbody; simpl.
  - reflexivity.
  - unfold bind. rewrite (Hbody x) by set_solver.
    rewrite IH by (intros y Hy; apply Hbody; set_solver).
    reflexivity.
Qed.

(** ** Incoming MESSAGE: parsing as [did_recv_MESSAGE] does it *)

Section MessageParsing.

Context {attester : Attester} {witnesser : Witnesser}.

Definition MESSAGE_id (bytes : Buffer.t) : N := Buffer.read_uint64_be bytes 0.
Definition MESSAGE_channel (bytes : Buffer.t) : N := Buffer.read_uint16_be bytes 8.

Definition MESSAGE_header (bytes : Buffer.t) : MessageHeaderType :=
  let b1 := Buffer.cover bytes 10 in
  let b2 := Buffer.cover b1 (attester_parse_size b1 0) in
  MkHeader b1 (attester_parse_size b1 0) b2 (witnesser_parse_size b2 0).

Definition MESSAGE_payload (bytes : Buffer.t) : Buffer.t :=
  let b1 := Buffer.cover bytes 10 in
  let b2 := Buffer.cover b1 (attester_parse_size b1 0) in
  Buffer.cover b2 (witnesser_parse_size b2 0).

(** The verdict of [attester.verify] on a received MESSAGE. *)
Definition MESSAGE_verified (bytes : Buffer.t) : bool :=
  attester_verify (MESSAGE_id bytes) (MESSAGE_channel bytes)
    (MESSAGE_payload bytes) (Buffer.size (MESSAGE_payload bytes))
    (MESSAGE_header bytes).

End MessageParsing.

Section Dedup.

Context {attester : Attester} {witnesser : Witnesser}.
Variable f : TransportLayer.
Variable enable_relay : bool.

Local Abbreviation on_MESSAGE := (did_recv_MESSAGE f enable_relay).

(** [did_recv_MESSAGE], with the parsing steps named. *)
Lemma did_recv_MESSAGE_eq transport bytes :
  on_MESSAGE transport bytes =
  (let* seen := gets (fun s => bool_decide (MESSAGE_id bytes ∈ message_id_set s)) in
   if negb seen then
     if negb (MESSAGE_verified bytes) then
       transport_close_ transport ;;; ret (-1)%Z
     else
       modify (record_message_id (MESSAGE_id bytes)) ;;;
       when enable_relay
         (send_message_on_channel f (MESSAGE_channel bytes) (MESSAGE_id bytes)
            (MESSAGE_payload bytes) (Buffer.size (MESSAGE_payload bytes))
            (Some (dst_addr f transport)) (MESSAGE_header bytes)) ;;;
       emit (delegate_did_recv_message (MESSAGE_payload bytes)
               (MESSAGE_header bytes) (MESSAGE_channel bytes) (MESSAGE_id bytes)) ;;;
       ret 0%Z
   else ret 0%Z).
Proof. reflexivity. Qed.

Lemma did_recv_MESSAGE_duplicate transport bytes s :
  MESSAGE_id bytes ∈ message_id_set s ->
  on_MESSAGE transport bytes s = (0%Z, s, []).
Proof.
  intros Hin. rewrite did_recv_MESSAGE_eq. unfold_monad.
  rewrite bool_decide_eq_true_2 by exact Hin. reflexivity.
Qed.

Lemma did_recv_MESSAGE_rejected transport bytes s :
  MESSAGE_id bytes ∉ message_id_set s ->
  MESSAGE_verified bytes = false ->
  on_MESSAGE transport bytes s = ((-1)%Z, s, [transport_close transport]).
Proof.
  intros Hin Hv. rewrite did_recv_MESSAGE_eq. unfold_monad.
  rewrite bool_decide_eq_false_2 by exact Hin. rewrite Hv. reflexivity.
Qed.

End Dedup.

(** ** Fan-out *)

(** The one-slot-per-transport invariant of the slot sets. *)
Definition one_slot (s : Node) : Prop :=
  sol_conns s ## sol_standby_conns s
  ∧ sol_conns s ## unsol_conns s
  ∧ sol_standby_conns s ## unsol_conns s.

Section Publishing.

Context {attester : Attester} {witnesser : Witnesser}.
Variable f : TransportLayer.

Section OneMessage.

Variables (channel message_id : N) (data : Buffer.t) (size : N).
Variable excluded : option SocketAddress.
Variable prev_header : MessageHeaderType.

Local Abbreviation the_MESSAGE :=
  (create_MESSAGE channel message_id data size prev_header).

(** How one transport is served. *)
Definition delivery (t : TransportId) : Event :=
  if decide (50000 < size) then transport_cut_through_send t the_MESSAGE
  else transport_send t the_MESSAGE.

Definition served (t : TransportId) : list Event :=
  if decide (50000 < size) then
    transport_cut_through_send t the_MESSAGE
      :: (if bool_decide (cut_through_send f t the_MESSAGE < 0)%Z
          then [transport_close t] else [])
  else [transport_send t the_MESSAGE].

Definition fan_out (t : TransportId) : list Event :=
  if is_excluded f excluded t then [] else served t.

Lemma send_message_with_cut_through_check_eq t s :
  send_message_with_cut_through_check f t channel message_id data size
    prev_header s = (tt, s, served t).
Proof.
  unfold send_message_with_cut_through_check, served, send_MESSAGE.
  unfold_monad. destruct (decide (50000 < size)); [|reflexivity].
  destruct (bool_decide _); reflexivity.
Qed.

Lemma send_message_on_channel_eq s :
  send_message_on_channel f channel message_id data size excluded
    prev_header s
  = (tt, s, mjoin (fan_out <$> elements (sol_conns s)
                                  ++ elements (unsol_conns s))).
Proof.
  unfold send_message_on_channel, bind at 1, gets at 1.
  unfold bind at 1.
  rewrite (for_each_pure _ _ fan_out).
  2:{ intros t _. unfold fan_out. destruct (is_excluded f excluded t).
      - reflexivity.
      - apply send_message_with_cut_through_check_eq. }
  unfold bind, gets.
  rewrite (for_each_pure _ _ fan_out).
  2:{ intros t _. unfold fan_out. destruct (is_excluded f excluded t).
      - reflexivity.
      - apply send_message_with_cut_through_check_eq. }
  rewrite fmap_app, join_app. reflexivity.
Qed.

(** A transport is a recipient when it sits in the solicited or in
    the unsolicited set and its address is not the excluded one. *)
Definition recipient (s : Node) (t : TransportId) : Prop :=
  (t ∈ sol_conns s ∨ t ∈ unsol_conns s)
  ∧ (excluded = None ∨ ∃ a, excluded = Some a ∧ dst_addr f t ≠ a).

Lemma recipient_iff s t :
  recipient s t ↔
  t ∈ elements (sol_conns s) ++ elements (unsol_conns s)
  ∧ is_excluded f excluded t = false.
Proof.
  unfold recipient, is_excluded.
  rewrite elem_of_app, !elem_of_elements.
  destruct excluded as [a|].
  - rewrite bool_decide_eq_false. naive_solver.
  - naive_solver.
Qed.

Lemma elem_of_fan_out e t :
  e ∈ fan_out t ->
  is_excluded f excluded t = false
  ∧ (e = delivery t ∨ e = transport_close t).
Proof.
  unfold fan_out, served, delivery.
  destruct (is_excluded f excluded t); [set_solver|].
  destruct (decide (50000 < size)); [|set_solver].
  destruct (bool_decide _); set_solver.
Qed.

Lemma delivery_in_fan_out t :
  is_excluded f excluded t = false -> delivery t ∈ fan_out t.
Proof.
  unfold fan_out, served, delivery. intros ->.
  destruct (decide (50000 < size)); set_solver.
Qed.

Lemma delivery_inj t t' : delivery t = delivery t' -> t = t'.
Proof.
  unfold delivery. destruct (decide (50000 < size)); congruence.
Qed.

Definition message_to (t : TransportId) (e : Event) : Prop :=
  ∃ m, e = transport_send t m ∨ e = transport_cut_through_send t m.

(** C2.  Every call of [send_message_on_channel] leaves the node as it
    is and serves exactly the transports of the solicited and the
    unsolicited set whose address is not the excluded one: each of
    them is handed the created MESSAGE buffer, through
    [cut_through_send] when [size > 50000] and through [send]
    (by [send_MESSAGE]) otherwise, nobody else is handed any message,
    and with one slot per transport no standby transport is. *)
Theorem send_message_on_channel_recipients (s : Node) :
  one_slot s ->
  let r := send_message_on_channel f channel message_id data size
             excluded prev_header s in
  state_of r = s
  ∧ (∀ t, recipient s t ↔ delivery t ∈ events r)
  ∧ (∀ t e, e ∈ events r -> message_to t e ->
       recipient s t ∧ e = delivery t)
  ∧ (∀ t e, t ∈ sol_standby_conns s -> e ∈ events r -> ¬ message_to t e).
Proof.
  intros Hslot r. subst r. rewrite send_message_on_channel_eq.
  unfold state_of, events; cbn [fst snd].
  assert (Hmsg : ∀ t e,
    e ∈ mjoin (fan_out <$> elements (sol_conns s)
                           ++ elements (unsol_conns s)) ->
    message_to t e -> recipient s t ∧ e = delivery t).
  { intros t e He [m Hm]. apply list_elem_of_join in He as (l & He & Hl).
    apply list_elem_of_fmap in Hl as (t' & -> & Ht').
    apply elem_of_fan_out in He as [Hex He].
    assert (t' = t) as ->.
    { unfold delivery in He. destruct (decide (50000 < size));
        destruct He as [He|He], Hm as [Hm|Hm]; congruence. }
    split; [by apply recipient_iff|].
    destruct He as [He|He]; [done|]. destruct Hm; congruence. }
  split; [reflexivity|]. split; [|split].
  - intros t. split.
    + intros [Ht Hex]%recipient_iff. apply list_elem_of_join.
      exists (fan_out t). split; [by apply delivery_in_fan_out|].
      apply list_elem_of_fmap. by exists t.
    + intros He. apply (Hmsg t) in He as [? _]; [done|].
      unfold message_to, delivery.
      destruct (decide (50000 < size)); eauto.
  - exact Hmsg.
  - intros t e Hsb He Hm. destruct (Hmsg t e He Hm) as [[Hin _] _].
    destruct Hslot as (H1 & H2 & H3). set_solver.
Qed.

End OneMessage.

End Publishing.

(** ** Exactly-once delivery to the delegate *)

(** Upcalls [delegate->did_recv_message] for message id [x]. *)
Definition fires (x : N) (e : Event) : bool :=
  match e with
  | delegate_did_recv_message _ _ _ message_id => bool_decide (message_id = x)
  | _ => false
  end.

Definition delegate_calls (x : N) (evs : list Event) : nat :=
  length (List.filter (fires x) evs).

Lemma delegate_calls_app x evs1 evs2 :
  delegate_calls x (evs1 ++ evs2)
  = (delegate_calls x evs1 + delegate_calls x evs2)%nat.
Proof. unfold delegate_calls. by rewrite List.filter_app, length_app. Qed.

Lemma delegate_calls_join x (ls : list (list Event)) :
  Forall (λ l, delegate_calls x l = 0%nat) ls ->
  delegate_calls x (mjoin ls) = 0%nat.
Proof.
  induction 1 as [|l ls Hl _ IH]; [reflexivity|].
  change (mjoin (l :: ls)) with (l ++ mjoin ls).
  by rewrite delegate_calls_app, Hl, IH.
Qed.

Section ExactlyOnce.

Context {attester : Attester} {witnesser : Witnesser}.
Variable f : TransportLayer.
Variable enable_relay : bool.

Local Abbreviation on_MESSAGE := (did_recv_MESSAGE f enable_relay).

(** What a relaying node sends on when it accepts a MESSAGE. *)
Definition relayed (transport : TransportId) (bytes : Buffer.t) (s : Node)
    : list Event :=
  if enable_relay then
    mjoin (fan_out f (MESSAGE_channel bytes) (MESSAGE_id bytes)
             (MESSAGE_payload bytes) (Buffer.size (MESSAGE_payload bytes))
             (Some (dst_addr f transport)) (MESSAGE_header bytes)
           <$> elements (sol_conns s) ++ elements (unsol_conns s))
  else [].

Lemma did_recv_MESSAGE_accepted transport bytes s :
  MESSAGE_id bytes ∉ message_id_set s ->
  MESSAGE_verified bytes = true ->
  on_MESSAGE transport bytes s
  = (0%Z, record_message_id (MESSAGE_id bytes) s,
     relayed transport bytes s
     ++ [delegate_did_recv_message (MESSAGE_payload bytes)
           (MESSAGE_header bytes) (MESSAGE_channel bytes) (MESSAGE_id bytes)]).
Proof.
  intros Hin Hv. rewrite did_recv_MESSAGE_eq. unfold relayed.
  unfold bind at 1, gets at 1.
  rewrite bool_decide_eq_false_2 by exact Hin. rewrite Hv. cbn [negb].
  unfold bind at 1, modify at 1. unfold bind at 1.
  destruct enable_relay; cbn [when].
  - rewrite send_message_on_channel_eq. unfold_monad.
    cbn [app]. reflexivity.
  - unfold_monad. reflexivity.
Qed.

Lemma relayed_no_upcall x transport bytes s :
  delegate_calls x (relayed transport bytes s) = 0%nat.
Proof.
  unfold relayed. destruct enable_relay; [|reflexivity].
  apply delegate_calls_join, Forall_fmap, Forall_forall. intros t _.
  unfold fan_out, served; cbn.
  repeat match goal with |- context [if ?c then _ else _] => destruct c end;
    reflexivity.
Qed.

(** A run of [did_recv_MESSAGE] upcalls, one per (transport, frame). *)
Fixpoint did_recv_MESSAGEs (calls : list (TransportId * Buffer.t)) : M (list Z) :=
  match calls with
  | [] => ret []
  | c :: calls' =>
      let* r := on_MESSAGE c.1 c.2 in
      let* rs := did_recv_MESSAGEs calls' in
      ret (r :: rs)
  end.

Lemma did_recv_MESSAGEs_app l1 l2 s :
  did_recv_MESSAGEs (l1 ++ l2) s
  = (let '(r1, s1, e1) := did_recv_MESSAGEs l1 s in
     let '(r2, s2, e2) := did_recv_MESSAGEs l2 s1 in
     (r1 ++ r2, s2, e1 ++ e2)).
Proof.
  revert s. induction l1 as [|c l1 IH]; intros s; cbn [app did_recv_MESSAGEs].
  - unfold ret. destruct (did_recv_MESSAGEs l2 s) as [[r2 s2] e2]. reflexivity.
  - unfold bind at 1 3.
    destruct (on_MESSAGE c.1 c.2 s) as [[r0 s0] e0].
    unfold bind. rewrite IH.
    destruct (did_recv_MESSAGEs l1 s0) as [[r1 s1] e1]. unfold ret. cbn.
    destruct (did_recv_MESSAGEs l2 s1) as [[r2 s2] e2].
    rewrite ?app_nil_r, ?app_assoc. reflexivity.
Qed.

Lemma did_recv_MESSAGEs_duplicates x calls s :
  x ∈ message_id_set s ->
  (∀ c, c ∈ calls -> MESSAGE_id c.2 = x) ->
  did_recv_MESSAGEs calls s = (replicate (length calls) 0%Z, s, []).
Proof.
  intros Hx. induction calls as [|c calls IH]; intros Hid; cbn.
  - reflexivity.
  - unfold bind at 1.
    rewrite did_recv_MESSAGE_duplicate by (rewrite Hid; [done|set_solver]).
    unfold bind. rewrite IH by (intros; apply Hid; set_solver).
    reflexivity.
Qed.

Lemma did_recv_MESSAGEs_rejected x calls s :
  x ∉ message_id_set s ->
  (∀ c, c ∈ calls -> MESSAGE_id c.2 = x ∧ MESSAGE_verified c.2 = false) ->
  did_recv_MESSAGEs calls s
  = (replicate (length calls) (-1)%Z, s, (λ c, transport_close c.1) <$> calls).
Proof.
  intros Hx. induction calls as [|c calls IH]; intros Hid; cbn.
  - reflexivity.
  - unfold bind at 1. destruct (Hid c) as [Hc Hv]; [set_solver|].
    rewrite did_recv_MESSAGE_rejected by (rewrite ?Hc; done).
    unfold bind. rewrite IH by (intros; apply Hid; set_solver).
    unfold ret. cbn. rewrite app_nil_r. reflexivity.
Qed.

Lemma rejected_no_upcall x (calls : list (TransportId * Buffer.t)) :
  delegate_calls x ((λ c, transport_close c.1) <$> calls) = 0%nat.
Proof. induction calls; [reflexivity|]. exact IHcalls. Qed.

Lemma record_message_id_seen x s : x ∈ message_id_set (record_message_id x s).
Proof. cbn. set_solver. Qed.


(** C8.  A MESSAGE whose id has not been seen and on which
    [attester.verify] answers false makes [did_recv_MESSAGE] close the
    transport and return -1; the delegate is not invoked and the node,
    hence the seen set and the dedup ring, is left as it was. *)
Theorem did_recv_MESSAGE_attestation_failure
    (transport : TransportId) (bytes : Buffer.t) (s : Node) :
  MESSAGE_id bytes ∉ message_id_set s ->
  MESSAGE_verified bytes = false ->
  let r := on_MESSAGE transport bytes s in
  result r = (-1)%Z
  ∧ events r = [transport_close transport]
  ∧ (∀ x, delegate_calls x (events r) = 0%nat)
  ∧ state_of r = s
  ∧ (MESSAGE_id bytes ∉ message_id_set (state_of r))
  ∧ message_id_events (state_of r) = message_id_events s.
Proof.
  intros Hx Hv r. subst r. rewrite did_recv_MESSAGE_rejected by done.
  unfold result, events, state_of; cbn [fst snd]. by repeat split.
Qed.

End ExactlyOnce.

(** ** Slot management *)

(** [check_tranport_present], as a test on the state. *)
Definition present (s : Node) (t : TransportId) : bool :=
  TransportSet.check_tranport_in_set (sol_conns s) t
  || TransportSet.check_tranport_in_set (sol_standby_conns s) t
  || TransportSet.check_tranport_in_set (unsol_conns s) t.

Lemma present_iff s t :
  present s t = true
  ↔ t ∈ sol_conns s ∨ t ∈ sol_standby_conns s ∨ t ∈ unsol_conns s.
Proof.
  unfold present, TransportSet.check_tranport_in_set.
  rewrite !orb_true_iff, !bool_decide_eq_true. tauto.
Qed.

Lemma present_false_iff s t :
  present s t = false
  ↔ (t ∉ sol_conns s) ∧ (t ∉ sol_standby_conns s) ∧ (t ∉ unsol_conns s).
Proof.
  rewrite <- not_true_iff_false, present_iff. tauto.
Qed.

(** The slot caps. *)
Definition caps_ok (s : Node) : Prop :=
  (size (sol_conns s) ≤ max_sol_conns s)%nat
  ∧ (size (unsol_conns s) ≤ max_unsol_conns s)%nat.

Definition RESPONSE (transport : TransportId) (msg : string) : Event :=
  let bytes := list_byte_of_string msg in
  transport_send transport
    (Buffer.write (Buffer.init [x02; x01] (N.of_nat (length bytes) + 2)) 2 bytes).

Definition SUBSCRIBE (transport : TransportId) (channel : N) : Event :=
  transport_send transport
    (Buffer.write_uint16_be (Buffer.init [x00] 3) 1 channel).

Section Slots.

Variable delegate : PubSubDelegate.

Lemma check_tranport_present_eq t s :
  check_tranport_present t s = (present s t, s, []).
Proof. reflexivity. Qed.

Lemma remove_conn_eq r t s :
  remove_conn r t s
  = if bool_decide (t ∈ slot r s) then
      (true, set_slot r (slot r s ∖ {[t]}) s,
       match r with
       | ref_sol_conns => [RESPONSE t "UNSUBSCRIBED"]
       | _ => []
       end)
    else (false, s, []).
Proof.
  unfold remove_conn, TransportSet.check_tranport_in_set. unfold_monad.
  destruct (bool_decide (t ∈ slot r s)); [|reflexivity].
  destruct r; reflexivity.
Qed.

Lemma add_sol_standby_conn_eq t s :
  add_sol_standby_conn t s
  = if present s t then (false, s, [])
    else (true, set_sol_standby_conns ({[t]} ∪ sol_standby_conns s) s, []).
Proof.
  unfold add_sol_standby_conn. unfold bind at 1.
  rewrite check_tranport_present_eq. destruct (present s t); reflexivity.
Qed.

Lemma add_unsol_conn_eq t s :
  add_unsol_conn t s
  = if bool_decide (max_unsol_conns s ≤ size (unsol_conns s))%nat
    then (false, s, [])
    else if present s t then (false, s, [])
    else (true, set_unsol_conns ({[t]} ∪ unsol_conns s) s,
          [RESPONSE t "SUBSCRIBED"]).
Proof.
  unfold add_unsol_conn. unfold bind at 1, gets at 1.
  destruct (bool_decide _); [reflexivity|].
  unfold bind at 1. rewrite check_tranport_present_eq.
  destruct (present s t); reflexivity.
Qed.

(** The node once [add_sol_conn] has taken the transport out of the
    standby and the unsolicited set. *)
Definition vacated (t : TransportId) (s : Node) : Node :=
  set_unsol_conns (unsol_conns s ∖ {[t]})
    (set_sol_standby_conns (sol_standby_conns s ∖ {[t]}) s).

Lemma set_sol_standby_conns_same v s :
  v = sol_standby_conns s -> set_sol_standby_conns v s = s.
Proof. intros ->. by destruct s. Qed.

Lemma set_unsol_conns_same v s :
  v = unsol_conns s -> set_unsol_conns v s = s.
Proof. intros ->. by destruct s. Qed.

Lemma set_sol_conns_same v s :
  v = sol_conns s -> set_sol_conns v s = s.
Proof. intros ->. by destruct s. Qed.

Lemma remove_conn_standby_unsol t s :
  (remove_conn ref_sol_standby_conns t ;;; remove_conn ref_unsol_conns t) s
  = (bool_decide (t ∈ unsol_conns s), vacated t s, []).
Proof.
  unfold bind. rewrite remove_conn_eq. cbn [slot].
  assert (Hs : t ∉ sol_standby_conns s ->
               set_sol_standby_conns (sol_standby_conns s ∖ {[t]}) s = s).
  { intros. apply set_sol_standby_conns_same. set_solver. }
  unfold vacated.
  destruct (bool_decide (t ∈ sol_standby_conns s)) eqn:E1.
  - rewrite remove_conn_eq. cbn [slot set_slot].
    change (unsol_conns (set_sol_standby_conns _ s)) with (unsol_conns s).
    destruct (bool_decide (t ∈ unsol_conns s)) eqn:E2; [reflexivity|].
    apply bool_decide_eq_false in E2.
    rewrite (set_unsol_conns_same (unsol_conns s ∖ _)) by (cbn; set_solver).
    reflexivity.
  - apply bool_decide_eq_false in E1. rewrite Hs by exact E1.
    rewrite remove_conn_eq. cbn [slot set_slot].
    destruct (bool_decide (t ∈ unsol_conns s)) eqn:E2; [reflexivity|].
    apply bool_decide_eq_false in E2.
    rewrite (set_unsol_conns_same (unsol_conns s ∖ _)) by (cbn; set_solver).
    reflexivity.
Qed.

Lemma add_sol_conn_eq t s :
  add_sol_conn delegate t s
  = if bool_decide (max_sol_conns s ≤ size (sol_conns s))%nat then
      (false, state_of (add_sol_standby_conn t s), [])
    else if bool_decide (t ∈ sol_conns s) then (false, vacated t s, [])
    else (true, set_sol_conns ({[t]} ∪ sol_conns s) (vacated t s),
          (SUBSCRIBE t <$> channels delegate) ++ [RESPONSE t "SUBSCRIBED"]).
Proof.
  unfold add_sol_conn. unfold bind at 1, gets at 1.
  destruct (bool_decide (max_sol_conns s ≤ size (sol_conns s))%nat).
  - unfold bind. rewrite add_sol_standby_conn_eq.
    destruct (present s t); reflexivity.
  - pose proof (remove_conn_standby_unsol t s) as Hrm.
    unfold bind at 1 in Hrm. unfold bind at 1.
    destruct (remove_conn ref_sol_standby_conns t s) as [[r1 s1] e1].
    unfold bind at 1.
    destruct (remove_conn ref_unsol_conns t s1) as [[r2 s2] e2].
    injection Hrm as Hr Hs He. subst s2. apply app_eq_nil in He as [-> ->].
    unfold bind at 1. rewrite check_tranport_present_eq.
    assert (Hp : present (vacated t s) t = bool_decide (t ∈ sol_conns s)).
    { unfold present, vacated, TransportSet.check_tranport_in_set; cbn.
      rewrite (bool_decide_eq_false_2 (t ∈ sol_standby_conns s ∖ {[t]}))
        by set_solver.
      rewrite (bool_decide_eq_false_2 (t ∈ unsol_conns s ∖ {[t]}))
        by set_solver.
      by rewrite !orb_false_r. }
    rewrite Hp. destruct (bool_decide (t ∈ sol_conns s)); [reflexivity|].
    cbn [negb app]. unfold bind at 1.
    rewrite (for_each_pure _ _ (λ c, [SUBSCRIBE t c])) by reflexivity.
    unfold_monad. cbn [app]. f_equal.
    induction (channels delegate) as [|c l IH]; [reflexivity|].
    cbn. f_equal. exact IH.
Qed.

End Slots.

(** ** Incoming SUBSCRIBE and local subscribe *)

Section Subscribing.

Variable f : TransportLayer.
Variable delegate : PubSubDelegate.

Local Abbreviation to_solicited := (add_sol_conn delegate).
Local Abbreviation on_SUBSCRIBE := (did_recv_SUBSCRIBE f delegate true).
Local Abbreviation do_subscribe := (subscribe f delegate).

Lemma did_recv_SUBSCRIBE_blacklisted t bytes s :
  dst_addr f t ∈ blacklist_addr s ->
  on_SUBSCRIBE t bytes s
  = (let r := to_solicited t
                (set_blacklist_addr (blacklist_addr s ∖ {[dst_addr f t]}) s) in
     (0%Z, state_of r, events r)).
Proof.
  intros Hb. unfold did_recv_SUBSCRIBE.
  unfold bind at 1, gets at 1. rewrite bool_decide_eq_true_2 by exact Hb.
  unfold bind at 1, modify at 1. unfold bind at 1.
  destruct (to_solicited t _) as [[r1 s1] e1]. unfold_monad.
  cbn. by rewrite app_nil_r.
Qed.

Lemma did_recv_SUBSCRIBE_not_blacklisted t bytes s :
  dst_addr f t ∉ blacklist_addr s ->
  on_SUBSCRIBE t bytes s
  = if present s t then (0%Z, s, [])
    else if bool_decide (max_unsol_conns s ≤ size (unsol_conns s))%nat
    then ((-1)%Z, s, [transport_close t])
    else (0%Z, set_unsol_conns ({[t]} ∪ unsol_conns s) s,
          [RESPONSE t "SUBSCRIBED"]).
Proof.
  intros Hb. unfold did_recv_SUBSCRIBE.
  unfold bind at 1, gets at 1. rewrite bool_decide_eq_false_2 by exact Hb.
  unfold bind at 1. rewrite add_unsol_conn_eq.
  destruct (present s t) eqn:Hp.
  - destruct (bool_decide _); unfold bind;
      rewrite check_tranport_present_eq, Hp; reflexivity.
  - destruct (bool_decide _).
    + unfold bind. rewrite check_tranport_present_eq, Hp. reflexivity.
    + unfold bind. rewrite check_tranport_present_eq.
      assert (present (set_unsol_conns ({[t]} ∪ unsol_conns s) s) t = true) as ->.
      { apply present_iff. cbn. set_solver. }
      reflexivity.
Qed.

(** C6 (as the code has it).  With [accept_unsol_conn] set, a SUBSCRIBE
    from a sender that is not blacklisted and whose transport already
    sits in one of the three slot sets is answered with 0 and changes
    nothing: the transport is not closed.  A sender in no slot is put
    into the unsolicited set, sent RESPONSE "SUBSCRIBED" and answered
    with 0 while that set is below [max_unsol_conns]; when the set is
    at capacity the transport is closed and the answer is -1. *)
Theorem did_recv_SUBSCRIBE_unsolicited (t : TransportId) (bytes : Buffer.t) (s : Node) :
  dst_addr f t ∉ blacklist_addr s ->
  on_SUBSCRIBE t bytes s
  = if present s t then (0%Z, s, [])
    else if bool_decide (max_unsol_conns s ≤ size (unsol_conns s))%nat
    then ((-1)%Z, s, [transport_close t])
    else (0%Z, set_unsol_conns ({[t]} ∪ unsol_conns s) s,
          [RESPONSE t "SUBSCRIBED"]).
Proof. apply did_recv_SUBSCRIBE_not_blacklisted. Qed.

(** C7 (as the code has it).  With [accept_unsol_conn] set, a SUBSCRIBE
    from a blacklisted address is answered with 0, the address leaves
    the blacklist, and the transport goes through [add_sol_conn]: it is
    in the solicited set afterwards when that set was below
    [max_sol_conns]; when the set was at capacity it is left as it is
    and the transport is put on standby unless it already sits in some
    slot. *)
Theorem did_recv_SUBSCRIBE_from_blacklisted
    (t : TransportId) (bytes : Buffer.t) (s : Node) :
  dst_addr f t ∈ blacklist_addr s ->
  let r := on_SUBSCRIBE t bytes s in
  result r = 0%Z
  ∧ blacklist_addr (state_of r) = blacklist_addr s ∖ {[dst_addr f t]}
  ∧ if bool_decide (max_sol_conns s ≤ size (sol_conns s))%nat
    then sol_conns (state_of r) = sol_conns s
         ∧ sol_standby_conns (state_of r)
           = (if present s t then sol_standby_conns s
              else {[t]} ∪ sol_standby_conns s)
    else sol_conns (state_of r) = {[t]} ∪ sol_conns s.
Proof.
  intros Hb r. subst r. rewrite did_recv_SUBSCRIBE_blacklisted by exact Hb.
  cbv zeta. rewrite add_sol_conn_eq.
  set (s0 := set_blacklist_addr _ s).
  change (max_sol_conns s0) with (max_sol_conns s).
  change (sol_conns s0) with (sol_conns s).
  destruct (bool_decide (max_sol_conns s ≤ size (sol_conns s))%nat).
  - rewrite add_sol_standby_conn_eq.
    change (present s0 t) with (present s t).
    destruct (present s t); by repeat split.
  - destruct (bool_decide (t ∈ sol_conns s)) eqn:E.
    + apply bool_decide_eq_true in E.
      repeat split. cbn. set_solver.
    + by repeat split.
Qed.

(** Subscribing again after a subscribe that found an active transport. *)
Lemma add_sol_conn_again t s :
  let s1 := state_of (to_solicited t s) in
  t ∈ sol_conns s1 -> to_solicited t s1 = (false, s1, []).
Proof.
  intros s1 Hin. subst s1. revert Hin. rewrite add_sol_conn_eq.
  destruct (bool_decide (max_sol_conns s ≤ size (sol_conns s))%nat) eqn:Hfull.
  - unfold state_of at 1 2 3; cbn [fst snd].
    set (s1 := state_of (add_sol_standby_conn t s)). intros Hin.
    assert (Hsol : sol_conns s1 = sol_conns s ∧ max_sol_conns s1 = max_sol_conns s).
    { subst s1. rewrite add_sol_standby_conn_eq. by destruct (present s t). }
    destruct Hsol as [Hsol Hmax].
    rewrite add_sol_conn_eq, Hsol, Hmax, Hfull, add_sol_standby_conn_eq.
    rewrite (proj2 (present_iff s1 t)) by auto. reflexivity.
  - assert (Hv : ∀ s', t ∉ sol_standby_conns s' -> t ∉ unsol_conns s' ->
                       vacated t s' = s').
    { intros s' H1 H2. unfold vacated.
      rewrite (set_sol_standby_conns_same (sol_standby_conns s' ∖ _))
        by set_solver.
      apply set_unsol_conns_same. set_solver. }
    assert (Hagain : ∀ s', t ∈ sol_conns s' -> t ∉ sol_standby_conns s' ->
              t ∉ unsol_conns s' -> to_solicited t s' = (false, s', [])).
    { intros s' H0 H1 H2. rewrite add_sol_conn_eq, add_sol_standby_conn_eq.
      rewrite (proj2 (present_iff s' t)) by auto.
      rewrite (bool_decide_eq_true_2 _ H0), Hv by done.
      destruct (bool_decide (max_sol_conns s' ≤ size (sol_conns s'))%nat);
        reflexivity. }
    destruct (bool_decide (t ∈ sol_conns s)); unfold state_of; cbn [fst snd];
      intros Hin; apply Hagain; cbn in *; set_solver.
Qed.

(** C9.  [subscribe] is guarded by the blacklist and idempotent: for
    an address in [blacklist_addr] it changes nothing and calls
    nothing (no dial, no slot change); and once a call has run for an
    address with an active transport, a second call that finds this
    transport in the solicited set changes no node state and sends
    nothing.  The same holds for a single call on any node that keeps
    one slot per transport and has the transport in the solicited
    set. *)
Theorem subscribe_idempotent
    (addr : SocketAddress) (remote_static_pk : list byte)
    (t : TransportId) (s : Node) :
  (addr ∈ blacklist_addr s ->
     do_subscribe addr remote_static_pk s = (tt, s, []))
  ∧ (get_transport f addr = Some t -> is_active f t = true ->
     let s1 := state_of (do_subscribe addr remote_static_pk s) in
     t ∈ sol_conns s1 ->
     do_subscribe addr remote_static_pk s1 = (tt, s1, []))
  ∧ (get_transport f addr = Some t -> is_active f t = true ->
     one_slot s -> t ∈ sol_conns s ->
     do_subscribe addr remote_static_pk s = (tt, s, [])).
Proof.
  assert (Hbl : ∀ s', addr ∈ blacklist_addr s' ->
                  do_subscribe addr remote_static_pk s' = (tt, s', [])).
  { intros s' Hb. unfold subscribe. unfold bind at 1, gets at 1.
    by rewrite bool_decide_eq_true_2. }
  assert (Hsub : ∀ s', get_transport f addr = Some t -> is_active f t = true ->
            addr ∉ blacklist_addr s' ->
            do_subscribe addr remote_static_pk s'
            = (tt, state_of (to_solicited t s'), events (to_solicited t s'))).
  { intros s' Hg Ha Hb. unfold subscribe. unfold bind at 1, gets at 1.
    rewrite bool_decide_eq_false_2 by exact Hb. rewrite Hg, Ha. cbn [negb].
    unfold bind. destruct (to_solicited t s') as [[r1 s1] e1].
    unfold ret, state_of, events. cbn. by rewrite app_nil_r. }
  assert (Hbl_same : ∀ s', blacklist_addr (state_of (to_solicited t s'))
                           = blacklist_addr s').
  { intros s'. rewrite add_sol_conn_eq, add_sol_standby_conn_eq.
    repeat match goal with |- context [if ?c then _ else _] => destruct c end;
      reflexivity. }
  split; [apply Hbl|]. split.
  - intros Hg Ha s1 Hin. subst s1.
    destruct (decide (addr ∈ blacklist_addr s)) as [Hb|Hb].
    + rewrite (Hbl s Hb). unfold state_of; cbn [fst snd]. by apply Hbl.
    + revert Hin. rewrite (Hsub s) by done.
      unfold state_of at 1 2 3; cbn [fst snd]. intros Hin.
      rewrite Hsub by (rewrite ?Hbl_same; done).
      fold (state_of (to_solicited t s)).
      rewrite add_sol_conn_again by exact Hin. reflexivity.
  - intros Hg Ha (H1 & H2 & H3) Hin.
    destruct (decide (addr ∈ blacklist_addr s)) as [Hb|Hb]; [by apply Hbl|].
    rewrite Hsub, add_sol_conn_eq, add_sol_standby_conn_eq by done.
    rewrite (proj2 (present_iff s t)) by auto.
    rewrite (bool_decide_eq_true_2 _ Hin).
    assert (vacated t s = s) as ->.
    { unfold vacated.
      rewrite (set_sol_standby_conns_same (sol_standby_conns s ∖ _))
        by set_solver.
      apply set_unsol_conns_same. set_solver. }
    destruct (bool_decide (max_sol_conns s ≤ size (sol_conns s))%nat);
      reflexivity.
Qed.

End Subscribing.

(** ** Slot caps *)

(** [m] keeps the state property [P]. *)
Definition preserves {A} (P : Node -> Prop) (m : M A) : Prop :=
  ∀ s, P s -> P (state_of (m s)).

Lemma preserves_ret {A} P (a : A) : preserves P (ret a).
Proof. by intros s. Qed.

Lemma preserves_emit P e : preserves P (emit e).
Proof. by intros s. Qed.

Lemma preserves_gets {A} P (g : Node -> A) : preserves P (gets g).
Proof. by intros s. Qed.

Lemma preserves_modify P g :
  (∀ s, P s -> P (g s)) -> preserves P (modify g).
Proof. intros H s. apply H. Qed.

Lemma preserves_bind {A B} P (m : M A) (k : A -> M B) :
  preserves P m -> (∀ a, preserves P (k a)) -> preserves P (bind m k).
Proof.
  intros Hm Hk s Hs. unfold bind, state_of.
  specialize (Hm s Hs). unfold state_of in Hm.
  destruct (m s) as [[a s1] e1]. specialize (Hk a s1 Hm).
  unfold state_of in Hk. by destruct (k a s1) as [[b s2] e2].
Qed.

Lemma preserves_when P c m : preserves P m -> preserves P (when c m).
Proof. destruct c; [done|intros _; apply preserves_ret]. Qed.

Lemma preserves_for_each {A} P (l : list A) body :
  (∀ x, preserves P (body x)) -> preserves P (for_each l body).
Proof.
  intros Hbody. induction l as [|x l IH]; cbn [for_each].
  - apply preserves_ret.
  - apply preserves_bind; [apply Hbody|intros _; exact IH].
Qed.

Create HintDb preserve.

#[local] Hint Resolve preserves_ret preserves_emit preserves_gets
  preserves_when : preserve.

(** A delegate that hands back at most [cap] solicited transports when
    it was handed at most [cap]. *)
Definition respects_cap (d : PubSubDelegate) : Prop :=
  ∀ cap sol standby,
    (size sol ≤ cap)%nat ->
    (size (manage_subscriptions d cap sol standby).1 ≤ cap)%nat.

(** The calls that move transports between the slot sets. *)
Inductive SlotCall : Type :=
| call_add_sol_conn (t : TransportId)
| call_add_unsol_conn (t : TransportId)
| call_add_sol_standby_conn (t : TransportId)
| call_remove_conn (t_set : SlotRef) (t : TransportId)
| call_did_recv_SUBSCRIBE (t : TransportId) (bytes : Buffer.t)
| call_did_close (t : TransportId).

Section Caps.

Variable f : TransportLayer.
Variable delegate : PubSubDelegate.
Variable accept_unsol_conn : bool.

Definition slot_call (c : SlotCall) : M unit :=
  match c with
  | call_add_sol_conn t => add_sol_conn delegate t ;;; ret tt
  | call_add_unsol_conn t => add_unsol_conn t ;;; ret tt
  | call_add_sol_standby_conn t => add_sol_standby_conn t ;;; ret tt
  | call_remove_conn t_set t => remove_conn t_set t ;;; ret tt
  | call_did_recv_SUBSCRIBE t bytes =>
      did_recv_SUBSCRIBE f delegate accept_unsol_conn t bytes ;;; ret tt
  | call_did_close t => did_close f delegate t
  end.

Lemma size_insert_le (t : TransportId) (X : TransportSet.t) (n : nat) :
  (size X < n)%nat -> (size ({[t]} ∪ X) ≤ n)%nat.
Proof.
  intros H. destruct (decide (t ∈ X)) as [Hin|Hin].
  - replace ({[t]} ∪ X) with X by set_solver. lia.
  - rewrite size_union by set_solver. rewrite size_singleton. lia.
Qed.

Lemma size_erase_le (t : TransportId) (X : TransportSet.t) :
  (size (X ∖ {[t]}) ≤ size X)%nat.
Proof. apply subseteq_size. set_solver. Qed.

Lemma caps_ok_remove_conn r t : preserves caps_ok (remove_conn r t).
Proof.
  intros s [H1 H2]. rewrite remove_conn_eq.
  destruct (bool_decide (t ∈ slot r s)); [|done].
  pose proof (size_erase_le t (sol_conns s)).
  pose proof (size_erase_le t (unsol_conns s)).
  destruct r; split; cbn; lia.
Qed.

Lemma caps_ok_add_sol_standby_conn t : preserves caps_ok (add_sol_standby_conn t).
Proof.
  intros s Hs. rewrite add_sol_standby_conn_eq. by destruct (present s t).
Qed.

Lemma caps_ok_add_unsol_conn t : preserves caps_ok (add_unsol_conn t).
Proof.
  intros s [H1 H2]. rewrite add_unsol_conn_eq.
  case_bool_decide as Hfull; [done|]. destruct (present s t); [done|].
  split; cbn; [done|]. apply size_insert_le. lia.
Qed.

Lemma caps_ok_add_sol_conn t : preserves caps_ok (add_sol_conn delegate t).
Proof.
  intros s [H1 H2]. rewrite add_sol_conn_eq.
  pose proof (size_erase_le t (unsol_conns s)).
  case_bool_decide as Hfull.
  - rewrite add_sol_standby_conn_eq. by destruct (present s t).
  - case_bool_decide; split; cbn; try lia. apply size_insert_le. lia.
Qed.

Lemma caps_ok_did_recv_SUBSCRIBE t bytes :
  preserves caps_ok (did_recv_SUBSCRIBE f delegate accept_unsol_conn t bytes).
Proof.
  unfold did_recv_SUBSCRIBE. destruct accept_unsol_conn; [|apply preserves_ret].
  apply preserves_bind; [apply preserves_gets|]. intros [].
  - apply preserves_bind; [by apply preserves_modify|]. intros _.
    apply preserves_bind; [apply caps_ok_add_sol_conn|auto with preserve].
  - apply preserves_bind; [apply caps_ok_add_unsol_conn|]. intros _.
    apply preserves_bind; [apply preserves_gets|]. intros [];
      cbn [negb]; [apply preserves_ret|].
    apply preserves_bind; [apply preserves_emit|auto with preserve].
Qed.

Lemma caps_ok_did_close t :
  respects_cap delegate -> preserves caps_ok (did_close f delegate t).
Proof.
  intros Hd. unfold did_close.
  apply preserves_bind; [apply caps_ok_remove_conn|]. intros r1.
  apply preserves_bind.
  { destruct r1; [apply preserves_ret|apply caps_ok_remove_conn]. }
  intros r2. apply preserves_bind.
  { apply preserves_when. by apply preserves_modify. }
  intros _. apply preserves_bind; [apply caps_ok_remove_conn|]. intros _.
  apply preserves_bind.
  { apply preserves_for_each. intros id.
    apply preserves_bind.
    - intros s Hs. unfold cut_through_map_at, state_of.
      by destruct (index_default _ _ _).
    - intros subs. apply preserves_bind.
      + apply preserves_for_each. intros sub. apply preserves_emit.
      + intros _. by apply preserves_modify. }
  intros _. apply preserves_bind; [by apply preserves_modify|]. intros _.
  unfold call_manage_subscriptions.
  apply preserves_bind; [apply preserves_emit|]. intros _.
  apply preserves_modify. intros s [H1 H2].
  specialize (Hd (max_sol_conns s) (sol_conns s) (sol_standby_conns s) H1).
  destruct (manage_subscriptions delegate _ _ _) as [sol standby].
  split; cbn in *; done.
Qed.

Lemma caps_ok_slot_call c :
  respects_cap delegate -> preserves caps_ok (slot_call c).
Proof.
  intros Hd. destruct c; cbn [slot_call];
    [..|by apply caps_ok_did_close];
    (apply preserves_bind; [|auto with preserve]).
  - apply caps_ok_add_sol_conn.
  - apply caps_ok_add_unsol_conn.
  - apply caps_ok_add_sol_standby_conn.
  - apply caps_ok_remove_conn.
  - apply caps_ok_did_recv_SUBSCRIBE.
Qed.

(** C5 (as the code has it).  When the delegate respects the cap it is
    handed, [|sol_conns| <= max_sol_conns] and
    [|unsol_conns| <= max_unsol_conns] hold after any sequence of
    [add_sol_conn], [add_unsol_conn], [add_sol_standby_conn],
    [remove_conn], [did_recv_SUBSCRIBE] and [did_close] calls.
    [add_sol_conn] on a full solicited set returns false, sends
    nothing and leaves the solicited set alone; it puts the transport
    on standby only when the transport sits in no slot yet, and
    otherwise changes nothing. *)
Theorem slot_caps_preserved (calls : list SlotCall) (s : Node) :
  respects_cap delegate ->
  caps_ok s ->
  caps_ok (state_of (for_each calls slot_call s))
  ∧ ∀ t s', (max_sol_conns s' ≤ size (sol_conns s'))%nat ->
      add_sol_conn delegate t s'
      = (false,
         (if present s' t then s'
          else set_sol_standby_conns ({[t]} ∪ sol_standby_conns s') s'),
         []).
Proof.
  intros Hd Hs. split.
  - revert s Hs. apply preserves_for_each. intros c.
    by apply caps_ok_slot_call.
  - intros t s' Hfull. rewrite add_sol_conn_eq, add_sol_standby_conn_eq.
    rewrite bool_decide_eq_true_2 by exact Hfull.
    by destruct (present s' t).
Qed.

End Caps.

(** ** One slot per transport *)

(** A delegate that only moves transports between the two sets it is
    handed. *)
Definition keeps_one_slot (d : PubSubDelegate) : Prop :=
  ∀ cap sol standby,
    sol ## standby ->
    let r := manage_subscriptions d cap sol standby in
    r.1 ## r.2 ∧ r.1 ∪ r.2 ⊆ sol ∪ standby.

Section OneSlot.

Variable f : TransportLayer.
Variable delegate : PubSubDelegate.
Variable accept_unsol_conn : bool.

Lemma one_slot_PubSubNode max_sol max_unsol keys :
  one_slot (PubSubNode max_sol max_unsol keys).
Proof. unfold one_slot; cbn. set_solver. Qed.

Lemma one_slot_remove_conn r t : preserves one_slot (remove_conn r t).
Proof.
  intros s (H1 & H2 & H3). rewrite remove_conn_eq.
  destruct (bool_decide (t ∈ slot r s)); [|done].
  destruct r; unfold one_slot, state_of; cbn; set_solver.
Qed.

Lemma one_slot_add_sol_standby_conn t :
  preserves one_slot (add_sol_standby_conn t).
Proof.
  intros s (H1 & H2 & H3). rewrite add_sol_standby_conn_eq.
  destruct (present s t) eqn:Hp; [done|].
  apply present_false_iff in Hp as (?&?&?).
  unfold one_slot, state_of; cbn; set_solver.
Qed.

Lemma one_slot_add_unsol_conn t : preserves one_slot (add_unsol_conn t).
Proof.
  intros s (H1 & H2 & H3). rewrite add_unsol_conn_eq.
  destruct (bool_decide _); [done|].
  destruct (present s t) eqn:Hp; [done|].
  apply present_false_iff in Hp as (?&?&?).
  unfold one_slot, state_of; cbn; set_solver.
Qed.

Lemma one_slot_add_sol_conn t : preserves one_slot (add_sol_conn delegate t).
Proof.
  intros s Hs. rewrite add_sol_conn_eq.
  destruct (bool_decide (max_sol_conns s ≤ size (sol_conns s))%nat).
  - by apply one_slot_add_sol_standby_conn.
  - destruct Hs as (H1 & H2 & H3).
    destruct (bool_decide (t ∈ sol_conns s));
      unfold one_slot, state_of; cbn; set_solver.
Qed.

Lemma one_slot_did_recv_SUBSCRIBE t bytes :
  preserves one_slot (did_recv_SUBSCRIBE f delegate accept_unsol_conn t bytes).
Proof.
  unfold did_recv_SUBSCRIBE. destruct accept_unsol_conn; [|apply preserves_ret].
  apply preserves_bind; [apply preserves_gets|]. intros [].
  - apply preserves_bind; [by apply preserves_modify|]. intros _.
    apply preserves_bind; [apply one_slot_add_sol_conn|auto with preserve].
  - apply preserves_bind; [apply one_slot_add_unsol_conn|]. intros _.
    apply preserves_bind; [apply preserves_gets|]. intros [];
      cbn [negb]; [apply preserves_ret|].
    apply preserves_bind; [apply preserves_emit|auto with preserve].
Qed.

Lemma one_slot_did_close t :
  keeps_one_slot delegate -> preserves one_slot (did_close f delegate t).
Proof.
  intros Hd. unfold did_close.
  apply preserves_bind; [apply one_slot_remove_conn|]. intros r1.
  apply preserves_bind.
  { destruct r1; [apply preserves_ret|apply one_slot_remove_conn]. }
  intros r2. apply preserves_bind.
  { apply preserves_when. by apply preserves_modify. }
  intros _. apply preserves_bind; [apply one_slot_remove_conn|]. intros _.
  apply preserves_bind.
  { apply preserves_for_each. intros id.
    apply preserves_bind.
    - intros s Hs. unfold cut_through_map_at, state_of.
      by destruct (index_default _ _ _).
    - intros subs. apply preserves_bind.
      + apply preserves_for_each. intros sub. apply preserves_emit.
      + intros _. by apply preserves_modify. }
  intros _. apply preserves_bind; [by apply preserves_modify|]. intros _.
  unfold call_manage_subscriptions.
  apply preserves_bind; [apply preserves_emit|]. intros _.
  apply preserves_modify. intros s (H1 & H2 & H3).
  specialize (Hd (max_sol_conns s) (sol_conns s) (sol_standby_conns s) H1).
  destruct (manage_subscriptions delegate _ _ _) as [sol standby].
  destruct Hd as [Hd1 Hd2]. unfold one_slot; cbn in *. set_solver.
Qed.

(** From the constructor on, every transport sits in at most one of
    the three sets. *)
Lemma one_slot_invariant (calls : list SlotCall) max_sol max_unsol keys :
  keeps_one_slot delegate ->
  one_slot (state_of (for_each calls (slot_call f delegate accept_unsol_conn)
                        (PubSubNode max_sol max_unsol keys))).
Proof.
  intros Hd. apply preserves_for_each; [|apply one_slot_PubSubNode].
  intros c. destruct c; cbn [slot_call];
    [..|by apply one_slot_did_close];
    (apply preserves_bind; [|auto with preserve]).
  - apply one_slot_add_sol_conn.
  - apply one_slot_add_unsol_conn.
  - apply one_slot_add_sol_standby_conn.
  - apply one_slot_remove_conn.
  - apply one_slot_did_recv_SUBSCRIBE.
Qed.

End OneSlot.

(** ** Buffers: lengths, windows and big-endian fields *)

Lemma byte_of_N_to_N (b : byte) : byte_of_N (Byte.to_N b) = b.
Proof.
  unfold byte_of_N. pose proof (Byte.to_N_bounded b) as Hb.
  rewrite N.mod_small by lia. by rewrite Byte.of_to_N.
Qed.

Lemma Buffer_write_init (b : Buffer.t) :
  Buffer.write (Buffer.init [] (Buffer.size b)) 0 b = b.
Proof.
  unfold Buffer.write, Buffer.init, Buffer.size.
  rewrite Nat2N.id. cbn [app].
  rewrite take_ge by (rewrite length_replicate; lia).
  rewrite length_replicate.
  rewrite decide_True by lia.
  cbn. rewrite drop_ge by (rewrite length_replicate; lia).
  apply app_nil_r.
Qed.

Lemma key32_length (pk : list byte) : length (key32 pk) = 32%nat.
Proof.
  unfold key32. rewrite length_take, length_app, length_replicate. lia.
Qed.

Section Header.

Variable bytes : Buffer.t.
Variable L : N.
Hypothesis HL : L = Buffer.read_uint16_be bytes 11.
Hypothesis Hsize : 13 + L <= Buffer.size bytes.

Lemma header_field :
  Buffer.encode_be 2 L = Buffer.slice bytes 11 2.
Proof.
  unfold Buffer.size in Hsize. unfold Buffer.slice.
  assert (Hlen : (13 ≤ length bytes)%nat) by lia.
  destruct (lookup_lt_is_Some_2 bytes 11%nat) as [b0 Hb0]; [lia|].
  destruct (lookup_lt_is_Some_2 bytes 12%nat) as [b1 Hb1]; [lia|].
  change (N.to_nat 11) with 11%nat. change (N.to_nat 2) with 2%nat.
  rewrite (drop_S _ b0 11) by exact Hb0.
  rewrite (drop_S _ b1 12) by exact Hb1. cbn [take].
  subst L. unfold Buffer.read_uint16_be, Buffer.read_be, Buffer.byte_at.
  change (N.to_nat 11) with 11%nat.
  change (N.to_nat (11 + 1)) with 12%nat. rewrite Hb0, Hb1.
  pose proof (Byte.to_N_bounded b0). pose proof (Byte.to_N_bounded b1).
  cbn [Buffer.encode_be]. f_equal; [|f_equal].
  - rewrite <- (byte_of_N_to_N b0) at 2. f_equal.
    change (2 ^ (8 * N.of_nat 1)) with 256.
    change (2 ^ (8 * N.of_nat 0)) with 1.
    rewrite N.mul_1_r, N.add_0_r.
    rewrite N.div_add_l by lia. rewrite N.div_small by lia. lia.
  - rewrite <- (byte_of_N_to_N b1) at 2. unfold byte_of_N.
    change (2 ^ (8 * N.of_nat 1)) with 256.
    change (2 ^ (8 * N.of_nat 0)) with 1.
    rewrite N.mul_1_r, N.add_0_r, N.div_1_r.
    rewrite (N.add_comm _ (Byte.to_N b1)), N.Div0.mod_add. reflexivity.
Qed.

(** The received chunk: eleven bytes of type, id and channel, the
    length field, the witness, the rest. *)
Lemma chunk_layout :
  bytes = take 11 bytes ++ Buffer.encode_be 2 L
          ++ Buffer.slice bytes 13 L ++ drop (N.to_nat (13 + L)) bytes.
Proof.
  rewrite header_field. unfold Buffer.slice.
  change (N.to_nat 11) with 11%nat. change (N.to_nat 2) with 2%nat.
  change (N.to_nat 13) with 13%nat.
  rewrite <- (take_drop 11 bytes) at 1. f_equal.
  rewrite <- (take_drop 2 (drop 11 bytes)) at 1. f_equal.
  rewrite drop_drop. change (11 + 2)%nat with 13%nat.
  rewrite <- (take_drop (N.to_nat L) (drop 13 bytes)) at 1. f_equal.
  rewrite drop_drop. f_equal. lia.
Qed.

(** The header that is relayed: the 13 + L header bytes, the node's
    key behind them, and the length field rewritten. *)
Lemma relayed_header (pk : list byte) :
  L + 32 < 2 ^ 16 ->
  Buffer.write_uint16_be
    (Buffer.of_bytes (Buffer.slice bytes 0 (13 + L) ++ key32 pk) (13 + L + 32))
    11 (L + 32)
  = take 11 bytes ++ Buffer.encode_be 2 (L + 32)
    ++ Buffer.slice bytes 13 L ++ key32 pk.
Proof.
  intros Hfit. unfold Buffer.size in Hsize.
  unfold Buffer.write_uint16_be, Buffer.write, Buffer.of_bytes, Buffer.slice,
    Buffer.size, wrap16.
  rewrite N.mod_small by exact Hfit.
  change (N.to_nat 0) with 0%nat. rewrite drop_0.
  assert (Hh : length (take (N.to_nat (13 + L)) bytes) = N.to_nat (13 + L)).
  { rewrite length_take. lia. }
  rewrite take_ge by (rewrite length_app, Hh, key32_length; lia).
  rewrite decide_True
    by (rewrite length_app, Hh, key32_length; cbn [length Buffer.encode_be]; lia).
  change (N.to_nat 11) with 11%nat. change (N.to_nat 13) with 13%nat.
  cbn [length Buffer.encode_be].
  rewrite take_app_le by (rewrite Hh; lia).
  rewrite take_take. rewrite Nat.min_l by lia. f_equal. f_equal. f_equal.
  change (11 + 2)%nat with 13%nat.
  rewrite drop_app_le by (rewrite Hh; lia). f_equal.
  rewrite take_drop_commute. f_equal. f_equal. lia.
Qed.

End Header.

(** ** Cut-through relay *)

Lemma index_default_eq `{Countable K} {V} (d : V) (k : K) (m : gmap K V) :
  index_default d k m = (default d (m !! k), <[k := default d (m !! k)]> m).
Proof.
  unfold index_default. destruct (m !! k) eqn:E; cbn; [|done].
  by rewrite insert_id.
Qed.

(** The three per-session maps, read with their default. *)
Definition session (s : Node) (k : TransportId * N) : list (TransportId * N) :=
  default [] (cut_through_map s !! k).
Definition declared_length (s : Node) (k : TransportId * N) : N :=
  default 0 (cut_through_length s !! k).
Definition header_received (s : Node) (k : TransportId * N) : bool :=
  default false (cut_through_header_recv s !! k).

Section CutThrough.

Variable f : TransportLayer.

Lemma cut_through_map_at_eq k s :
  cut_through_map_at k s
  = (session s k,
     set_cut_through_map (<[k := session s k]> (cut_through_map s)) s, []).
Proof. unfold cut_through_map_at. by rewrite index_default_eq. Qed.

Lemma cut_through_length_at_eq k s :
  cut_through_length_at k s
  = (declared_length s k,
     set_cut_through_length
       (<[k := declared_length s k]> (cut_through_length s)) s, []).
Proof. unfold cut_through_length_at. by rewrite index_default_eq. Qed.

Lemma cut_through_header_recv_at_eq k s :
  cut_through_header_recv_at k s
  = (header_received s k,
     set_cut_through_header_recv
       (<[k := header_received s k]> (cut_through_header_recv s)) s, []).
Proof. unfold cut_through_header_recv_at. by rewrite index_default_eq. Qed.

(** What one chunk costs one subscriber of a session. *)
Definition relay_to (b : Buffer.t) (sub : TransportId * N) : list Event :=
  transport_cut_through_send_bytes sub.1 sub.2 b
    :: (if bool_decide (cut_through_send_bytes f sub.1 sub.2 b < 0)%Z
        then [transport_close sub.1] else []).

Definition relay_events (subs : list (TransportId * N)) (b : Buffer.t)
    : list Event :=
  mjoin (relay_to b <$> subs).

Section Session.

Variables (transport : TransportId) (id : N).
Local Abbreviation k := (transport, id).

(** Later chunks: relay to the session's subscribers. *)
Lemma cut_through_recv_bytes_relay n b s :
  header_received s k = true ->
  ∃ s', cut_through_recv_bytes_fuel f (S n) transport id b s
        = (Some 0%Z, s', relay_events (session s k) b)
    ∧ session s' k = session s k
    ∧ header_received s' k = true
    ∧ message_id_set s' = message_id_set s.
Proof.
  intros Hh. cbn [cut_through_recv_bytes_fuel].
  unfold bind at 1. rewrite cut_through_header_recv_at_eq, Hh. cbn [negb].
  unfold bind at 1. rewrite cut_through_map_at_eq.
  set (s1 := set_cut_through_header_recv _ s).
  change (session s1 k) with (session s k).
  set (s2 := set_cut_through_map _ s1).
  unfold bind at 1.
  rewrite (for_each_pure _ _ (relay_to b)).
  2:{ intros sub _. rewrite Buffer_write_init. unfold relay_to. unfold_monad.
      destruct (bool_decide _); reflexivity. }
  exists s2. split; [|split; [|split]].
  - unfold ret. cbn. by rewrite app_nil_r.
  - unfold session, s2. cbn. by rewrite lookup_insert_eq.
  - unfold header_received, s2, s1. cbn. by rewrite lookup_insert_eq.
  - reflexivity.
Qed.

Variables (bytes : Buffer.t) (L : N).

Definition start_call (len : N) (sub : TransportId) : list Event :=
  if bool_decide (transport = sub) then []
  else if found_in_witness f bytes L sub then []
  else [transport_cut_through_send_start sub (wrap64 (len + 32))].

Definition accepted (len : N) (sub : TransportId) : list (TransportId * N) :=
  if bool_decide (transport = sub) then []
  else if found_in_witness f bytes L sub then []
  else
    let sub_id := cut_through_send_start f sub (wrap64 (len + 32)) in
    if bool_decide (sub_id = 0) then [] else [(sub, sub_id)].

(** What the subscriber loops leave alone. *)
Definition ct_frame (s s' : Node) : Prop :=
  sol_conns s' = sol_conns s
  ∧ unsol_conns s' = unsol_conns s
  ∧ keys s' = keys s
  ∧ cut_through_header_recv s' = cut_through_header_recv s
  ∧ message_id_set s' = message_id_set s
  ∧ declared_length s' k = declared_length s k.

Lemma cut_through_subscribe_spec sub s :
  ∃ s', cut_through_subscribe f transport id bytes L sub s
        = (tt, s', start_call (declared_length s k) sub)
    ∧ session s' k = session s k ++ accepted (declared_length s k) sub
    ∧ ct_frame s s'.
Proof.
  unfold cut_through_subscribe, start_call, accepted.
  destruct (bool_decide (transport = sub)).
  { exists s. by rewrite app_nil_r. }
  destruct (found_in_witness f bytes L sub).
  { exists s. by rewrite app_nil_r. }
  unfold bind at 1. rewrite cut_through_length_at_eq.
  set (s1 := set_cut_through_length _ s).
  assert (Hf1 : ct_frame s s1).
  { repeat split. unfold declared_length, s1. cbn.
    by rewrite lookup_insert_eq. }
  unfold bind at 1, emit at 1. cbv zeta.
  destruct (bool_decide (cut_through_send_start f sub _ = 0)).
  { exists s1. split; [reflexivity|]. split; [by rewrite app_nil_r|done]. }
  unfold bind at 1. rewrite cut_through_map_at_eq.
  change (session s1 k) with (session s k).
  eexists. split; [reflexivity|]. split.
  - unfold session at 1. cbn. by rewrite lookup_insert_eq.
  - destruct Hf1 as (?&?&?&?&?&?). by repeat split.
Qed.

Lemma cut_through_subscribe_loop (subs : list TransportId) s :
  ∃ s', for_each subs (cut_through_subscribe f transport id bytes L) s
        = (tt, s', mjoin (start_call (declared_length s k) <$> subs))
    ∧ session s' k
      = session s k ++ mjoin (accepted (declared_length s k) <$> subs)
    ∧ ct_frame s s'.
Proof.
  revert s. induction subs as [|sub subs IH]; intros s.
  - exists s. cbn. by rewrite app_nil_r.
  - cbn [for_each]. unfold bind.
    destruct (cut_through_subscribe_spec sub s) as (s1 & -> & Hs1 & Hf1).
    destruct (IH s1) as (s2 & -> & Hs2 & Hf2).
    destruct Hf1 as (?&?&?&?&?&Hl1). destruct Hf2 as (?&?&?&?&?&Hl2).
    exists s2. rewrite Hl1 in *. split; [reflexivity|]. split.
    + rewrite Hs2, Hs1, fmap_cons. cbn [mjoin list_join].
      by rewrite app_assoc.
    + repeat split; congruence.
Qed.

End Session.

End CutThrough.

(** [pk] is one of the aligned 32-byte chunks of the witness [W]. *)
Definition in_witness (W pk : list byte) : Prop :=
  ∃ i : nat, N.of_nat i < Buffer.size W / 32
             ∧ Buffer.slice W (32 * N.of_nat i) 32 = pk.

(** A call that hands a session to [sub] or feeds it bytes. *)
Definition relays_to (sub : TransportId) (e : Event) : Prop :=
  (∃ len, e = transport_cut_through_send_start sub len)
  ∨ (∃ sub_id b, e = transport_cut_through_send_bytes sub sub_id b).

Lemma wrap16_le n : wrap16 n <= n.
Proof. unfold wrap16. apply N.Div0.mod_le. Qed.

Lemma found_in_witness_iff f (bytes : Buffer.t) (L : N) sub :
  13 + L <= Buffer.size bytes ->
  found_in_witness f bytes L sub = true
  ↔ in_witness (Buffer.slice bytes 13 L) (key32 (get_remote_static_pk f sub)).
Proof.
  intros Hsize. unfold Buffer.size in Hsize.
  unfold found_in_witness, in_witness.
  assert (HW : Buffer.size (Buffer.slice bytes 13 L) = L).
  { unfold Buffer.size, Buffer.slice. rewrite length_take, length_drop. lia. }
  rewrite HW.
  assert (Hchunk : ∀ i : nat, N.of_nat i < L / 32 ->
            Buffer.slice (Buffer.slice bytes 13 L) (32 * N.of_nat i) 32
            = Buffer.slice bytes (13 + 32 * N.of_nat i) 32).
  { intros i Hi.
    assert (32 * N.of_nat i + 32 <= L).
    { pose proof (N.Div0.mul_div_le L 32). nia. }
    unfold Buffer.slice.
    replace (N.to_nat (13 + 32 * N.of_nat i))
      with (N.to_nat 13 + N.to_nat (32 * N.of_nat i))%nat by lia.
    rewrite <- drop_drop.
    set (X := drop (N.to_nat 13) bytes).
    assert (HX : (N.to_nat L ≤ length X)%nat).
    { unfold X. rewrite length_drop. lia. }
    transitivity (take (N.to_nat 32)
                    (drop (N.to_nat (32 * N.of_nat i))
                       (take (N.to_nat L) X ++ drop (N.to_nat L) X)));
      [|by rewrite take_drop].
    rewrite drop_app_le by (rewrite length_take; lia).
    rewrite take_app_le; [reflexivity|].
    rewrite length_drop, length_take. lia. }
  rewrite existsb_exists. split.
  - intros (i & Hi & Heq). apply in_seq in Hi. apply bool_decide_eq_true in Heq.
    exists i. assert (N.of_nat i < L / 32) by lia.
    split; [done|]. by rewrite Hchunk.
  - intros (i & Hi & Heq). exists i. split.
    + apply in_seq. lia.
    + apply bool_decide_eq_true. by rewrite <- Hchunk.
Qed.

Section FirstChunk.

Variable f : TransportLayer.
Variables (transport : TransportId) (id : N) (bytes : Buffer.t).

Local Abbreviation k := (transport, id).
Local Abbreviation L := (Buffer.read_uint16_be bytes 11).
Local Abbreviation x := (Buffer.read_uint64_be bytes 1).

(** The header handed on: [new_header] of the source, after the key
    has been written behind it and the length field rewritten. *)
Definition new_header (s : Node) : Buffer.t :=
  Buffer.write_uint16_be
    (Buffer.of_bytes
       (Buffer.slice bytes 0 (13 + L)
        ++ key32 (crypto_scalarmult_base f (keys s)))
       (13 + L + 32))
    11 (L + 32).

Definition peers (s : Node) : list TransportId :=
  elements (sol_conns s) ++ elements (unsol_conns s).

(** The subscribers the first chunk adds to the session. *)
Definition enrolled (s : Node) : list (TransportId * N) :=
  mjoin (accepted f transport bytes L (declared_length s k) <$> peers s).

Lemma first_chunk_short n s :
  header_received s k = false ->
  wrap16 (Buffer.size bytes) < 13 + L ->
  ∃ s', cut_through_recv_bytes_fuel f (S n) transport id bytes s
        = (Some (-1)%Z, s', [transport_close transport])
    ∧ session s' k = session s k.
Proof.
  intros Hh Hshort. cbn [cut_through_recv_bytes_fuel].
  unfold bind at 1. rewrite cut_through_header_recv_at_eq, Hh. cbn [negb].
  rewrite decide_True by exact Hshort. unfold_monad. cbn.
  eexists. split; reflexivity.
Qed.

Lemma first_chunk_duplicate n s :
  header_received s k = false ->
  ¬ wrap16 (Buffer.size bytes) < 13 + L ->
  x ∈ message_id_set s ->
  ∃ s', cut_through_recv_bytes_fuel f (S n) transport id bytes s
        = (Some (-1)%Z, s', [transport_cut_through_send_skip transport id])
    ∧ session s' k = session s k.
Proof.
  intros Hh Hlong Hseen. cbn [cut_through_recv_bytes_fuel].
  unfold bind at 1. rewrite cut_through_header_recv_at_eq, Hh. cbn [negb].
  rewrite decide_False by exact Hlong.
  unfold bind at 1, modify at 1. unfold bind at 1, gets at 1.
  cbn [message_id_set set_cut_through_header_recv].
  rewrite bool_decide_eq_true_2 by exact Hseen. unfold_monad. cbn.
  eexists. split; reflexivity.
Qed.

Lemma first_chunk_relayed n s :
  header_received s k = false ->
  ¬ wrap16 (Buffer.size bytes) < 13 + L ->
  x ∉ message_id_set s ->
  let subs := session s k ++ enrolled s in
  ∃ s', cut_through_recv_bytes_fuel f (S (S n)) transport id bytes s
        = (Some 0%Z, s',
           mjoin (start_call f transport bytes L (declared_length s k)
                  <$> peers s)
           ++ relay_events f subs (new_header s)
           ++ relay_events f subs (Buffer.cover bytes (13 + L)))
    ∧ session s' k = subs
    ∧ x ∈ message_id_set s'
    ∧ header_received s' k = true.
Proof.
  intros Hh Hlong Hfresh subs. remember (S n) as m eqn:Hm.
  cbn [cut_through_recv_bytes_fuel].
  unfold bind at 1. rewrite cut_through_header_recv_at_eq, Hh. cbn [negb].
  rewrite decide_False by exact Hlong.
  unfold bind at 1, modify at 1. unfold bind at 1, gets at 1.
  cbn [message_id_set set_cut_through_header_recv].
  rewrite bool_decide_eq_false_2 by exact Hfresh.
  unfold bind at 1, modify at 1.
  set (s2 := record_message_id x _).
  assert (Hs2 : sol_conns s2 = sol_conns s ∧ unsol_conns s2 = unsol_conns s
                ∧ keys s2 = keys s ∧ session s2 k = session s k
                ∧ declared_length s2 k = declared_length s k
                ∧ header_received s2 k = true ∧ x ∈ message_id_set s2).
  { repeat split.
    - unfold header_received, s2. cbn. by rewrite lookup_insert_eq.
    - unfold s2. cbn. set_solver. }
  destruct Hs2 as (Hsol & Hunsol & Hkeys & Hsess & Hlen & Hrecv & Hseen).
  unfold bind at 1, gets at 1. unfold bind at 1.
  destruct (cut_through_subscribe_loop f transport id bytes L
              (elements (sol_conns s2)) s2) as (s3 & -> & Hs3 & Hf3).
  destruct Hf3 as (Hsol3 & Hunsol3 & Hkeys3 & Hrecv3 & Hseen3 & Hlen3).
  unfold bind at 1, gets at 1. unfold bind at 1.
  destruct (cut_through_subscribe_loop f transport id bytes L
              (elements (unsol_conns s3)) s3) as (s4 & -> & Hs4 & Hf4).
  destruct Hf4 as (Hsol4 & Hunsol4 & Hkeys4 & Hrecv4 & Hseen4 & Hlen4).
  unfold bind at 1, gets at 1.
  assert (Hrecv' : header_received s4 k = true).
  { unfold header_received in *. by rewrite Hrecv4, Hrecv3. }
  subst m. unfold bind at 1.
  destruct (cut_through_recv_bytes_relay f transport id n
              (Buffer.write_uint16_be
                 (Buffer.of_bytes
                    (Buffer.slice bytes 0 (13 + L)
                     ++ key32 (crypto_scalarmult_base f (keys s4)))
                    (13 + L + 32)) 11 (L + 32)) s4 Hrecv')
    as (s5 & -> & Hs5 & Hrecv5 & Hseen5).
  rewrite bool_decide_eq_false_2 by lia.
  destruct (cut_through_recv_bytes_relay f transport id n
              (Buffer.cover bytes (13 + L)) s5 Hrecv5)
    as (s6 & -> & Hs6 & Hrecv6 & Hseen6).
  assert (Hsubs : session s4 k = subs).
  { rewrite Hs4, Hs3, Hlen3, Hlen, Hunsol3, Hsess, Hsol, Hunsol.
    subst subs. unfold enrolled, peers.
    by rewrite fmap_app, join_app, app_assoc. }
  exists s6. split; [|split; [|split]]; [| | |exact Hrecv6].
  - rewrite Hs5, Hsubs, Hkeys4, Hkeys3, Hkeys, Hlen3, Hlen, Hunsol3, Hsol, Hunsol.
    unfold new_header, peers. rewrite fmap_app, join_app.
    cbn [app]. rewrite !app_assoc. reflexivity.
  - by rewrite Hs6, Hs5.
  - by rewrite Hseen6, Hseen5, Hseen4, Hseen3.
Qed.

(** With fuel 2 the function always returns. *)
Lemma cut_through_recv_bytes_returns s :
  result (cut_through_recv_bytes f transport id bytes s) ≠ None.
Proof.
  unfold cut_through_recv_bytes.
  destruct (header_received s k) eqn:Hh.
  { destruct (cut_through_recv_bytes_relay f transport id 1 bytes s Hh)
      as (s' & -> & _). done. }
  destruct (decide (wrap16 (Buffer.size bytes) < 13 + L)) as [Hshort|Hlong].
  { destruct (first_chunk_short 1 s Hh Hshort) as (s' & -> & _). done. }
  destruct (decide (x ∈ message_id_set s)) as [Hseen|Hfresh].
  { destruct (first_chunk_duplicate 1 s Hh Hlong Hseen) as (s' & -> & _). done. }
  destruct (first_chunk_relayed 0 s Hh Hlong Hfresh) as (s' & -> & _). done.
Qed.

Lemma elem_of_enrolled s sub sub_id :
  (sub, sub_id) ∈ enrolled s ->
  sub ≠ transport
  ∧ found_in_witness f bytes L sub = false
  ∧ (sub ∈ sol_conns s ∨ sub ∈ unsol_conns s).
Proof.
  unfold enrolled, peers. intros Hin.
  apply list_elem_of_join in Hin as (l & Hin & Hl).
  apply list_elem_of_fmap in Hl as (sub' & -> & Hsub').
  unfold accepted in Hin.
  case_bool_decide; [set_solver|].
  destruct (found_in_witness f bytes L sub') eqn:Hfound; [set_solver|].
  cbv zeta in Hin. case_bool_decide; [set_solver|].
  apply list_elem_of_singleton in Hin. injection Hin as -> _.
  rewrite elem_of_app, !elem_of_elements in Hsub'. done.
Qed.

(** C3.  On the first chunk of a fresh session, with witness [W] (the
    [L] bytes behind the 13-byte prefix), every subscriber put on the
    session's list is a solicited or unsolicited peer other than the
    ingress transport whose 32-byte remote static key is none of the
    aligned 32-byte chunks of [W]; and neither the ingress transport
    nor a peer whose key is such a chunk is handed a cut-through
    stream or any relayed bytes by this call. *)
Theorem cut_through_loop_avoidance (s : Node) :
  header_received s k = false ->
  session s k = [] ->
  let r := cut_through_recv_bytes f transport id bytes s in
  let W := Buffer.slice bytes 13 L in
  (∀ sub sub_id, (sub, sub_id) ∈ session (state_of r) k ->
     sub ≠ transport
     ∧ ¬ in_witness W (key32 (get_remote_static_pk f sub))
     ∧ (sub ∈ sol_conns s ∨ sub ∈ unsol_conns s))
  ∧ (∀ sub e,
       sub = transport ∨ in_witness W (key32 (get_remote_static_pk f sub)) ->
       e ∈ events r -> ¬ relays_to sub e)
  ∧ (result r = Some 0%Z ->
     ∀ later sub e,
       sub = transport ∨ in_witness W (key32 (get_remote_static_pk f sub)) ->
       e ∈ events (cut_through_recv_bytes f transport id later (state_of r)) ->
       ¬ relays_to sub e).
Proof.
  intros Hh Hfresh_session r W. subst r W. unfold cut_through_recv_bytes.
  destruct (decide (wrap16 (Buffer.size bytes) < 13 + L)) as [Hshort|Hlong].
  { destruct (first_chunk_short 1 s Hh Hshort) as (s' & -> & Hs').
    unfold result, state_of, events; cbn [fst snd]. rewrite Hs', Hfresh_session.
    split; [set_solver|]. split; [|done].
    intros sub e _ He [[len ->]|(sid & b & ->)]; set_solver. }
  destruct (decide (x ∈ message_id_set s)) as [Hseen|Hnew].
  { destruct (first_chunk_duplicate 1 s Hh Hlong Hseen) as (s' & -> & Hs').
    unfold result, state_of, events; cbn [fst snd]. rewrite Hs', Hfresh_session.
    split; [set_solver|]. split; [|done].
    intros sub e _ He [[len ->]|(sid & b & ->)]; set_solver. }
  assert (Hsize : 13 + L <= Buffer.size bytes).
  { pose proof (wrap16_le (Buffer.size bytes)). lia. }
  destruct (first_chunk_relayed 0 s Hh Hlong Hnew)
    as (s' & -> & Hs' & _ & Hrecv').
  unfold result, state_of, events; cbn [fst snd].
  rewrite Hs', Hfresh_session. cbn [app].
  assert (Hadm : ∀ sub sub_id, (sub, sub_id) ∈ enrolled s ->
            sub ≠ transport
            ∧ ¬ in_witness (Buffer.slice bytes 13 L)
                  (key32 (get_remote_static_pk f sub))
            ∧ (sub ∈ sol_conns s ∨ sub ∈ unsol_conns s)).
  { intros sub sub_id Hin.
    destruct (elem_of_enrolled s sub sub_id Hin) as (Hne & Hfound & Hslot).
    split; [done|]. split; [|done].
    rewrite <- found_in_witness_iff by exact Hsize. by rewrite Hfound. }
  split; [exact Hadm|].
  assert (Hrelay : ∀ sub e b,
            sub = transport
            ∨ in_witness (Buffer.slice bytes 13 L)
                (key32 (get_remote_static_pk f sub)) ->
            relays_to sub e -> e ∈ relay_events f (enrolled s) b -> False).
  { intros sub e b Hsub Hrel Hb.
    apply list_elem_of_join in Hb as (l & Hb & Hl).
    apply list_elem_of_fmap in Hl as ([sub' sid'] & -> & Hsub').
    destruct (Hadm sub' sid' Hsub') as (Hne & Hnw & _).
    unfold relay_to in Hb. cbn [fst snd] in Hb.
    assert (e = transport_cut_through_send_bytes sub' sid' b
            ∨ e = transport_close sub') as He'.
    { destruct (bool_decide _); set_solver. }
    destruct Hrel as [[len ->]|(sid & b' & ->)], He' as [He'|He'];
      try discriminate.
    injection He' as -> _ _. destruct Hsub as [->|Hw]; done. }
  split; [|intros _ later sub e Hsub He Hrel].
  2:{ destruct (cut_through_recv_bytes_relay f transport id 1 later s' Hrecv')
        as (s'' & Hrun & _).
      unfold cut_through_recv_bytes in He. rewrite Hrun in He.
      unfold events in He; cbn [snd] in He. rewrite Hs', Hfresh_session in He.
      by apply (Hrelay sub e later). }
  intros sub e Hsub He Hrel.
  rewrite !elem_of_app in He. destruct He as [He|[He|He]].
  - apply list_elem_of_join in He as (l & He & Hl).
    apply list_elem_of_fmap in Hl as (sub' & -> & Hsub').
    unfold start_call in He.
    case_bool_decide as Hne; [set_solver|].
    destruct (found_in_witness f bytes L sub') eqn:Hfound; [set_solver|].
    apply list_elem_of_singleton in He. subst e.
    destruct Hrel as [[len Hrel]|(sid & b' & Hrel)]; [|discriminate].
    injection Hrel as -> _. destruct Hsub as [->|Hw]; [done|].
    apply found_in_witness_iff in Hw; [|exact Hsize]. congruence.
  - by apply (Hrelay sub e _ Hsub Hrel) in He.
  - by apply (Hrelay sub e _ Hsub Hrel) in He.
Qed.

(** C4.  On the first chunk of a session, when the chunk holds the
    13 + [L] header bytes, the id is new and [L] + 32 fits the 2-byte
    field: the chunk is prefix, length field [L], witness [W], rest;
    once the subscribers have been started, every subscriber of the
    session is fed the header with the length field rewritten to
    [L] + 32 and this node's 32-byte key placed behind [W], and then
    the rest of the chunk unchanged (a subscriber whose
    [cut_through_send_bytes] fails is closed); the call returns 0. *)
Theorem cut_through_header_rewritten (s : Node) :
  header_received s k = false ->
  ¬ wrap16 (Buffer.size bytes) < 13 + L ->
  x ∉ message_id_set s ->
  L + 32 < 2 ^ 16 ->
  let r := cut_through_recv_bytes f transport id bytes s in
  let W := Buffer.slice bytes 13 L in
  let rest := drop (N.to_nat (13 + L)) bytes in
  let own := key32 (crypto_scalarmult_base f (keys s)) in
  let forwarded := take 11 bytes ++ Buffer.encode_be 2 (L + 32) ++ W ++ own in
  let subs := session (state_of r) k in
  result r = Some 0%Z
  ∧ bytes = take 11 bytes ++ Buffer.encode_be 2 L ++ W ++ rest
  ∧ subs = session s k ++ enrolled s
  ∧ events r
    = mjoin (start_call f transport bytes L (declared_length s k) <$> peers s)
      ++ relay_events f subs forwarded
      ++ relay_events f subs rest.
Proof.
  intros Hh Hlong Hnew Hfit r W rest own forwarded subs.
  assert (Hsize : 13 + L <= Buffer.size bytes).
  { pose proof (wrap16_le (Buffer.size bytes)). lia. }
  subst subs r. unfold cut_through_recv_bytes.
  destruct (first_chunk_relayed 0 s Hh Hlong Hnew) as (s' & -> & Hs' & _).
  unfold result, state_of, events; cbn [fst snd]. rewrite Hs'.
  split; [reflexivity|]. split; [by apply chunk_layout|].
  split; [reflexivity|].
  unfold new_header. rewrite (relayed_header bytes L) by done.
  unfold Buffer.cover. rewrite decide_True by exact Hsize. reflexivity.
Qed.

End FirstChunk.

(** * A concrete network *)

(** Three peers around a node with one solicited and one unsolicited
    slot.  Transport [t] leads to address [100 + t], except transport 3,
    which is a second connection from the peer at address 101. *)
Module Scenario.

Definition transports : TransportLayer := {|
  dst_addr := fun t => if decide (t = 3) then 101 else 100 + t;
  get_remote_static_pk := fun t => replicate 32 (byte_of_N t);
  is_active := fun _ => true;
  cut_through_used_ids := fun _ => [];
  get_transport := fun a => if decide (100 < a) then Some (a - 100) else None;
  cut_through_send := fun _ _ => 0%Z;
  cut_through_send_start := fun t _ => t + 1;
  cut_through_send_bytes := fun _ _ _ => 0%Z;
  factory_dial_result := fun _ _ => 0%Z;
  crypto_scalarmult_base := fun sk => sk
|}.

(** A delegate with one channel that leaves the slot sets alone. *)
Definition delegate : PubSubDelegate := {|
  channels := [7];
  manage_subscriptions := fun _ sol standby => (sol, standby)
|}.

(** An attester without header that accepts non-empty payloads. *)
Definition nonempty_attester : Attester := {|
  attester_attestation_size := fun _ _ _ _ _ => 0;
  attester_attest := fun _ _ _ _ _ m _ => m;
  attester_parse_size := fun _ _ => 0;
  attester_verify := fun _ _ _ size _ => bool_decide (0 < size)
|}.

Definition node0 : Node := PubSubNode 1 1 (replicate 32 x09).

Definition after {A} (m : M A) (s : Node) : Node := state_of (m s).

(** Transport 2 was dialled and fills the solicited set. *)
Definition node_full : Node := after (did_dial delegate 2) node0.

(** ... and transport 1 subscribed to us and is unsolicited. *)
Definition node_full_unsol : Node :=
  after (did_recv_SUBSCRIBE transports delegate true 1 []) node_full.

(** Transport 1 was solicited and closed; then transport 2 was dialled. *)
Definition node_blacklist : Node :=
  after (did_dial delegate 2)
    (after (did_close transports delegate 1)
       (after (did_dial delegate 1) node0)).

(** MESSAGE frames (type byte already hidden): id 7, channel 1. *)
Definition frame_hi : Buffer.t :=
  [x00; x00; x00; x00; x00; x00; x00; x07; x00; x01; x68; x69].
Definition frame_empty : Buffer.t :=
  [x00; x00; x00; x00; x00; x00; x00; x07; x00; x01].

End Scenario.

(** * The properties on the concrete network *)

Ltac by_computation :=
  match goal with
  | |- ?P => apply (bool_decide_unpack P); vm_compute; exact I
  end.

Section OnTheNetwork.

Import Scenario.

Local Abbreviation on_MESSAGEs :=
  (did_recv_MESSAGEs (attester := nonempty_attester)
     (witnesser := EmptyWitnesser) transports true).


Lemma did_recv_MESSAGE_attestation_failure_witness :
  (MESSAGE_id frame_empty ∉ message_id_set node0)
  ∧ MESSAGE_verified (attester := nonempty_attester)
      (witnesser := EmptyWitnesser) frame_empty = false
  ∧ did_recv_MESSAGE (attester := nonempty_attester)
      (witnesser := EmptyWitnesser) transports true 1 frame_empty node0
    = ((-1)%Z, node0, [transport_close 1]).
Proof.
  assert (H1 : MESSAGE_id frame_empty ∉ message_id_set node0)
    by by_computation.
  assert (H2 : MESSAGE_verified (attester := nonempty_attester)
                 (witnesser := EmptyWitnesser) frame_empty = false)
    by reflexivity.
  split; [exact H1|]. split; [exact H2|].
  destruct (did_recv_MESSAGE_attestation_failure
              (attester := nonempty_attester) (witnesser := EmptyWitnesser)
              transports true 1 frame_empty node0 H1 H2)
    as (Hr & He & _ & Hs & _).
  destruct (did_recv_MESSAGE _ _ _ _ _) as [[r s] e].
  unfold result, events, state_of in *. cbn [fst snd] in *.
  by rewrite Hr, He, Hs.
Defined.

(** Publishing "hi" on channel 1, the peer at address 102 excluded. *)
Lemma send_message_on_channel_recipients_witness :
  one_slot node_full_unsol
  ∧ (let r := send_message_on_channel (attester := EmptyAttester)
                (witnesser := EmptyWitnesser) transports 1 7
                [x68; x69] 2 (Some 102) empty_header node_full_unsol in
     ∀ t, recipient transports (Some 102) node_full_unsol t
          ↔ delivery (attester := EmptyAttester) (witnesser := EmptyWitnesser)
              1 7 [x68; x69] 2 empty_header t ∈ events r).
Proof.
  assert (H1 : one_slot node_full_unsol).
  { unfold one_slot. repeat split; by_computation. }
  split; [exact H1|].
  exact (proj1 (proj2 (send_message_on_channel_recipients
                         (attester := EmptyAttester)
                         (witnesser := EmptyWitnesser)
                         transports 1 7 [x68; x69] 2 (Some 102)
                         empty_header node_full_unsol H1))).
Defined.

Lemma did_recv_SUBSCRIBE_unsolicited_witness :
  (dst_addr transports 1 ∉ blacklist_addr node_full)
  ∧ did_recv_SUBSCRIBE transports delegate true 1 [] node_full
    = (0%Z, node_full_unsol, [RESPONSE 1 "SUBSCRIBED"]).
Proof.
  assert (H1 : dst_addr transports 1 ∉ blacklist_addr node_full)
    by by_computation.
  split; [exact H1|].
  rewrite (did_recv_SUBSCRIBE_unsolicited transports delegate 1 [] node_full H1).
  vm_compute. reflexivity.
Defined.

(** C6 as stated fails: transport 2 already sits in the solicited set
    and is not blacklisted; its SUBSCRIBE is answered with 0 and the
    transport is not closed. *)
Lemma did_recv_SUBSCRIBE_present_not_closed :
  (dst_addr transports 2 ∉ blacklist_addr node_full)
  ∧ 2 ∈ sol_conns node_full
  ∧ did_recv_SUBSCRIBE transports delegate true 2 [] node_full
    = (0%Z, node_full, []).
Proof.
  split; [by_computation|]. split; [by_computation|].
  vm_compute. reflexivity.
Qed.

Lemma did_recv_SUBSCRIBE_from_blacklisted_witness :
  dst_addr transports 3 ∈ blacklist_addr node_blacklist
  ∧ (let r := did_recv_SUBSCRIBE transports delegate true 3 [] node_blacklist in
     result r = 0%Z
     ∧ blacklist_addr (state_of r)
       = blacklist_addr node_blacklist ∖ {[dst_addr transports 3]}).
Proof.
  assert (H1 : dst_addr transports 3 ∈ blacklist_addr node_blacklist)
    by by_computation.
  split; [exact H1|].
  destruct (did_recv_SUBSCRIBE_from_blacklisted transports delegate 3 []
              node_blacklist H1) as (Hr & Hb & _).
  split; [exact Hr|exact Hb].
Defined.

(** C7 as stated fails: address 101 is blacklisted and the solicited
    set is at capacity; after the SUBSCRIBE the sender's transport is
    not in the solicited set (it is on standby). *)
Lemma did_recv_SUBSCRIBE_blacklisted_full_not_solicited :
  dst_addr transports 3 ∈ blacklist_addr node_blacklist
  ∧ (max_sol_conns node_blacklist ≤ size (sol_conns node_blacklist))%nat
  ∧ (let r := did_recv_SUBSCRIBE transports delegate true 3 [] node_blacklist in
     (3 ∉ sol_conns (state_of r)) ∧ 3 ∈ sol_standby_conns (state_of r)).
Proof.
  split; [by_computation|]. split; [by_computation|].
  split; by_computation.
Qed.

Lemma slot_caps_preserved_witness :
  respects_cap delegate
  ∧ caps_ok node0
  ∧ caps_ok (state_of (for_each
      [call_add_sol_conn 2; call_did_recv_SUBSCRIBE 1 [];
       call_add_sol_conn 1; call_add_unsol_conn 3; call_did_close 2;
       call_add_sol_standby_conn 3; call_remove_conn ref_unsol_conns 1]
      (slot_call transports delegate true) node0)).
Proof.
  assert (H1 : respects_cap delegate) by (intros cap sol standby H; exact H).
  assert (H2 : caps_ok node0) by (split; by_computation).
  split; [exact H1|]. split; [exact H2|].
  exact (proj1 (slot_caps_preserved transports delegate true _ node0 H1 H2)).
Defined.

(** C5 as stated fails in its last clause: the solicited set is at
    capacity and transport 1 is unsolicited; [add_sol_conn] does not
    put it on standby. *)
Lemma add_sol_conn_full_not_on_standby :
  (max_sol_conns node_full_unsol ≤ size (sol_conns node_full_unsol))%nat
  ∧ (1 ∉ sol_standby_conns (state_of (add_sol_conn delegate 1 node_full_unsol)))
  ∧ add_sol_conn delegate 1 node_full_unsol = (false, node_full_unsol, []).
Proof.
  split; [by_computation|]. split; [by_computation|].
  vm_compute. reflexivity.
Qed.

Lemma subscribe_idempotent_witness :
  subscribe transports delegate 101 [] node_blacklist
    = (tt, node_blacklist, [])
  ∧ (let s1 := state_of (subscribe transports delegate 102 [] node0) in
     subscribe transports delegate 102 [] s1 = (tt, s1, []))
  ∧ subscribe transports delegate 102 [] node_full_unsol
    = (tt, node_full_unsol, []).
Proof.
  split; [|split].
  - apply (proj1 (subscribe_idempotent transports delegate 101 [] 1
                    node_blacklist)).
    by_computation.
  - apply (proj1 (proj2 (subscribe_idempotent transports delegate 102 [] 2
                           node0))).
    + reflexivity.
    + reflexivity.
    + by_computation.
  - apply (proj2 (proj2 (subscribe_idempotent transports delegate 102 [] 2
                           node_full_unsol))).
    + reflexivity.
    + reflexivity.
    + unfold one_slot. repeat split; by_computation.
    + by_computation.
Defined.

(** C10.  The address overload of [add_sol_conn] answers false when
    the transport lookup fails; when the lookup succeeds it runs the
    transport overload and then reaches the end of the function
    without a return value. *)
Theorem add_sol_conn_addr_falls_through :
  get_transport transports 50 = None
  ∧ result (add_sol_conn_addr transports delegate 50 node0) = Some false
  ∧ get_transport transports 102 = Some 2
  ∧ result (add_sol_conn_addr transports delegate 102 node0) = None.
Proof. repeat split. Qed.

(** *** Cut-through sessions *)

(** A first chunk: type 3, id 42, channel 1, length field, witness,
    payload. *)
Definition chunk (wl W payload : list byte) : Buffer.t :=
  [x03] ++ [x00; x00; x00; x00; x00; x00; x00; x2a] ++ [x00; x01]
  ++ wl ++ W ++ payload.

(** The witness already holds the key of peer 2. *)
Definition chunk_looped : Buffer.t :=
  chunk [x00; x20] (replicate 32 x02) [x68; x69].
Definition chunk_fresh : Buffer.t :=
  chunk [x00; x20] (replicate 32 x05) [x68; x69].
(** A witness of 65504 bytes. *)
Definition chunk_long : Buffer.t :=
  chunk [xff; xe0] (replicate (N.to_nat 65504) x05) [].

(** Transport 1 opens cut-through stream 5 towards the node. *)
Definition node_session : Node :=
  after (cut_through_recv_start 1 5 70000) node_full_unsol.

Lemma cut_through_loop_avoidance_witness :
  header_received node_session (1, 5) = false
  ∧ session node_session (1, 5) = []
  ∧ in_witness (Buffer.slice chunk_looped 13 32)
      (key32 (get_remote_static_pk transports 2))
  ∧ (∀ e, e ∈ events (cut_through_recv_bytes transports 1 5 chunk_looped
                         node_session) -> ¬ relays_to 2 e).
Proof.
  assert (H1 : header_received node_session (1, 5) = false) by reflexivity.
  assert (H2 : session node_session (1, 5) = []) by reflexivity.
  assert (H3 : in_witness (Buffer.slice chunk_looped 13 32)
                 (key32 (get_remote_static_pk transports 2))).
  { exists 0%nat. split; [by_computation|reflexivity]. }
  split; [exact H1|]. split; [exact H2|]. split; [exact H3|].
  intros e. apply (proj1 (proj2 (cut_through_loop_avoidance transports 1 5
                                   chunk_looped node_session H1 H2))).
  right. exact H3.
Defined.

Lemma cut_through_header_rewritten_witness :
  header_received node_session (1, 5) = false
  ∧ ¬ wrap16 (Buffer.size chunk_fresh) < 13 + Buffer.read_uint16_be chunk_fresh 11
  ∧ (Buffer.read_uint64_be chunk_fresh 1 ∉ message_id_set node_session)
  ∧ Buffer.read_uint16_be chunk_fresh 11 + 32 < 2 ^ 16
  ∧ result (cut_through_recv_bytes transports 1 5 chunk_fresh node_session)
    = Some 0%Z.
Proof.
  assert (H1 : header_received node_session (1, 5) = false) by reflexivity.
  assert (H2 : ¬ wrap16 (Buffer.size chunk_fresh)
                 < 13 + Buffer.read_uint16_be chunk_fresh 11)
    by by_computation.
  assert (H3 : Buffer.read_uint64_be chunk_fresh 1 ∉ message_id_set node_session)
    by by_computation.
  assert (H4 : Buffer.read_uint16_be chunk_fresh 11 + 32 < 2 ^ 16)
    by by_computation.
  split; [exact H1|]. split; [exact H2|]. split; [exact H3|].
  split; [exact H4|].
  exact (proj1 (cut_through_header_rewritten transports 1 5 chunk_fresh
                  node_session H1 H2 H3 H4)).
Defined.

(** The length field of a header or chunk handed to a subscriber. *)
Definition sent_length_field (e : Event) : option (TransportId * N * N) :=
  match e with
  | transport_cut_through_send_bytes t sub_id b =>
      Some (t, sub_id, Buffer.read_uint16_be b 11)
  | _ => None
  end.

(** C4 as stated fails for long witnesses: the first chunk is new,
    holds its 13 + 65504 header bytes and passes the length check;
    the header handed to subscriber 2 carries 0 in its length field,
    not 65504 + 32. *)
Lemma cut_through_length_field_wraps :
  let r := cut_through_recv_bytes transports 1 5 chunk_long node_session in
  header_received node_session (1, 5) = false
  ∧ Buffer.read_uint16_be chunk_long 11 = 65504
  ∧ Buffer.size chunk_long = 13 + 65504
  ∧ ¬ wrap16 (Buffer.size chunk_long) < 13 + Buffer.read_uint16_be chunk_long 11
  ∧ (Buffer.read_uint64_be chunk_long 1 ∉ message_id_set node_session)
  ∧ session (state_of r) (1, 5) = [(2, 3)]
  ∧ sent_length_field <$> events r = [None; Some (2, 3, 0); Some (2, 3, 0)]
  ∧ 0 ≠ 65504 + 32.
Proof.
  cbv zeta. split; [reflexivity|].
  split; [by vm_compute|]. split; [by vm_compute|].
  split; [by_computation|]. split; [by_computation|].
  split; [by vm_compute|]. split; [by vm_compute|]. done.
Qed.

(** The node after stream 5 of transport 1 has been relayed. *)
Definition node_relayed : Node :=
  after (cut_through_recv_bytes transports 1 5 chunk_fresh) node_session.

(** The MESSAGE of [chunk_fresh] (id 42) as an ordinary frame. *)
Definition frame_42 : Buffer.t :=
  [x00; x00; x00; x00; x00; x00; x00; x2a; x00; x01; x68; x69].


End OnTheNetwork.

(** * Further properties of the node *)

(** ** The dedup ring *)

(** The state change of [message_id_timer_cb]: advance the 8-bit index,
    forget the ids of the bucket it now points at, empty that bucket. *)
Definition dedup_tick (s : Node) : Node :=
  let idx := wrap8 (message_id_idx s + 1) in
  let bucket := default [] (message_id_events s !! N.to_nat idx) in
  set_message_ids
    (<[N.to_nat idx := []]> (message_id_events s))
    idx
    (message_id_set s ∖ list_to_set bucket) s.

Definition HEARTBEAT (transport : TransportId) : Event :=
  transport_send transport (Buffer.init [x04] 1).

Lemma message_id_timer_cb_eq s :
  message_id_timer_cb s
  = (tt, dedup_tick s,
     HEARTBEAT <$> elements (sol_conns s) ++ elements (sol_standby_conns s)).
Proof.
  unfold message_id_timer_cb. unfold bind at 1, modify at 1.
  fold (dedup_tick s). unfold bind at 1, gets at 1. unfold bind at 1.
  rewrite (for_each_pure _ _ (λ t, [HEARTBEAT t])) by reflexivity.
  unfold bind, gets.
  rewrite (for_each_pure _ _ (λ t, [HEARTBEAT t])) by reflexivity.
  cbn [app]. f_equal. change (sol_conns (dedup_tick s)) with (sol_conns s).
  change (sol_standby_conns (dedup_tick s)) with (sol_standby_conns s).
  rewrite fmap_app.
  assert (H : ∀ l : list TransportId,
            mjoin ((λ t, [HEARTBEAT t]) <$> l) = HEARTBEAT <$> l).
  { induction l as [|t l IH]; [reflexivity|]. cbn. by rewrite <- IH. }
  by rewrite !H.
Qed.

(** The ring is well formed: 256 buckets, an index inside them, no id
    stored twice, and the seen set holds exactly the stored ids. *)
Definition ring_ok (s : Node) : Prop :=
  length (message_id_events s) = 256%nat
  ∧ message_id_idx s < 256
  ∧ NoDup (mjoin (message_id_events s))
  ∧ ∀ x, x ∈ message_id_set s ↔ x ∈ mjoin (message_id_events s).

Lemma join_alter_snoc {A} (x : A) (l : list (list A)) (i : nat) :
  (i < length l)%nat ->
  mjoin (alter (λ b, b ++ [x]) i l) ≡ₚ x :: mjoin l.
Proof.
  revert i. induction l as [|b l IH]; intros i Hi; cbn in Hi; [lia|].
  destruct i as [|i]; cbn.
  - rewrite <- app_assoc. cbn. by rewrite <- Permutation_middle.
  - rewrite IH by lia. by rewrite <- Permutation_middle.
Qed.

Lemma join_clear_bucket {A} (l : list (list A)) (i : nat) (b : list A) :
  l !! i = Some b ->
  mjoin l ≡ₚ b ++ mjoin (<[i := []]> l).
Proof.
  revert i. induction l as [|b0 l IH]; intros i Hi; [done|].
  destruct i as [|i]; cbn in *.
  - by injection Hi as ->.
  - rewrite (IH i Hi). rewrite !app_assoc.
    apply Permutation_app_tail, Permutation_app_comm.
Qed.

Lemma ring_ok_PubSubNode max_sol max_unsol keys :
  ring_ok (PubSubNode max_sol max_unsol keys).
Proof.
  unfold ring_ok; cbn -[replicate]. rewrite length_replicate.
  assert (Hnil : mjoin (replicate 256 (@nil N)) = []).
  { apply join_nil_2, Forall_replicate. done. }
  rewrite Hnil. repeat split; try done; try lia; try constructor; set_solver.
Qed.

Lemma ring_ok_record x s :
  ring_ok s -> x ∉ message_id_set s -> ring_ok (record_message_id x s).
Proof.
  intros (Hlen & Hidx & Hnd & Hset) Hx. unfold ring_ok; cbn.
  assert (Hperm : mjoin (alter (λ b, b ++ [x]) (N.to_nat (message_id_idx s))
                           (message_id_events s))
                  ≡ₚ x :: mjoin (message_id_events s)).
  { apply join_alter_snoc. lia. }
  rewrite length_alter. split; [done|]. split; [done|]. split.
  - rewrite Hperm. constructor; [|done]. by rewrite <- Hset.
  - intros y. rewrite Hperm, elem_of_cons, elem_of_union, elem_of_singleton.
    by rewrite Hset.
Qed.

Lemma wrap8_lt n : wrap8 n < 256.
Proof. unfold wrap8. apply N.mod_lt. done. Qed.

Lemma ring_ok_tick s : ring_ok s -> ring_ok (dedup_tick s).
Proof.
  intros (Hlen & Hidx & Hnd & Hset). unfold ring_ok, dedup_tick; cbn.
  set (i := N.to_nat (wrap8 (message_id_idx s + 1))).
  pose proof (wrap8_lt (message_id_idx s + 1)) as Hi.
  destruct (lookup_lt_is_Some_2 (message_id_events s) i) as [b Hb];
    [subst i; lia|].
  rewrite Hb. cbn [default].
  pose proof (join_clear_bucket _ _ _ Hb) as Hperm.
  rewrite Hperm in Hnd. apply NoDup_app in Hnd as (Hb1 & Hb2 & Hb3).
  rewrite length_insert. repeat split; try done.
  - intros Hy. apply elem_of_difference in Hy as [Hy Hnb].
    apply Hset in Hy. rewrite Hperm in Hy. apply elem_of_app in Hy as [Hy|Hy];
      [|done]. exfalso. apply Hnb. by apply elem_of_list_to_set.
  - intros Hy. apply elem_of_difference. split.
    + apply Hset. rewrite Hperm. apply elem_of_app. by right.
    + rewrite elem_of_list_to_set. intros Hyb. by apply (Hb2 x).
Qed.

(** What the dedup ring sees: timer ticks and MESSAGE deliveries. *)
Inductive DedupCall : Type :=
| timer_tick
| deliver (t : TransportId) (bytes : Buffer.t).

Fixpoint ticks (calls : list DedupCall) : nat :=
  match calls with
  | [] => 0
  | timer_tick :: calls' => S (ticks calls')
  | deliver _ _ :: calls' => ticks calls'
  end.

Section DedupWindow.

Context {attester : Attester} {witnesser : Witnesser}.
Variable f : TransportLayer.
Variable enable_relay : bool.

Definition dedup_call (c : DedupCall) : M unit :=
  match c with
  | timer_tick => message_id_timer_cb
  | deliver t bytes => did_recv_MESSAGE f enable_relay t bytes ;;; ret tt
  end.

Lemma did_recv_MESSAGE_state t bytes s :
  let s' := state_of (did_recv_MESSAGE f enable_relay t bytes s) in
  s' = s
  ∨ (MESSAGE_id bytes ∉ message_id_set s)
    ∧ s' = record_message_id (MESSAGE_id bytes) s.
Proof.
  cbv zeta. destruct (decide (MESSAGE_id bytes ∈ message_id_set s)) as [Hin|Hin].
  { left. by rewrite did_recv_MESSAGE_duplicate. }
  destruct (MESSAGE_verified bytes) eqn:Hv.
  - right. split; [done|]. by rewrite did_recv_MESSAGE_accepted.
  - left. by rewrite did_recv_MESSAGE_rejected.
Qed.

Lemma dedup_call_state c s :
  let s' := state_of (dedup_call c s) in
  match c with
  | timer_tick => s' = dedup_tick s
  | deliver t bytes =>
      s' = s ∨ (MESSAGE_id bytes ∉ message_id_set s)
               ∧ s' = record_message_id (MESSAGE_id bytes) s
  end.
Proof.
  destruct c as [|t bytes]; cbn [dedup_call].
  - by rewrite message_id_timer_cb_eq.
  - pose proof (did_recv_MESSAGE_state t bytes s) as H. cbv zeta in *.
    unfold bind, state_of in *.
    by destruct (did_recv_MESSAGE f enable_relay t bytes s) as [[r s1] e1].
Qed.

Lemma ring_ok_dedup_call c : preserves ring_ok (dedup_call c).
Proof.
  intros s Hs. pose proof (dedup_call_state c s) as H. cbv zeta in H.
  destruct c as [|t bytes].
  - rewrite H. by apply ring_ok_tick.
  - destruct H as [->|[Hx ->]]; [done|]. by apply ring_ok_record.
Qed.

(** X1.  From the constructor on, whatever MESSAGEs are delivered and
    however often the timer fires, the dedup ring keeps 256 buckets, its
    index stays below 256, no id is stored twice, and the seen set holds
    exactly the ids stored in the buckets: every seen id is scheduled
    for expiry. *)
Theorem dedup_ring_well_formed
    (calls : list DedupCall) (max_sol max_unsol : nat) (keys : list byte) :
  ring_ok (state_of (for_each calls dedup_call
                       (PubSubNode max_sol max_unsol keys))).
Proof.
  apply preserves_for_each; [apply ring_ok_dedup_call|].
  apply ring_ok_PubSubNode.
Qed.

(** [x] sits in bucket [j], [k] ticks after it was stored there. *)
Definition tracked (x j : N) (k : nat) (s : Node) : Prop :=
  ring_ok s
  ∧ message_id_idx s = (j + N.of_nat k) mod 256
  ∧ ∃ b, message_id_events s !! N.to_nat j = Some b ∧ x ∈ b.

Lemma tracked_seen x j k s : tracked x j k s -> x ∈ message_id_set s.
Proof.
  intros ((_ & _ & _ & Hset) & _ & b & Hb & Hx). apply Hset.
  apply list_elem_of_join. exists b. split; [done|].
  by apply list_elem_of_lookup_2 in Hb.
Qed.

Lemma tracked_record x y j k s :
  y ∉ message_id_set s -> tracked x j k s -> tracked x j k (record_message_id y s).
Proof.
  intros Hy (Hok & Hidx & b & Hb & Hx). split; [by apply ring_ok_record|].
  split; [done|]. cbn.
  destruct (decide (N.to_nat (message_id_idx s) = N.to_nat j)) as [->|Hne].
  - exists (b ++ [y]). rewrite list_lookup_alter_eq, Hb. split; [reflexivity|].
    apply elem_of_app. by left.
  - exists b. split; [by rewrite list_lookup_alter_ne|done].
Qed.

Lemma tracked_tick x j k s :
  j < 256 -> (k < 255)%nat ->
  tracked x j k s -> tracked x j (S k) (dedup_tick s).
Proof.
  intros Hj Hk (Hok & Hidx & b & Hb & Hx). split; [by apply ring_ok_tick|].
  assert (Hnext : wrap8 (message_id_idx s + 1) = (j + N.of_nat (S k)) mod 256).
  { unfold wrap8. rewrite Hidx. change (2 ^ 8) with 256.
    rewrite N.Div0.add_mod_idemp_l. f_equal. lia. }
  split; [exact Hnext|]. exists b. split; [|done].
  cbn. rewrite Hnext. rewrite list_lookup_insert_ne; [done|].
  intros Heq. apply N2Nat.inj in Heq.
  assert (Hk' : 1 <= N.of_nat (S k) <= 255) by lia.
  revert Heq Hk'. generalize (N.of_nat (S k)). intros d Heq Hd.
  destruct (decide (j + d < 256)) as [Hlt|Hge].
  - rewrite N.mod_small in Heq by lia. lia.
  - assert (Hmod : (j + d) mod 256 = j + d - 256).
    { symmetry. apply (N.mod_unique _ _ 1); lia. }
    lia.
Qed.

Lemma tracked_expires x j s :
  j < 256 -> tracked x j 255 s -> x ∉ message_id_set (dedup_tick s).
Proof.
  intros Hj (Hok & Hidx & b & Hb & Hx).
  assert (Hnext : wrap8 (message_id_idx s + 1) = j).
  { unfold wrap8. rewrite Hidx. change (2 ^ 8) with 256.
    rewrite N.Div0.add_mod_idemp_l.
    replace (j + N.of_nat 255 + 1) with (j + 1 * 256) by lia.
    rewrite N.Div0.mod_add. by apply N.mod_small. }
  cbn. rewrite Hnext, Hb. cbn [default].
  rewrite elem_of_difference, elem_of_list_to_set. tauto.
Qed.

Lemma tracked_calls x j calls k s :
  j < 256 -> (k + ticks calls ≤ 255)%nat ->
  tracked x j k s ->
  tracked x j (k + ticks calls) (state_of (for_each calls dedup_call s)).
Proof.
  intros Hj. revert k s. induction calls as [|c calls IH]; intros k s Hk Ht.
  - cbn. by rewrite Nat.add_0_r.
  - cbn [for_each]. unfold bind, state_of.
    pose proof (dedup_call_state c s) as Hc. cbv zeta in Hc.
    unfold state_of in Hc.
    destruct (dedup_call c s) as [[r s1] e1]. cbn [fst snd] in Hc.
    specialize (IH (match c with timer_tick => S k | _ => k end) s1).
    unfold state_of in IH.
    destruct (for_each calls dedup_call s1) as [[r2 s2] e2]. cbn [fst snd] in *.
    destruct c as [|t bytes]; cbn [ticks] in *.
    + replace (k + S (ticks calls))%nat with (S k + ticks calls)%nat by lia.
      apply IH; [lia|]. subst s1. apply tracked_tick; [done|lia|done].
    + apply IH; [lia|]. destruct Hc as [->|[Hy ->]]; [done|].
      by apply tracked_record.
Qed.

(** X2.  An id accepted by [did_recv_MESSAGE] on a well-formed ring
    stays in the seen set through any later deliveries and fewer than
    256 timer ticks; the 256th tick after its acceptance removes it. *)
Theorem dedup_retention_window
    (t : TransportId) (first : Buffer.t) (calls : list DedupCall) (s : Node) :
  ring_ok s ->
  MESSAGE_id first ∉ message_id_set s ->
  MESSAGE_verified first = true ->
  let s1 := state_of (did_recv_MESSAGE f enable_relay t first s) in
  let s2 := state_of (for_each calls dedup_call s1) in
  ((ticks calls < 256)%nat -> MESSAGE_id first ∈ message_id_set s2)
  ∧ (ticks calls = 255%nat ->
     MESSAGE_id first ∉ message_id_set (state_of (message_id_timer_cb s2))).
Proof.
  intros Hok Hx Hv s1 s2.
  assert (Hs1 : s1 = record_message_id (MESSAGE_id first) s).
  { subst s1. by rewrite did_recv_MESSAGE_accepted. }
  destruct Hok as (Hlen & Hidx & Hnd & Hset).
  assert (Ht0 : tracked (MESSAGE_id first) (message_id_idx s) 0 s1).
  { rewrite Hs1. split; [by apply ring_ok_record|]. split.
    - cbn. rewrite N.add_0_r. symmetry. by apply N.mod_small.
    - destruct (lookup_lt_is_Some_2 (message_id_events s)
                  (N.to_nat (message_id_idx s))) as [b Hb]; [lia|].
      exists (b ++ [MESSAGE_id first]). cbn. rewrite list_lookup_alter_eq, Hb.
      split; [reflexivity|]. apply elem_of_app. right. by apply list_elem_of_singleton. }
  split.
  - intros Hk. apply (tracked_seen _ (message_id_idx s) (0 + ticks calls)).
    apply tracked_calls; [done|lia|done].
  - intros Hk. rewrite message_id_timer_cb_eq. unfold state_of; cbn [fst snd].
    apply (tracked_expires _ (message_id_idx s)); [done|].
    pose proof (tracked_calls (MESSAGE_id first) (message_id_idx s) calls
                  0%nat s1 Hidx) as H. rewrite Hk in H.
    apply H; [lia|done].
Qed.

End DedupWindow.

(** ** Closing a transport *)

Lemma state_of_bind {A B} (m : M A) (k : A -> M B) (s : Node) :
  state_of (bind m k s) = state_of (k (result (m s)) (state_of (m s))).
Proof.
  unfold bind, state_of, result. destruct (m s) as [[a s1] e1]. cbn.
  by destruct (k a s1) as [[b s2] e2].
Qed.

Lemma state_of_bind_eq {A B} (m : M A) (k : A -> M B) s a s1 e1 :
  m s = (a, s1, e1) -> state_of (bind m k s) = state_of (k a s1).
Proof.
  intros H. unfold bind, state_of. rewrite H.
  by destruct (k a s1) as [[b s2] e2].
Qed.

Section Closing.

Variable f : TransportLayer.
Variable delegate : PubSubDelegate.

(** The first loop of [did_close]: flush and erase the sessions fed by
    the transport. *)
Definition did_close_flush (transport : TransportId) : M unit :=
  for_each (cut_through_used_ids f transport) (fun id =>
    let* subscribers := cut_through_map_at (transport, id) in
    for_each subscribers (fun sub =>
      emit (transport_cut_through_send_flush sub.1 sub.2)) ;;;
    modify (fun s =>
      set_cut_through_map (delete (transport, id) (cut_through_map s)) s)).

(** The part of [did_close] behind the three [remove_conn] calls: the
    flush loop, taking the transport off the other sessions, and the
    delegate's re-balancing. *)
Definition did_close_tail (transport : TransportId) : M unit :=
  did_close_flush transport ;;;
  modify (fun s =>
    set_cut_through_map
      (erase_first (fun sub => bool_decide (sub.1 = transport))
         <$> cut_through_map s) s) ;;;
  call_manage_subscriptions delegate.

Lemma did_close_eq transport :
  did_close f delegate transport
  = (let* r1 := remove_conn ref_sol_conns transport in
     let* r2 := (if r1 then ret true
                 else remove_conn ref_sol_standby_conns transport) in
     when r2
       (modify (fun s =>
          set_blacklist_addr ({[dst_addr f transport]} ∪ blacklist_addr s) s)) ;;;
     remove_conn ref_unsol_conns transport ;;;
     did_close_tail transport).
Proof. reflexivity. Qed.

(** Slot sets, blacklist and caps as one value. *)
Definition slots_of (s : Node) :=
  (sol_conns s, sol_standby_conns s, unsol_conns s, blacklist_addr s,
   max_sol_conns s).

Lemma did_close_tail_slots transport s :
  let s' := state_of (did_close_tail transport s) in
  (sol_conns s', sol_standby_conns s')
  = manage_subscriptions delegate (max_sol_conns s) (sol_conns s)
      (sol_standby_conns s)
  ∧ unsol_conns s' = unsol_conns s
  ∧ blacklist_addr s' = blacklist_addr s.
Proof.
  cbv zeta.
  assert (H1 : slots_of (state_of (did_close_flush transport s)) = slots_of s).
  { apply (preserves_for_each (λ s0, slots_of s0 = slots_of s)); [|done].
    intros id. apply preserves_bind.
    - intros s0 Hs0. unfold cut_through_map_at, state_of.
      by destruct (index_default _ _ _).
    - intros subs. apply preserves_bind.
      + apply preserves_for_each. intros sub. apply preserves_emit.
      + intros _. by apply preserves_modify. }
  assert (Hs' : state_of (did_close_tail transport s)
    = let s1 := state_of (did_close_flush transport s) in
      let s2 := set_cut_through_map
                  (erase_first (fun sub => bool_decide (sub.1 = transport))
                     <$> cut_through_map s1) s1 in
      let '(sol, standby) :=
        manage_subscriptions delegate
          (max_sol_conns s2) (sol_conns s2) (sol_standby_conns s2) in
      set_sol_standby_conns standby (set_sol_conns sol s2)).
  { unfold did_close_tail. rewrite state_of_bind.
    unfold modify at 1. rewrite state_of_bind. reflexivity. }
  rewrite Hs'. clear Hs'.
  generalize dependent (state_of (did_close_flush transport s)).
  intros s1 H1. injection H1 as E1 E2 E3 E4 E5. cbv zeta.
  cbn [max_sol_conns sol_conns sol_standby_conns set_cut_through_map].
  rewrite E1, E2, E5.
  destruct (manage_subscriptions delegate _ _ _) as [sol standby]. cbn.
  by rewrite E3, E4.
Qed.

(** The node behind the three [remove_conn] calls of [did_close]. *)
Definition closed_slots (transport : TransportId) (s : Node) : Node :=
  let in_sol := bool_decide (transport ∈ sol_conns s) in
  let in_standby := bool_decide (transport ∈ sol_standby_conns s) in
  let s1 := if in_sol then set_sol_conns (sol_conns s ∖ {[transport]}) s
            else if in_standby
            then set_sol_standby_conns (sol_standby_conns s ∖ {[transport]}) s
            else s in
  let s2 := if in_sol || in_standby
            then set_blacklist_addr
                   ({[dst_addr f transport]} ∪ blacklist_addr s1) s1
            else s1 in
  if bool_decide (transport ∈ unsol_conns s)
  then set_unsol_conns (unsol_conns s2 ∖ {[transport]}) s2
  else s2.

Lemma did_close_state transport s :
  state_of (did_close f delegate transport s)
  = state_of (did_close_tail transport (closed_slots transport s)).
Proof.
  rewrite did_close_eq. unfold closed_slots.
  destruct (bool_decide (transport ∈ sol_conns s)) eqn:Esol;
    [|destruct (bool_decide (transport ∈ sol_standby_conns s)) eqn:Esb];
    cbn [orb].
  - erewrite state_of_bind_eq;
      [|rewrite remove_conn_eq; cbn [slot]; rewrite Esol; reflexivity].
    erewrite state_of_bind_eq; [|reflexivity].
    erewrite state_of_bind_eq; [|reflexivity].
    destruct (bool_decide (transport ∈ unsol_conns s)) eqn:Eun;
      (erewrite state_of_bind_eq;
       [|rewrite remove_conn_eq; cbn [slot]; cbn; rewrite Eun; reflexivity]);
      reflexivity.
  - erewrite state_of_bind_eq;
      [|rewrite remove_conn_eq; cbn [slot]; rewrite Esol; reflexivity].
    erewrite state_of_bind_eq;
      [|rewrite remove_conn_eq; cbn [slot]; rewrite Esb; reflexivity].
    erewrite state_of_bind_eq; [|reflexivity].
    destruct (bool_decide (transport ∈ unsol_conns s)) eqn:Eun;
      (erewrite state_of_bind_eq;
       [|rewrite remove_conn_eq; cbn [slot]; cbn; rewrite Eun; reflexivity]);
      reflexivity.
  - erewrite state_of_bind_eq;
      [|rewrite remove_conn_eq; cbn [slot]; rewrite Esol; reflexivity].
    erewrite state_of_bind_eq;
      [|rewrite remove_conn_eq; cbn [slot]; rewrite Esb; reflexivity].
    erewrite state_of_bind_eq; [|reflexivity].
    destruct (bool_decide (transport ∈ unsol_conns s)) eqn:Eun;
      (erewrite state_of_bind_eq;
       [|rewrite remove_conn_eq; cbn [slot]; rewrite Eun; reflexivity]);
      reflexivity.
Qed.

(** X4.  With one slot per transport and a delegate that only moves
    transports between the two sets it is handed, [did_close] leaves the
    closed transport in none of the three slot sets, and it adds the
    transport's address to the blacklist exactly when the transport was
    solicited or on standby. *)
Theorem did_close_clears_slots (transport : TransportId) (s : Node) :
  keeps_one_slot delegate ->
  one_slot s ->
  let s' := state_of (did_close f delegate transport s) in
  present s' transport = false
  ∧ blacklist_addr s'
    = (if bool_decide (transport ∈ sol_conns s ∨ transport ∈ sol_standby_conns s)
       then {[dst_addr f transport]} ∪ blacklist_addr s
       else blacklist_addr s).
Proof.
  intros Hd (H1 & H2 & H3) s'. subst s'. rewrite did_close_state.
  destruct (did_close_tail_slots transport (closed_slots transport s))
    as (Hm & Hu & Hbl).
  rewrite Hbl.
  set (s0 := closed_slots transport s) in *.
  assert (Hs0 : sol_conns s0 = sol_conns s ∖ {[transport]}
                ∧ sol_standby_conns s0 = sol_standby_conns s ∖ {[transport]}
                ∧ unsol_conns s0 = unsol_conns s ∖ {[transport]}
                ∧ blacklist_addr s0
                  = (if bool_decide (transport ∈ sol_conns s
                                     ∨ transport ∈ sol_standby_conns s)
                     then {[dst_addr f transport]} ∪ blacklist_addr s
                     else blacklist_addr s)).
  { subst s0. unfold closed_slots.
    destruct (bool_decide_reflect (transport ∈ sol_conns s)),
      (bool_decide_reflect (transport ∈ sol_standby_conns s)),
      (bool_decide_reflect (transport ∈ unsol_conns s));
      cbn; repeat split; try case_bool_decide; set_solver. }
  destruct Hs0 as (Ea & Eb & Ec & Ed). split; [|exact Ed].
  specialize (Hd (max_sol_conns s0) (sol_conns s0) (sol_standby_conns s0)).
  cbv zeta in Hd. rewrite <- Hm in Hd. cbn [fst snd] in Hd.
  destruct Hd as [_ Hsub]; [rewrite Ea, Eb; set_solver|].
  apply present_false_iff. rewrite Hu, Ec. rewrite Ea, Eb in Hsub. set_solver.
Qed.

End Closing.

Lemma bind_eq {A B} (m : M A) (k : A -> M B) s a s1 e1 :
  m s = (a, s1, e1) ->
  bind m k s = (let '(b, s2, e2) := k a s1 in (b, s2, e1 ++ e2)).
Proof. intros H. unfold bind. by rewrite H. Qed.

Lemma join_singletons {A B} (g : A -> B) (l : list A) :
  mjoin ((λ x, [g x]) <$> l) = g <$> l.
Proof. induction l as [|x l IH]; [done|]. cbn. f_equal. exact IH. Qed.

Section ClosingSessions.

Variable f : TransportLayer.
Variable delegate : PubSubDelegate.
Variable transport : TransportId.

Definition FLUSH (sub : TransportId * N) : Event :=
  transport_cut_through_send_flush sub.1 sub.2.

(** The session map once the sessions fed by the transport are erased. *)
Definition erase_sessions (ids : list N)
    (m : gmap (TransportId * N) (list (TransportId * N)))
    : gmap (TransportId * N) (list (TransportId * N)) :=
  foldl (λ m id, delete (transport, id) m) m ids.

Lemma lookup_erase_sessions ids m k :
  erase_sessions ids m !! k
  = if bool_decide (k.1 = transport ∧ k.2 ∈ ids) then None else m !! k.
Proof.
  revert m. induction ids as [|id ids IH]; intros m; cbn.
  - rewrite bool_decide_eq_false_2; [done|]. set_solver.
  - unfold erase_sessions in IH. rewrite IH.
    destruct k as [t' id']. cbn.
    destruct (decide (t' = transport ∧ id' ∈ ids)) as [Hin|Hin].
    + rewrite !bool_decide_eq_true_2; [done| |done]. set_solver.
    + rewrite (bool_decide_eq_false_2 _ Hin).
      destruct (decide ((transport, id) = (t', id'))) as [Heq|Hne].
      * injection Heq as <- <-. rewrite lookup_delete_eq.
        rewrite bool_decide_eq_true_2; [done|]. set_solver.
      * rewrite lookup_delete_ne by done.
        rewrite bool_decide_eq_false_2; [done|].
        intros [-> [->|?]%elem_of_cons]; tauto.
Qed.

Lemma did_close_flush_loop (ids : list N) (s : Node) :
  ∃ evs,
    for_each ids (fun id =>
      let* subscribers := cut_through_map_at (transport, id) in
      for_each subscribers (fun sub =>
        emit (transport_cut_through_send_flush sub.1 sub.2)) ;;;
      modify (fun s =>
        set_cut_through_map (delete (transport, id) (cut_through_map s)) s)) s
    = (tt, set_cut_through_map (erase_sessions ids (cut_through_map s)) s, evs)
    ∧ ∀ e, e ∈ evs ↔ ∃ id sub, id ∈ ids ∧ sub ∈ session s (transport, id)
                               ∧ e = FLUSH sub.
Proof.
  revert s. induction ids as [|id ids IH]; intros s.
  - exists []. split.
    + cbn. unfold ret. f_equal. f_equal. by destruct s.
    + intros e. split; [set_solver|]. intros (id & sub & Hid & _). set_solver.
  - cbn [for_each].
    set (s1 := set_cut_through_map (delete (transport, id) (cut_through_map s)) s).
    destruct (IH s1) as (evs & Hrun & Hevs).
    exists ((FLUSH <$> session s (transport, id)) ++ evs). split.
    + rewrite (bind_eq _ _ s tt s1 (FLUSH <$> session s (transport, id))).
      { by rewrite Hrun. }
      erewrite bind_eq; [|apply cut_through_map_at_eq].
      erewrite bind_eq.
      2:{ apply (for_each_pure _ _ (λ sub, [FLUSH sub])). reflexivity. }
      unfold modify. cbn [app]. f_equal; [f_equal|].
      * unfold s1. cbn. by rewrite delete_insert_eq.
      * rewrite app_nil_r. apply join_singletons.
    + intros e. rewrite elem_of_app, Hevs, list_elem_of_fmap.
      assert (Hs1 : ∀ id', session s1 (transport, id')
                = if decide (id' = id) then [] else session s (transport, id')).
      { intros id'. unfold session, s1. cbn.
        destruct (decide (id' = id)) as [->|Hne].
        - by rewrite lookup_delete_eq.
        - rewrite lookup_delete_ne; [done|]. congruence. }
      split.
      * intros [(sub & -> & Hsub)|(id' & sub & Hid' & Hsub & ->)].
        -- exists id, sub. set_solver.
        -- rewrite Hs1 in Hsub. destruct (decide (id' = id)); [set_solver|].
           exists id', sub. set_solver.
      * intros (id' & sub & Hid' & Hsub & ->).
        destruct (decide (id' = id)) as [->|Hne].
        -- left. by exists sub.
        -- right. exists id', sub. rewrite Hs1.
           destruct (decide (id' = id)); [done|]. set_solver.
Qed.

Lemma did_close_run s :
  did_close f delegate transport s
  = (let '(b, s2, e2) :=
       did_close_tail f delegate transport (closed_slots f transport s) in
     (b, s2,
      (if bool_decide (transport ∈ sol_conns s)
       then [RESPONSE transport "UNSUBSCRIBED"] else []) ++ e2)).
Proof.
  rewrite did_close_eq. unfold closed_slots.
  destruct (bool_decide (transport ∈ sol_conns s)) eqn:Esol;
    [|destruct (bool_decide (transport ∈ sol_standby_conns s)) eqn:Esb];
    cbn [orb].
  - erewrite bind_eq;
      [|rewrite remove_conn_eq; cbn [slot]; rewrite Esol; reflexivity].
    erewrite bind_eq; [|reflexivity].
    erewrite bind_eq; [|reflexivity].
    destruct (bool_decide (transport ∈ unsol_conns s)) eqn:Eun;
      (erewrite bind_eq;
       [|rewrite remove_conn_eq; cbn [slot]; cbn; rewrite Eun; reflexivity]);
      by destruct (did_close_tail _ _ _ _) as [[b s2] e2].
  - erewrite bind_eq;
      [|rewrite remove_conn_eq; cbn [slot]; rewrite Esol; reflexivity].
    erewrite bind_eq;
      [|rewrite remove_conn_eq; cbn [slot]; rewrite Esb; reflexivity].
    erewrite bind_eq; [|reflexivity].
    destruct (bool_decide (transport ∈ unsol_conns s)) eqn:Eun;
      (erewrite bind_eq;
       [|rewrite remove_conn_eq; cbn [slot]; cbn; rewrite Eun; reflexivity]);
      by destruct (did_close_tail _ _ _ _) as [[b s2] e2].
  - erewrite bind_eq;
      [|rewrite remove_conn_eq; cbn [slot]; rewrite Esol; reflexivity].
    erewrite bind_eq;
      [|rewrite remove_conn_eq; cbn [slot]; rewrite Esb; reflexivity].
    erewrite bind_eq; [|reflexivity].
    destruct (bool_decide (transport ∈ unsol_conns s)) eqn:Eun;
      (erewrite bind_eq;
       [|rewrite remove_conn_eq; cbn [slot]; rewrite Eun; reflexivity]);
      by destruct (did_close_tail _ _ _ _) as [[b s2] e2].
Qed.

Lemma did_close_tail_run s0 :
  ∃ s' evs,
    did_close_tail f delegate transport s0
    = (tt, s', evs ++ [delegate_manage_subscriptions])
    ∧ cut_through_map s'
      = erase_first (λ sub, bool_decide (sub.1 = transport))
          <$> erase_sessions (cut_through_used_ids f transport)
                (cut_through_map s0)
    ∧ ∀ e, e ∈ evs ↔ ∃ id sub, id ∈ cut_through_used_ids f transport
                               ∧ sub ∈ session s0 (transport, id)
                               ∧ e = FLUSH sub.
Proof.
  destruct (did_close_flush_loop (cut_through_used_ids f transport) s0)
    as (evs & Hloop & Hevs).
  eexists _, evs. split; [|split; [|exact Hevs]].
  - unfold did_close_tail.
    erewrite bind_eq; [|exact Hloop].
    erewrite bind_eq; [|reflexivity].
    unfold call_manage_subscriptions.
    erewrite bind_eq; [|reflexivity]. unfold modify. cbn [app].
    reflexivity.
  - cbn. by destruct (manage_subscriptions delegate _ _ _).
Qed.

(** X5.  [did_close] sends [cut_through_send_flush] to exactly the
    subscribers of the sessions fed by the closed transport (its used
    cut-through ids); afterwards those sessions are gone, and in every
    other session the first entry of the closed transport is taken off
    the subscriber list, the rest kept in order. *)
Theorem did_close_flushes_sessions (s : Node) :
  let r := did_close f delegate transport s in
  let ids := cut_through_used_ids f transport in
  (∀ sub, FLUSH sub ∈ events r
          ↔ ∃ id, id ∈ ids ∧ sub ∈ session s (transport, id))
  ∧ (∀ k, session (state_of r) k
          = if bool_decide (k.1 = transport ∧ k.2 ∈ ids) then []
            else erase_first (λ sub, bool_decide (sub.1 = transport))
                   (session s k)).
Proof.
  cbv zeta. rewrite did_close_run.
  destruct (did_close_tail_run (closed_slots f transport s))
    as (s' & evs & -> & Hmap & Hevs).
  unfold events, state_of; cbn [fst snd].
  assert (Hsame : cut_through_map (closed_slots f transport s)
                  = cut_through_map s).
  { unfold closed_slots.
    repeat match goal with |- context [if ?c then _ else _] => destruct c end;
      reflexivity. }
  assert (Hsess : ∀ k, session (closed_slots f transport s) k = session s k).
  { intros k. unfold session. by rewrite Hsame. }
  split.
  - intros sub. rewrite !elem_of_app, Hevs. split.
    + intros [Hhead|[(id & sub' & Hid & Hsub & Heq)|Hm]].
      * destruct (bool_decide _); [|set_solver].
        apply list_elem_of_singleton in Hhead. discriminate.
      * exists id. rewrite Hsess in Hsub. destruct sub, sub'.
        injection Heq as -> ->. done.
      * apply list_elem_of_singleton in Hm. discriminate.
    + intros (id & Hid & Hsub). right. left. exists id, sub.
      by rewrite Hsess.
  - intros k. unfold session at 1. rewrite Hmap, lookup_fmap.
    rewrite lookup_erase_sessions, Hsame.
    destruct (bool_decide (k.1 = transport ∧ k.2 ∈ cut_through_used_ids f transport));
      [done|].
    unfold session. by destruct (cut_through_map s !! k).
Qed.

End ClosingSessions.

(** ** Slots: heartbeats, blacklist, promotion, round trips *)

(** Frames handed to [transport.send] of transport [t]. *)
Definition sent_to (t : TransportId) (e : Event) : bool :=
  match e with
  | transport_send t' _ => bool_decide (t' = t)
  | _ => false
  end.

Definition frames_to (t : TransportId) (evs : list Event) : nat :=
  length (List.filter (sent_to t) evs).

Lemma frames_to_sends (m : TransportId -> Buffer.t) (t : TransportId)
    (l : list TransportId) :
  NoDup l ->
  frames_to t ((λ t', transport_send t' (m t')) <$> l)
  = if bool_decide (t ∈ l) then 1%nat else 0%nat.
Proof.
  unfold frames_to. induction 1 as [|t' l Ht' Hl IH]; [reflexivity|].
  rewrite fmap_cons. cbn [List.filter sent_to].
  destruct (bool_decide_reflect (t' = t)) as [->|Hne].
  - cbn [length]. rewrite IH.
    rewrite bool_decide_eq_false_2 by exact Ht'.
    rewrite bool_decide_eq_true_2 by set_solver. reflexivity.
  - rewrite IH.
    destruct (bool_decide_reflect (t ∈ l)) as [Hin|Hin].
    + rewrite bool_decide_eq_true_2 by set_solver. reflexivity.
    + rewrite bool_decide_eq_false_2; [reflexivity|].
      rewrite elem_of_cons. intros [->|?]; done.
Qed.

Section SlotLife.

Variable f : TransportLayer.
Variable delegate : PubSubDelegate.

(** X3.  The dedup timer sends exactly one HEARTBEAT frame, the single
    byte 4, per member of the solicited set and then one per member of
    the standby set, and nothing else: its calls are that list of
    sends.  It changes no slot set and no blacklist entry.  With one
    slot per transport every solicited or standby transport is sent
    exactly one frame, and every other transport, the unsolicited ones
    included, is sent none. *)
Theorem message_id_timer_cb_heartbeats (s : Node) :
  let r := message_id_timer_cb s in
  events r
  = (λ t, transport_send t [x04])
    <$> elements (sol_conns s) ++ elements (sol_standby_conns s)
  ∧ sol_conns (state_of r) = sol_conns s
  ∧ sol_standby_conns (state_of r) = sol_standby_conns s
  ∧ unsol_conns (state_of r) = unsol_conns s
  ∧ blacklist_addr (state_of r) = blacklist_addr s
  ∧ (one_slot s ->
     (∀ t, frames_to t (events r)
           = if bool_decide (t ∈ sol_conns s ∨ t ∈ sol_standby_conns s)
             then 1%nat else 0%nat)
     ∧ (∀ t m, t ∈ unsol_conns s -> transport_send t m ∉ events r)).
Proof.
  intros r. subst r. rewrite message_id_timer_cb_eq.
  unfold events, state_of; cbn [fst snd].
  split; [reflexivity|]. do 4 (split; [reflexivity|]).
  intros (H1 & H2 & H3).
  assert (Hnd : NoDup (elements (sol_conns s)
                       ++ elements (sol_standby_conns s))).
  { apply NoDup_app. split; [apply NoDup_elements|].
    split; [|apply NoDup_elements].
    intros t. rewrite !elem_of_elements. set_solver. }
  split.
  - intros t. change HEARTBEAT with (λ t, transport_send t [x04]).
    rewrite frames_to_sends by exact Hnd.
    destruct (bool_decide_reflect
                (t ∈ elements (sol_conns s) ++ elements (sol_standby_conns s)))
      as [Hin|Hin]; rewrite elem_of_app, !elem_of_elements in Hin.
    + by rewrite bool_decide_eq_true_2.
    + by rewrite bool_decide_eq_false_2.
  - intros t m Ht Hin. apply list_elem_of_fmap in Hin as (t' & Heq & Ht').
    injection Heq as -> _.
    rewrite elem_of_app, !elem_of_elements in Ht'. set_solver.
Qed.

Lemma did_close_blacklist transport s :
  blacklist_addr (state_of (did_close f delegate transport s))
  = (if bool_decide (transport ∈ sol_conns s ∨ transport ∈ sol_standby_conns s)
     then {[dst_addr f transport]} ∪ blacklist_addr s
     else blacklist_addr s).
Proof.
  rewrite did_close_state.
  destruct (did_close_tail_slots f delegate transport
              (closed_slots f transport s)) as (_ & _ & ->).
  unfold closed_slots.
  destruct (bool_decide_reflect (transport ∈ sol_conns s)),
    (bool_decide_reflect (transport ∈ sol_standby_conns s)),
    (bool_decide_reflect (transport ∈ unsol_conns s));
    cbn; try rewrite bool_decide_eq_true_2 by tauto;
    try rewrite bool_decide_eq_false_2 by tauto; reflexivity.
Qed.

(** X6.  The blacklist cycle: once a solicited or standby transport has
    been closed, [subscribe] to its address changes nothing and dials
    nothing; [blacklist_timer_cb] empties the blacklist, and [subscribe]
    to that address then dials again when the factory knows no
    transport for it. *)
Theorem blacklist_cycle
    (transport : TransportId) (remote_static_pk : list byte) (s : Node) :
  transport ∈ sol_conns s ∨ transport ∈ sol_standby_conns s ->
  let addr := dst_addr f transport in
  let s1 := state_of (did_close f delegate transport s) in
  let s2 := state_of (blacklist_timer_cb s1) in
  subscribe f delegate addr remote_static_pk s1 = (tt, s1, [])
  ∧ blacklist_addr s2 = ∅
  ∧ (get_transport f addr = None ->
     subscribe f delegate addr remote_static_pk s2
     = (tt, s2, [factory_dial addr remote_static_pk])).
Proof.
  intros Hin addr s1 s2.
  assert (Hbl : addr ∈ blacklist_addr s1).
  { subst s1. rewrite did_close_blacklist.
    rewrite bool_decide_eq_true_2 by exact Hin. set_solver. }
  split; [|split].
  - unfold subscribe. unfold bind at 1, gets at 1.
    by rewrite bool_decide_eq_true_2.
  - reflexivity.
  - intros Hnone. unfold subscribe. unfold bind at 1, gets at 1.
    rewrite bool_decide_eq_false_2 by (cbn; set_solver).
    rewrite Hnone. reflexivity.
Qed.

(** X7.  [add_sol_conn] below capacity promotes: afterwards the
    transport is solicited and neither on standby nor unsolicited, all
    other memberships are as before; it answers true and sends one
    SUBSCRIBE per delegate channel followed by RESPONSE "SUBSCRIBED"
    exactly when the transport was not solicited already, and otherwise
    answers false and sends nothing. *)
Theorem add_sol_conn_promotes (transport : TransportId) (s : Node) :
  (size (sol_conns s) < max_sol_conns s)%nat ->
  let r := add_sol_conn delegate transport s in
  result r = negb (bool_decide (transport ∈ sol_conns s))
  ∧ sol_conns (state_of r) = {[transport]} ∪ sol_conns s
  ∧ sol_standby_conns (state_of r) = sol_standby_conns s ∖ {[transport]}
  ∧ unsol_conns (state_of r) = unsol_conns s ∖ {[transport]}
  ∧ events r
    = (if bool_decide (transport ∈ sol_conns s) then []
       else (SUBSCRIBE transport <$> channels delegate)
            ++ [RESPONSE transport "SUBSCRIBED"]).
Proof.
  intros Hroom r. subst r. rewrite add_sol_conn_eq.
  rewrite bool_decide_eq_false_2 by lia.
  destruct (bool_decide_reflect (transport ∈ sol_conns s)) as [Hin|Hin];
    unfold result, state_of, events; cbn; repeat split; set_solver.
Qed.

(** X8.  SUBSCRIBE then UNSUBSCRIBE is a round trip: a sender that is
    not blacklisted and sits in no slot is put into the unsolicited set
    (while there is room) and answered RESPONSE "SUBSCRIBED"; its
    UNSUBSCRIBE then takes it out again without any reply, and the node
    is exactly as it was before. *)
Theorem subscribe_unsubscribe_round_trip
    (transport : TransportId) (b1 b2 : Buffer.t) (s : Node) :
  dst_addr f transport ∉ blacklist_addr s ->
  present s transport = false ->
  (size (unsol_conns s) < max_unsol_conns s)%nat ->
  let r1 := did_recv_SUBSCRIBE f delegate true transport b1 s in
  let r2 := did_recv_UNSUBSCRIBE transport b2 (state_of r1) in
  result r1 = 0%Z
  ∧ transport ∈ unsol_conns (state_of r1)
  ∧ events r1 = [RESPONSE transport "SUBSCRIBED"]
  ∧ state_of r2 = s
  ∧ events r2 = [].
Proof.
  intros Hbl Hp Hroom r1 r2. subst r2 r1.
  rewrite did_recv_SUBSCRIBE_not_blacklisted by exact Hbl.
  rewrite Hp. rewrite bool_decide_eq_false_2 by lia.
  change (state_of (0%Z, ?s1, ?e)) with s1.
  apply present_false_iff in Hp as (Ha & Hb & Hc).
  assert (Hback : did_recv_UNSUBSCRIBE transport b2
                    (set_unsol_conns ({[transport]} ∪ unsol_conns s) s)
                  = (tt, s, [])).
  { unfold did_recv_UNSUBSCRIBE. erewrite bind_eq.
    2:{ rewrite remove_conn_eq. cbn [slot].
        rewrite bool_decide_eq_true_2 by (cbn; set_solver). reflexivity. }
    unfold ret. cbn [set_slot app slot unsol_conns set_unsol_conns].
    replace (({[transport]} ∪ unsol_conns s) ∖ {[transport]})
      with (unsol_conns s) by set_solver.
    by destruct s. }
  rewrite Hback. split; [done|]. split; [cbn; set_solver|]. done.
Qed.

(** X9.  [unsubscribe] only sends: one UNSUBSCRIBE frame (type 1 and
    the 16-bit channel, big-endian) per delegate channel to the
    transport of the address, nothing for an unknown address; the node,
    the solicited set included, is left as it is. *)
Theorem unsubscribe_only_sends (addr : SocketAddress) (s : Node) :
  let r := unsubscribe f delegate addr s in
  state_of r = s
  ∧ events r
    = match get_transport f addr with
      | None => []
      | Some t =>
          (λ channel,
             transport_send t ([x01] ++ Buffer.encode_be 2 (wrap16 channel)))
          <$> channels delegate
      end.
Proof.
  cbv zeta. unfold unsubscribe. destruct (get_transport f addr) as [t|].
  - rewrite (for_each_pure _ _
      (λ channel, [transport_send t
                     ([x01] ++ Buffer.encode_be 2 (wrap16 channel))])).
    + unfold state_of, events; cbn [fst snd]. split; [done|].
      apply join_singletons.
    + reflexivity.
  - done.
Qed.

End SlotLife.

(** ** Frames on the wire *)

Lemma to_N_byte_of_N (x : N) : Byte.to_N (byte_of_N x) = x mod 256.
Proof.
  unfold byte_of_N. assert (Hlt : x mod 256 < 256) by (apply N.mod_lt; done).
  destruct (Byte.of_N (x mod 256)) as [b|] eqn:E.
  - by apply Byte.to_of_N.
  - apply Byte.of_N_None_iff in E. lia.
Qed.

Lemma encode_be_length n v : length (Buffer.encode_be n v) = n.
Proof. induction n as [|n IH]; [done|]. cbn. by rewrite IH. Qed.

(** Reading back a big-endian field gives the value modulo its width. *)
Lemma read_be_encode_be n v (pre post : list byte) :
  Buffer.read_be n (pre ++ Buffer.encode_be n v ++ post) (N.of_nat (length pre))
  = v mod 2 ^ (8 * N.of_nat n).
Proof.
  revert pre. induction n as [|n IH]; intros pre.
  - cbn. by rewrite N.mod_1_r.
  - cbn [Buffer.read_be Buffer.encode_be app].
    unfold Buffer.byte_at. rewrite Nat2N.id.
    rewrite (list_lookup_middle pre _ _ (length pre)) by done.
    rewrite to_N_byte_of_N.
    specialize (IH (pre ++ [byte_of_N (v / 2 ^ (8 * N.of_nat n))])).
    rewrite length_app in IH. cbn [length] in IH.
    replace (N.of_nat (length pre + 1)) with (N.of_nat (length pre) + 1) in IH
      by lia.
    rewrite <- app_assoc in IH. cbn [app] in IH. rewrite IH.
    replace (8 * N.of_nat (S n)) with (8 * N.of_nat n + 8) by lia.
    rewrite N.pow_add_r. change (2 ^ 8) with 256.
    rewrite N.Div0.mod_mul_r. lia.
Qed.

Lemma Buffer_write_middle (pre old post src : list byte) :
  length old = length src ->
  Buffer.write (pre ++ old ++ post) (N.of_nat (length pre)) src
  = pre ++ src ++ post.
Proof.
  intros Hlen. unfold Buffer.write, Buffer.size.
  rewrite decide_True by (rewrite !length_app; lia).
  rewrite Nat2N.id, take_app_length. f_equal. f_equal.
  rewrite drop_app_ge by lia.
  replace (length pre + length src - length pre)%nat with (length old) by lia.
  apply drop_app_length.
Qed.

(** Attester and witnesser that add no header, like the empty ones. *)
Definition headerless (a : Attester) (w : Witnesser) : Prop :=
  (∀ id ch d sz h, attester_attestation_size id ch d sz h = 0)
  ∧ (∀ id ch d sz h m o, attester_attest id ch d sz h m o = m)
  ∧ (∀ b o, attester_parse_size b o = 0)
  ∧ (∀ h, witnesser_witness_size h = 0)
  ∧ (∀ h m o, witnesser_witness h m o = m)
  ∧ (∀ b o, witnesser_parse_size b o = 0).

Lemma create_MESSAGE_layout {a : Attester} {w : Witnesser}
    (channel message_id : N) (data : Buffer.t) (size : N)
    (prev_header : MessageHeaderType) :
  headerless a w ->
  size = Buffer.size data ->
  11 + size < 2 ^ 64 ->
  create_MESSAGE channel message_id data size prev_header
  = [x03] ++ Buffer.encode_be 8 (wrap64 message_id)
    ++ Buffer.encode_be 2 (wrap16 channel) ++ data.
Proof.
  intros (Ha1 & Ha2 & _ & Hw1 & Hw2 & _) -> Hfit. unfold create_MESSAGE.
  rewrite Ha1, Ha2, Hw1, Hw2. rewrite !N.add_0_r.
  assert (Hw64 : ∀ n, n < 2 ^ 64 -> wrap64 n = n)
    by (intros n Hn; by apply N.mod_small).
  rewrite !(Hw64 (11 + Buffer.size data)) by done.
  rewrite !(Hw64 11) by done.
  unfold Buffer.size in *.
  assert (Hinit : Buffer.init [x03] (11 + N.of_nat (length data))
                  = [x03] ++ replicate 8 x00
                    ++ (replicate 2 x00 ++ replicate (length data) x00)).
  { unfold Buffer.init.
    replace (N.to_nat (11 + N.of_nat (length data)))
      with (S (10 + length data)) by lia.
    cbn [app take]. f_equal. rewrite take_replicate.
    rewrite Nat.min_l by lia.
    replace (10 + length data)%nat with (8 + (2 + length data))%nat by lia.
    by rewrite !replicate_add. }
  rewrite Hinit. unfold Buffer.write_uint64_be.
  rewrite (Buffer_write_middle [x03] (replicate 8 x00))
    by (by rewrite encode_be_length).
  unfold Buffer.write_uint16_be.
  rewrite (app_assoc [x03]).
  replace 9 with (N.of_nat (length ([x03] ++ Buffer.encode_be 8 (wrap64 message_id))))
    by (by rewrite length_app, encode_be_length).
  rewrite (Buffer_write_middle _ (replicate 2 x00))
    by (by rewrite encode_be_length).
  rewrite (app_assoc _ (Buffer.encode_be 2 _)).
  replace 11 with (N.of_nat (length (([x03] ++ Buffer.encode_be 8 (wrap64 message_id))
                                      ++ Buffer.encode_be 2 (wrap16 channel))))
    by (by rewrite !length_app, !encode_be_length).
  rewrite <- (app_nil_r (replicate (length data) x00)).
  rewrite Nat2N.id, firstn_all.
  rewrite (Buffer_write_middle _ (replicate (length data) x00) [])
    by (by rewrite length_replicate).
  rewrite app_nil_r, <- !app_assoc. reflexivity.
Qed.

(** ** Dispatch of received frames *)

(** The delegate upcalls of [did_recv_RESPONSE].  Each carries
    [delegate->channels[0]]; [None] stands for an empty channel list,
    where the source indexes out of range. *)
Inductive DelegateNotice : Type :=
| delegate_did_subscribe (channel : option N)
| delegate_did_unsubscribe (channel : option N).

Section Dispatch.

Context {attester : Attester} {witnesser : Witnesser}.
Variable f : TransportLayer.
Variable delegate : PubSubDelegate.
Variables accept_unsol_conn enable_relay : bool.

(** [did_recv_RESPONSE] reads no node field and writes none: it hides
    the success byte and matches the rest against the two prefixes
    ([rfind(_, 0) == 0]). *)
Definition did_recv_RESPONSE (bytes : Buffer.t) : list DelegateNotice :=
  let bytes := Buffer.cover bytes 1 in
  if bool_decide (list_byte_of_string "UNSUBSCRIBED" `prefix_of` bytes) then
    [delegate_did_unsubscribe (channels delegate !! 0%nat)]
  else if bool_decide (list_byte_of_string "SUBSCRIBED" `prefix_of` bytes) then
    [delegate_did_subscribe (channels delegate !! 0%nat)]
  else [].

(** [did_recv_message]: the first byte selects the handler.  The result
    pairs the node computation with the upcalls of the RESPONSE branch,
    which is the only branch that makes any. *)
Definition did_recv_message (transport : TransportId) (bytes : Buffer.t)
    (s : Node) : (Z * Node * list Event) * list DelegateNotice :=
  if bool_decide (Buffer.size bytes = 0) then ((0%Z, s, []), [])
  else
    let message_type := Buffer.byte_at bytes 0 in
    let bytes := Buffer.cover bytes 1 in
    match message_type with
    | 0 => (did_recv_SUBSCRIBE f delegate accept_unsol_conn transport bytes s, [])
    | 1 => ((did_recv_UNSUBSCRIBE transport bytes ;;; ret 0%Z) s, [])
    | 2 => ((0%Z, s, []), did_recv_RESPONSE bytes)
    | 3 => (did_recv_MESSAGE f enable_relay transport bytes s, [])
    | _ => ((0%Z, s, []), [])
    end.

(** X10.  [did_recv_message] drops what it does not know: an empty
    frame, a HEARTBEAT (type 4) and every frame whose type byte is above
    4 return 0, change nothing, send nothing and make no upcall. *)
Theorem did_recv_message_ignored
    (transport : TransportId) (bytes : Buffer.t) (s : Node) :
  bytes = [] ∨ 4 <= Buffer.byte_at bytes 0 ->
  did_recv_message transport bytes s = ((0%Z, s, []), []).
Proof.
  intros [->|Hty]; [reflexivity|]. unfold did_recv_message.
  destruct (bool_decide (Buffer.size bytes = 0)); [reflexivity|].
  destruct (Buffer.byte_at bytes 0) as [|p]; [lia|].
  do 3 (destruct p as [p|p|]; try lia; try reflexivity).
Qed.

Lemma cover_type_byte (b : byte) (rest : list byte) :
  Buffer.cover (b :: rest) 1 = rest.
Proof.
  unfold Buffer.cover, Buffer.size. cbn [length].
  rewrite decide_True by lia. reflexivity.
Qed.

Lemma RESPONSE_frame (success : bool) (msg : list byte) :
  Buffer.write
    (Buffer.init [x02; if success then x01 else x00] (N.of_nat (length msg) + 2))
    2 msg
  = [x02; if success then x01 else x00] ++ msg.
Proof.
  assert (Hinit : Buffer.init [x02; if success then x01 else x00]
                    (N.of_nat (length msg) + 2)
                  = [x02; if success then x01 else x00]
                    ++ replicate (length msg) x00 ++ []).
  { unfold Buffer.init.
    replace (N.to_nat (N.of_nat (length msg) + 2))
      with (S (S (length msg))) by lia.
    cbn [app take]. do 2 f_equal. rewrite take_replicate, app_nil_r.
    f_equal. lia. }
  rewrite Hinit.
  etransitivity;
    [apply (Buffer_write_middle [x02; if success then x01 else x00]
              (replicate (length msg) x00) [] msg);
     by rewrite length_replicate|].
  by rewrite app_nil_r.
Qed.

(** X11.  RESPONSE round trip: the frame [send_RESPONSE] emits is the
    byte 2, the success flag and the message text; a node that receives
    it returns 0 and stays as it is, and it calls the delegate's
    [did_unsubscribe] when the text starts with UNSUBSCRIBED,
    [did_subscribe] when it starts with SUBSCRIBED, and nothing
    otherwise, whatever the success flag says. *)
Theorem RESPONSE_round_trip
    (sender receiver : TransportId) (success : bool) (msg_string : string)
    (s s' : Node) :
  let msg := list_byte_of_string msg_string in
  let frame := [x02; if success then x01 else x00] ++ msg in
  send_RESPONSE sender success msg_string s
    = (tt, s, [transport_send sender frame])
  ∧ did_recv_message receiver frame s'
    = ((0%Z, s', []),
       if bool_decide (list_byte_of_string "UNSUBSCRIBED" `prefix_of` msg)
       then [delegate_did_unsubscribe (channels delegate !! 0%nat)]
       else if bool_decide (list_byte_of_string "SUBSCRIBED" `prefix_of` msg)
       then [delegate_did_subscribe (channels delegate !! 0%nat)]
       else []).
Proof.
  cbv zeta. split.
  - unfold send_RESPONSE, emit. by rewrite RESPONSE_frame.
  - unfold did_recv_message. cbn [app].
    rewrite bool_decide_eq_false_2 by (unfold Buffer.size; cbn; lia).
    change (Buffer.byte_at (x02 :: _) 0) with 2.
    rewrite cover_type_byte. unfold did_recv_RESPONSE.
    rewrite cover_type_byte. reflexivity.
Qed.

(** X12.  SUBSCRIBE and UNSUBSCRIBE round trip: the frames
    [send_SUBSCRIBE] and [send_UNSUBSCRIBE] emit are the type byte and
    the channel modulo 2^16, big-endian; a node that receives them runs
    [did_recv_SUBSCRIBE], respectively [did_recv_UNSUBSCRIBE], on the
    two channel bytes, from which the channel reads back. *)
Theorem SUBSCRIBE_round_trip
    (sender receiver : TransportId) (channel : N) (s s' : Node) :
  let body := Buffer.encode_be 2 (wrap16 channel) in
  send_SUBSCRIBE sender channel s = (tt, s, [transport_send sender (x00 :: body)])
  ∧ send_UNSUBSCRIBE sender channel s
    = (tt, s, [transport_send sender (x01 :: body)])
  ∧ did_recv_message receiver (x00 :: body) s'
    = (did_recv_SUBSCRIBE f delegate accept_unsol_conn receiver body s', [])
  ∧ did_recv_message receiver (x01 :: body) s'
    = ((0%Z, state_of (remove_conn ref_unsol_conns receiver s'), []), [])
  ∧ Buffer.read_uint16_be body 0 = wrap16 channel.
Proof.
  cbv zeta. split; [reflexivity|]. split; [reflexivity|]. split; [|split].
  - unfold did_recv_message.
    rewrite bool_decide_eq_false_2 by (unfold Buffer.size; cbn; lia).
    change (Buffer.byte_at (x00 :: _) 0) with 0.
    by rewrite cover_type_byte.
  - unfold did_recv_message.
    rewrite bool_decide_eq_false_2 by (unfold Buffer.size; cbn; lia).
    change (Buffer.byte_at (x01 :: _) 0) with 1.
    rewrite cover_type_byte.
    unfold did_recv_UNSUBSCRIBE, state_of. unfold_monad.
    rewrite remove_conn_eq. cbn [slot].
    by destruct (bool_decide (receiver ∈ unsol_conns s')).
  - pose proof (read_be_encode_be 2 (wrap16 channel) [] []) as H.
    rewrite app_nil_r in H. cbn [app length] in H.
    change (N.of_nat 0) with 0 in H.
    unfold Buffer.read_uint16_be. rewrite H.
    unfold wrap16. change (2 ^ (8 * N.of_nat 2)) with (2 ^ 16).
    by rewrite N.Div0.mod_mod.
Qed.

(** X13.  MESSAGE round trip with a header-free attester and witnesser:
    [create_MESSAGE] lays out type 3, the id modulo 2^64 and the channel
    modulo 2^16, big-endian, then the payload; a node that receives this
    frame with an unseen id and an accepting attester returns 0, records
    the id and hands its delegate exactly that payload, channel and id,
    once. *)
Theorem MESSAGE_round_trip
    (channel message_id : N) (data : Buffer.t) (prev_header : MessageHeaderType)
    (receiver : TransportId) (s : Node) :
  headerless attester witnesser ->
  11 + Buffer.size data < 2 ^ 64 ->
  wrap64 message_id ∉ message_id_set s ->
  attester_verify (wrap64 message_id) (wrap16 channel) data (Buffer.size data)
    (MkHeader data 0 data 0) = true ->
  let frame :=
    create_MESSAGE channel message_id data (Buffer.size data) prev_header in
  let r := (did_recv_message receiver frame s).1 in
  frame = [x03] ++ Buffer.encode_be 8 (wrap64 message_id)
          ++ Buffer.encode_be 2 (wrap16 channel) ++ data
  ∧ result r = 0%Z
  ∧ wrap64 message_id ∈ message_id_set (state_of r)
  ∧ last (events r)
    = Some (delegate_did_recv_message data (MkHeader data 0 data 0)
              (wrap16 channel) (wrap64 message_id))
  ∧ delegate_calls (wrap64 message_id) (events r) = 1%nat.
Proof.
  intros Hfree Hfit Hnew Hverify frame r.
  assert (Hframe : frame = [x03] ++ Buffer.encode_be 8 (wrap64 message_id)
                           ++ Buffer.encode_be 2 (wrap16 channel) ++ data).
  { subst frame. by apply create_MESSAGE_layout. }
  split; [exact Hframe|]. subst r. rewrite Hframe. clear Hframe frame.
  set (body := Buffer.encode_be 8 (wrap64 message_id)
               ++ Buffer.encode_be 2 (wrap16 channel) ++ data).
  unfold did_recv_message. cbn [app].
  rewrite bool_decide_eq_false_2 by (unfold Buffer.size; cbn; lia).
  change (Buffer.byte_at (x03 :: _) 0) with 3.
  rewrite cover_type_byte. cbn [fst].
  destruct Hfree as (_ & _ & Ha3 & _ & _ & Hw3).
  assert (Hid : MESSAGE_id body = wrap64 message_id).
  { unfold MESSAGE_id, Buffer.read_uint64_be, body.
    pose proof (read_be_encode_be 8 (wrap64 message_id) []
                  (Buffer.encode_be 2 (wrap16 channel) ++ data)) as H.
    cbn [app length] in H. change (N.of_nat 0) with 0 in H. rewrite H.
    unfold wrap64. change (2 ^ (8 * N.of_nat 8)) with (2 ^ 64).
    by rewrite N.Div0.mod_mod. }
  assert (Hch : MESSAGE_channel body = wrap16 channel).
  { unfold MESSAGE_channel, Buffer.read_uint16_be, body.
    pose proof (read_be_encode_be 2 (wrap16 channel)
                  (Buffer.encode_be 8 (wrap64 message_id)) data) as H.
    rewrite encode_be_length in H. change (N.of_nat 8) with 8 in H.
    rewrite H.
    unfold wrap16. change (2 ^ (8 * N.of_nat 2)) with (2 ^ 16).
    by rewrite N.Div0.mod_mod. }
  assert (Hcover0 : ∀ b : Buffer.t, Buffer.cover b 0 = b).
  { intros b. unfold Buffer.cover. rewrite decide_True by lia. done. }
  assert (Hcover10 : Buffer.cover body 10 = data).
  { unfold Buffer.cover, Buffer.size, body.
    rewrite decide_True
      by (rewrite !length_app, !encode_be_length; lia).
    rewrite app_assoc. apply drop_app_length'.
    by rewrite length_app, !encode_be_length. }
  assert (Hpay : MESSAGE_payload body = data).
  { unfold MESSAGE_payload. cbv zeta. by rewrite Hcover10, Ha3, Hw3, !Hcover0. }
  assert (Hhdr : MESSAGE_header body = MkHeader data 0 data 0).
  { unfold MESSAGE_header. cbv zeta. by rewrite Hcover10, Ha3, Hw3, !Hcover0. }
  assert (Hver : MESSAGE_verified body = true).
  { unfold MESSAGE_verified. by rewrite Hid, Hch, Hpay, Hhdr. }
  rewrite did_recv_MESSAGE_accepted by (rewrite ?Hid; done).
  unfold result, state_of, events; cbn [fst snd].
  rewrite Hid, Hch, Hpay, Hhdr.
  split; [done|]. split; [apply record_message_id_seen|]. split.
  - by rewrite last_snoc.
  - rewrite delegate_calls_app, relayed_no_upcall.
    unfold delegate_calls; cbn. by rewrite bool_decide_eq_true_2.
Qed.

End Dispatch.

(** ** Relaying a MESSAGE *)

Section Relay.

Context {attester : Attester} {witnesser : Witnesser}.
Variable f : TransportLayer.
Variable enable_relay : bool.

(** X14.  A MESSAGE that is accepted is relayed, when relaying is on, to
    exactly the solicited and unsolicited transports whose address
    differs from the sender's: never back to the sender or to another
    transport of the same address, and never when relaying is off.
    What is relayed is the MESSAGE built again from the parsed channel,
    id, payload and header. *)
Theorem did_recv_MESSAGE_relays_onward
    (transport : TransportId) (bytes : Buffer.t) (s : Node) :
  MESSAGE_id bytes ∉ message_id_set s ->
  MESSAGE_verified bytes = true ->
  let r := did_recv_MESSAGE f enable_relay transport bytes s in
  let onward :=
    create_MESSAGE (MESSAGE_channel bytes) (MESSAGE_id bytes)
      (MESSAGE_payload bytes) (Buffer.size (MESSAGE_payload bytes))
      (MESSAGE_header bytes) in
  (∀ t e, e ∈ events r -> message_to t e ->
     enable_relay = true
     ∧ (t ∈ sol_conns s ∨ t ∈ unsol_conns s)
     ∧ dst_addr f t ≠ dst_addr f transport
     ∧ (e = transport_send t onward ∨ e = transport_cut_through_send t onward))
  ∧ (enable_relay = true ->
     ∀ t, t ∈ sol_conns s ∨ t ∈ unsol_conns s ->
          dst_addr f t ≠ dst_addr f transport ->
          ∃ e, e ∈ events r ∧ message_to t e).
Proof.
  intros Hnew Hv r onward. subst r.
  rewrite did_recv_MESSAGE_accepted by done.
  unfold events; cbn [snd]. unfold relayed. split.
  - intros t e He [m Hm]. apply elem_of_app in He as [He|He].
    2:{ apply list_elem_of_singleton in He. destruct Hm; congruence. }
    destruct enable_relay; [|by apply elem_of_nil in He].
    apply list_elem_of_join in He as (l & He & Hl).
    apply list_elem_of_fmap in Hl as (t' & -> & Ht').
    apply elem_of_fan_out in He as [Hex He].
    unfold is_excluded in Hex. apply bool_decide_eq_false in Hex.
    rewrite elem_of_app, !elem_of_elements in Ht'.
    unfold delivery in He. fold onward in He.
    destruct (decide (50000 < Buffer.size (MESSAGE_payload bytes)));
      destruct He as [He|He], Hm as [Hm|Hm]; try congruence;
      assert (t' = t) as -> by congruence; auto.
  - intros -> t Ht Haddr.
    exists (delivery (MESSAGE_channel bytes) (MESSAGE_id bytes)
              (MESSAGE_payload bytes) (Buffer.size (MESSAGE_payload bytes))
              (MESSAGE_header bytes) t).
    split.
    + apply elem_of_app. left. apply list_elem_of_join.
      eexists. split; [|apply list_elem_of_fmap; exists t; split; [reflexivity|]].
      * apply delivery_in_fan_out. unfold is_excluded.
        by apply bool_decide_eq_false.
      * by rewrite elem_of_app, !elem_of_elements.
    + unfold message_to, delivery. destruct (decide _); eauto.
Qed.

End Relay.

(** ** The life of a cut-through stream *)

Lemma filter_all {A} (P : A -> Prop) `{∀ y, Decision (P y)} (l : list A) :
  Forall P l -> filter P l = l.
Proof.
  induction 1 as [|y l Hy _ IH]; [reflexivity|].
  by rewrite filter_cons_True, IH.
Qed.

Lemma erase_first_NoDup {A} `{EqDecision A} (a : A) (p : A -> bool) (l : list A) :
  (∀ y, p y = true ↔ y = a) ->
  NoDup l ->
  erase_first p l = filter (λ y, y ≠ a) l.
Proof.
  intros Hp. induction 1 as [|y l Hy Hl IH]; [reflexivity|].
  cbn [erase_first]. destruct (p y) eqn:E.
  - apply Hp in E as ->. rewrite filter_cons_False by (intros H; by apply H).
    symmetry. apply filter_all. apply Forall_forall.
    intros z Hz ->. done.
  - rewrite filter_cons_True, IH; [done|].
    intros ->. assert (p a = true) by by apply Hp. congruence.
Qed.

Lemma relay_events_no_upcall f y subs b :
  delegate_calls y (relay_events f subs b) = 0%nat.
Proof.
  apply delegate_calls_join, Forall_fmap, Forall_forall. intros sub _.
  unfold relay_to; cbn. by destruct (bool_decide _).
Qed.

Section Streams.

Variable f : TransportLayer.
Variables (transport : TransportId) (id : N).

Local Abbreviation k := (transport, id).

(** What [cut_through_recv_start] leaves behind. *)
Lemma cut_through_recv_start_state len s :
  let s1 := state_of (cut_through_recv_start transport id len s) in
  events (cut_through_recv_start transport id len s) = []
  ∧ session s1 k = []
  ∧ header_received s1 k = false
  ∧ declared_length s1 k = len
  ∧ message_id_set s1 = message_id_set s
  ∧ sol_conns s1 = sol_conns s
  ∧ unsol_conns s1 = unsol_conns s
  ∧ keys s1 = keys s
  ∧ (∀ k', k' ≠ k ->
       session s1 k' = session s k'
       ∧ header_received s1 k' = header_received s k'
       ∧ declared_length s1 k' = declared_length s k').
Proof.
  cbv zeta. unfold cut_through_recv_start, session, header_received,
    declared_length. unfold_monad. cbn.
  rewrite !lookup_insert_eq.
  repeat split; try reflexivity; by rewrite lookup_insert_ne.
Qed.

Variable bytes : Buffer.t.

Local Abbreviation L := (Buffer.read_uint16_be bytes 11).
Local Abbreviation x := (Buffer.read_uint64_be bytes 1).

(** X15.  [cut_through_recv_start] opens the session afresh, and the
    first chunk then carries the declared length on: when the chunk
    holds its header and its id is new, every solicited or unsolicited
    peer other than the sender whose key is not in the witness is
    offered a stream of the declared length plus 32 (modulo 2^64); the
    peers that take it are the session's subscribers, whatever the
    session held before the start, and they are fed the new header and
    the rest of the chunk. *)
Theorem cut_through_recv_start_then_first_chunk (len : N) (s : Node) :
  ¬ wrap16 (Buffer.size bytes) < 13 + L ->
  x ∉ message_id_set s ->
  let s1 := state_of (cut_through_recv_start transport id len s) in
  let r := cut_through_recv_bytes f transport id bytes s1 in
  let subs := mjoin (accepted f transport bytes L len <$> peers s) in
  result r = Some 0%Z
  ∧ session (state_of r) k = subs
  ∧ events r
    = mjoin (start_call f transport bytes L len <$> peers s)
      ++ relay_events f subs (new_header f bytes s)
      ++ relay_events f subs (Buffer.cover bytes (13 + L)).
Proof.
  intros Hlong Hnew s1 r subs.
  destruct (cut_through_recv_start_state len s)
    as (_ & Hsess & Hrecv & Hlen & Hset & Hsol & Hunsol & Hkeys & _).
  fold s1 in Hsess, Hrecv, Hlen, Hset, Hsol, Hunsol, Hkeys.
  assert (Hnew1 : x ∉ message_id_set s1) by by rewrite Hset.
  subst r. unfold cut_through_recv_bytes.
  destruct (first_chunk_relayed f transport id bytes 0 s1 Hrecv Hlong Hnew1)
    as (s' & -> & Hs' & _).
  unfold result, state_of, events; cbn [fst snd].
  assert (Hpeers : peers s1 = peers s) by (unfold peers; by rewrite Hsol, Hunsol).
  assert (Hsubs : session s1 k ++ enrolled f transport id bytes s1 = subs).
  { rewrite Hsess. unfold enrolled. by rewrite Hlen, Hpeers. }
  rewrite Hs', Hsubs, Hlen, Hpeers.
  unfold new_header. rewrite Hkeys. done.
Qed.

Lemma first_chunk_duplicate_state n s :
  header_received s k = false ->
  ¬ wrap16 (Buffer.size bytes) < 13 + L ->
  x ∈ message_id_set s ->
  ∃ s', cut_through_recv_bytes_fuel f (S n) transport id bytes s
        = (Some (-1)%Z, s', [transport_cut_through_send_skip transport id])
    ∧ session s' k = session s k
    ∧ header_received s' k = true
    ∧ message_id_set s' = message_id_set s
    ∧ message_id_events s' = message_id_events s.
Proof.
  intros Hh Hlong Hseen. cbn [cut_through_recv_bytes_fuel].
  unfold bind at 1. rewrite cut_through_header_recv_at_eq, Hh. cbn [negb].
  rewrite decide_False by exact Hlong.
  unfold bind at 1, modify at 1. unfold bind at 1, gets at 1.
  cbn [message_id_set set_cut_through_header_recv].
  rewrite bool_decide_eq_true_2 by exact Hseen. unfold_monad. cbn.
  eexists. split; [reflexivity|]. repeat split.
  unfold header_received; cbn. by rewrite lookup_insert_eq.
Qed.

(** X16.  A stream whose MESSAGE id was seen before is swallowed: after
    [cut_through_recv_start], the first chunk answers the sender with
    [cut_through_send_skip] and returns -1, nothing is offered or
    relayed to anybody and the seen set stays as it is; the header
    counts as received all the same, so every later chunk of the stream
    returns 0 and is relayed to nobody. *)
Theorem cut_through_duplicate_stream_swallowed
    (len : N) (later : Buffer.t) (s : Node) :
  ¬ wrap16 (Buffer.size bytes) < 13 + L ->
  x ∈ message_id_set s ->
  let s1 := state_of (cut_through_recv_start transport id len s) in
  let r := cut_through_recv_bytes f transport id bytes s1 in
  let r' := cut_through_recv_bytes f transport id later (state_of r) in
  result r = Some (-1)%Z
  ∧ events r = [transport_cut_through_send_skip transport id]
  ∧ message_id_set (state_of r) = message_id_set s
  ∧ result r' = Some 0%Z
  ∧ events r' = [].
Proof.
  intros Hlong Hseen s1 r r'.
  destruct (cut_through_recv_start_state len s)
    as (_ & Hsess & Hrecv & _ & Hset & _).
  fold s1 in Hsess, Hrecv, Hset.
  assert (Hseen1 : x ∈ message_id_set s1) by by rewrite Hset.
  subst r' r. unfold cut_through_recv_bytes.
  destruct (first_chunk_duplicate_state 1 s1 Hrecv Hlong Hseen1)
    as (s2 & -> & Hs2 & Hrecv2 & Hset2 & _).
  unfold result, state_of, events; cbn [fst snd].
  destruct (cut_through_recv_bytes_relay f transport id 1 later s2 Hrecv2)
    as (s3 & -> & _).
  cbn [fst snd]. rewrite Hs2, Hsess, Hset2, Hset. done.
Qed.

Lemma first_chunk_short_state n s :
  header_received s k = false ->
  wrap16 (Buffer.size bytes) < 13 + L ->
  ∃ s', cut_through_recv_bytes_fuel f (S n) transport id bytes s
        = (Some (-1)%Z, s', [transport_close transport])
    ∧ session s' k = session s k
    ∧ header_received s' k = false
    ∧ message_id_set s' = message_id_set s.
Proof.
  intros Hh Hshort. cbn [cut_through_recv_bytes_fuel].
  unfold bind at 1. rewrite cut_through_header_recv_at_eq, Hh. cbn [negb].
  rewrite decide_True by exact Hshort. unfold_monad. cbn.
  eexists. split; [reflexivity|]. repeat split.
  unfold header_received; cbn. by rewrite lookup_insert_eq.
Qed.

(** X17.  A first chunk too short for its header closes the sender and
    returns -1.  The size is compared as a 16-bit number, so only its
    value modulo 2^16 counts.  Nothing is recorded: the seen set and
    the session are as before and the header still counts as not
    received, so the next chunk is parsed as a header again. *)
Theorem cut_through_short_header_closes (s : Node) :
  header_received s k = false ->
  wrap16 (Buffer.size bytes) < 13 + L ->
  let r := cut_through_recv_bytes f transport id bytes s in
  result r = Some (-1)%Z
  ∧ events r = [transport_close transport]
  ∧ message_id_set (state_of r) = message_id_set s
  ∧ session (state_of r) k = session s k
  ∧ header_received (state_of r) k = false.
Proof.
  intros Hh Hshort r. subst r. unfold cut_through_recv_bytes.
  destruct (first_chunk_short_state 1 s Hh Hshort)
    as (s' & -> & Hs' & Hh' & Hset').
  unfold result, state_of, events; cbn [fst snd]. done.
Qed.

(** [cut_through_recv_bytes] makes no upcall, whatever it is given. *)
Lemma cut_through_recv_bytes_no_upcall y s :
  delegate_calls y (events (cut_through_recv_bytes f transport id bytes s))
  = 0%nat.
Proof.
  unfold cut_through_recv_bytes.
  destruct (header_received s k) eqn:Hh.
  { destruct (cut_through_recv_bytes_relay f transport id 1 bytes s Hh)
      as (s' & -> & _). apply relay_events_no_upcall. }
  destruct (decide (wrap16 (Buffer.size bytes) < 13 + L)) as [Hshort|Hlong].
  { destruct (first_chunk_short f transport id bytes 1 s Hh Hshort)
      as (s' & -> & _). done. }
  destruct (decide (x ∈ message_id_set s)) as [Hseen|Hfresh].
  { destruct (first_chunk_duplicate f transport id bytes 1 s Hh Hlong Hseen)
      as (s' & -> & _). done. }
  destruct (first_chunk_relayed f transport id bytes 0 s Hh Hlong Hfresh)
    as (s' & -> & _).
  unfold events; cbn [snd].
  rewrite !delegate_calls_app, !relay_events_no_upcall.
  rewrite delegate_calls_join; [done|].
  apply Forall_fmap, Forall_forall. intros sub _. unfold start_call; cbn.
  repeat match goal with |- context [if ?c then _ else _] => destruct c end;
    reflexivity.
Qed.

Context {attester : Attester} {witnesser : Witnesser}.
Variable enable_relay : bool.

(** X18.  A MESSAGE that arrives as a cut-through stream never reaches
    this node's delegate: [cut_through_recv_bytes] makes no
    [did_recv_message] upcall, and once the first chunk of a stream has
    been relayed its id is in the seen set, so that the same MESSAGE
    arriving as an ordinary frame afterwards is dropped by
    [did_recv_MESSAGE] with result 0, no event and no change. *)
Theorem cut_through_never_reaches_delegate
    (from : TransportId) (frame : Buffer.t) (s : Node) :
  header_received s k = false ->
  ¬ wrap16 (Buffer.size bytes) < 13 + L ->
  x ∉ message_id_set s ->
  MESSAGE_id frame = x ->
  let r := cut_through_recv_bytes f transport id bytes s in
  result r = Some 0%Z
  ∧ (∀ y, delegate_calls y (events r) = 0%nat)
  ∧ did_recv_MESSAGE f enable_relay from frame (state_of r)
    = (0%Z, state_of r, []).
Proof.
  intros Hh Hlong Hnew Hid r.
  split; [|split].
  - subst r. unfold cut_through_recv_bytes.
    by destruct (first_chunk_relayed f transport id bytes 0 s Hh Hlong Hnew)
      as (s' & -> & _).
  - intros y. apply cut_through_recv_bytes_no_upcall.
  - apply did_recv_MESSAGE_duplicate. rewrite Hid. subst r.
    unfold cut_through_recv_bytes.
    by destruct (first_chunk_relayed f transport id bytes 0 s Hh Hlong Hnew)
      as (s' & -> & _ & Hseen & _).
Qed.

(** X19.  The other way round: once [did_recv_MESSAGE] has accepted a
    MESSAGE, a cut-through stream that carries the same id is refused at
    its first chunk: the sender is told to skip, the call returns -1,
    nothing is offered or relayed and no upcall is made. *)
Theorem message_then_cut_through_skipped
    (from : TransportId) (frame : Buffer.t) (len : N) (s : Node) :
  MESSAGE_id frame ∉ message_id_set s ->
  MESSAGE_verified frame = true ->
  x = MESSAGE_id frame ->
  ¬ wrap16 (Buffer.size bytes) < 13 + L ->
  let s1 := state_of (did_recv_MESSAGE f enable_relay from frame s) in
  let s2 := state_of (cut_through_recv_start transport id len s1) in
  let r := cut_through_recv_bytes f transport id bytes s2 in
  result r = Some (-1)%Z
  ∧ events r = [transport_cut_through_send_skip transport id]
  ∧ message_id_set (state_of r) = message_id_set s1
  ∧ message_id_events (state_of r) = message_id_events s1.
Proof.
  intros Hnew Hv Hid Hlong s1 s2 r.
  assert (Hseen1 : x ∈ message_id_set s1).
  { subst s1. rewrite did_recv_MESSAGE_accepted by done.
    rewrite Hid. apply record_message_id_seen. }
  destruct (cut_through_recv_start_state len s1)
    as (_ & _ & Hrecv & _ & Hset & _).
  fold s2 in Hrecv, Hset.
  assert (Hev : message_id_events s2 = message_id_events s1) by reflexivity.
  assert (Hseen2 : x ∈ message_id_set s2) by by rewrite Hset.
  subst r. unfold cut_through_recv_bytes.
  destruct (first_chunk_duplicate_state 1 s2 Hrecv Hlong Hseen2)
    as (s3 & -> & _ & _ & Hset3 & Hev3).
  unfold result, state_of, events; cbn [fst snd].
  by rewrite Hset3, Hev3, Hset, Hev.
Qed.

Definition END (sub : TransportId * N) : Event :=
  transport_cut_through_send_end sub.1 sub.2.

Lemma cut_through_recv_end_eq s :
  cut_through_recv_end transport id s
  = (tt, set_cut_through_map (<[k := session s k]> (cut_through_map s)) s,
     END <$> session s k).
Proof.
  unfold cut_through_recv_end. unfold bind at 1.
  rewrite cut_through_map_at_eq.
  rewrite (for_each_pure _ _ (λ sub, [END sub])) by reflexivity.
  cbn [app]. f_equal.
  induction (session s k) as [|sub l IH]; [reflexivity|].
  cbn. by rewrite <- IH.
Qed.

Lemma cut_through_recv_flush_eq s :
  cut_through_recv_flush transport id s
  = (tt, set_cut_through_map (<[k := session s k]> (cut_through_map s)) s,
     FLUSH <$> session s k).
Proof.
  unfold cut_through_recv_flush. unfold bind at 1.
  rewrite cut_through_map_at_eq.
  rewrite (for_each_pure _ _ (λ sub, [FLUSH sub])) by reflexivity.
  cbn [app]. f_equal.
  induction (session s k) as [|sub l IH]; [reflexivity|].
  cbn. by rewrite <- IH.
Qed.

Lemma session_touch k0 k' s :
  session (set_cut_through_map (<[k0 := session s k0]> (cut_through_map s)) s) k'
  = session s k'.
Proof.
  unfold session; cbn. destruct (decide (k0 = k')) as [->|Hne].
  - by rewrite lookup_insert_eq.
  - by rewrite lookup_insert_ne.
Qed.

(** X20.  The end of a stream does not close its session: after a
    first chunk has been relayed, [cut_through_recv_end] (and likewise
    [cut_through_recv_flush]) signals each subscriber of the session
    once, in order, and every session keeps its subscribers; a chunk
    that arrives for the same stream afterwards is still relayed to all
    of them. *)
Theorem cut_through_recv_end_keeps_session (later : Buffer.t) (s : Node) :
  header_received s k = true ->
  let r_end := cut_through_recv_end transport id s in
  let r_flush := cut_through_recv_flush transport id s in
  events r_end = END <$> session s k
  ∧ events r_flush = FLUSH <$> session s k
  ∧ (∀ k', session (state_of r_end) k' = session s k'
           ∧ session (state_of r_flush) k' = session s k')
  ∧ events (cut_through_recv_bytes f transport id later (state_of r_end))
    = relay_events f (session s k) later
  ∧ events (cut_through_recv_bytes f transport id later (state_of r_flush))
    = relay_events f (session s k) later.
Proof.
  intros Hh r_end r_flush. subst r_end r_flush.
  rewrite cut_through_recv_end_eq, cut_through_recv_flush_eq.
  unfold state_of, events; cbn [fst snd].
  set (s1 := set_cut_through_map _ s).
  assert (Hh1 : header_received s1 k = true) by exact Hh.
  split; [done|]. split; [done|]. split.
  { intros k'. split; apply session_touch. }
  unfold cut_through_recv_bytes.
  destruct (cut_through_recv_bytes_relay f transport id 1 later s1 Hh1)
    as (s2 & -> & _).
  cbn [snd]. unfold s1. by rewrite session_touch.
Qed.

(** X21.  [cut_through_recv_skip] from a subscriber takes it off every
    session: where a session lists each subscriber once, the pair of
    the skipping transport and its stream id is gone afterwards and the
    other subscribers keep their place, so the next chunk of that
    session is relayed to them and no bytes go to the skipped stream. *)
Theorem cut_through_recv_skip_stops_relay
    (sub : TransportId) (sub_id : N) (later : Buffer.t) (s : Node) :
  header_received s k = true ->
  NoDup (session s k) ->
  let s1 := state_of (cut_through_recv_skip sub sub_id s) in
  let r := cut_through_recv_bytes f transport id later s1 in
  let rest := filter (λ y, y ≠ (sub, sub_id)) (session s k) in
  events (cut_through_recv_skip sub sub_id s) = []
  ∧ session s1 k = rest
  ∧ events r = relay_events f rest later
  ∧ (∀ b, transport_cut_through_send_bytes sub sub_id b ∉ events r).
Proof.
  intros Hh Hnd s1 r rest.
  assert (Hs1 : session s1 k = rest).
  { subst s1 rest. unfold cut_through_recv_skip, session. unfold_monad. cbn.
    rewrite lookup_fmap. destruct (cut_through_map s !! k) as [l|] eqn:E.
    - cbn. unfold session in Hnd. rewrite E in Hnd. cbn in Hnd.
      apply erase_first_NoDup; [|done].
      intros [a b]. rewrite bool_decide_eq_true. cbn. split.
      + by intros [-> ->].
      + by intros [= -> ->].
    - reflexivity. }
  assert (Hh1 : header_received s1 k = true) by exact Hh.
  assert (Hev : events r = relay_events f rest later).
  { subst r. unfold cut_through_recv_bytes.
    destruct (cut_through_recv_bytes_relay f transport id 1 later s1 Hh1)
      as (s2 & -> & _). unfold events; cbn [snd]. by rewrite Hs1. }
  split; [reflexivity|]. split; [done|]. split; [done|].
  intros b Hb. rewrite Hev in Hb.
  apply list_elem_of_join in Hb as (l & Hb & Hl).
  apply list_elem_of_fmap in Hl as ([sub' sid'] & -> & Hsub').
  apply list_elem_of_filter in Hsub' as [Hne _].
  unfold relay_to in Hb. cbn [fst snd] in Hb.
  destruct (bool_decide _); set_solver.
Qed.

End Streams.

(** ** Every entry point keeps the node well formed *)

Lemma preserves_gets_bind {A B} P (g : Node -> A) (k : A -> M B) :
  (∀ s, P s -> P (state_of (k (g s) s))) -> preserves P (bind (gets g) k).
Proof.
  intros H s Hs. rewrite (state_of_bind_eq _ _ s (g s) s []) by reflexivity.
  by apply H.
Qed.

Lemma preserves_cut_through_map_at P k :
  (∀ s m, P s -> P (set_cut_through_map m s)) ->
  preserves P (cut_through_map_at k).
Proof. intros H s Hs. rewrite cut_through_map_at_eq. by apply H. Qed.

Lemma preserves_cut_through_header_recv_at P k :
  (∀ s m, P s -> P (set_cut_through_header_recv m s)) ->
  preserves P (cut_through_header_recv_at k).
Proof. intros H s Hs. rewrite cut_through_header_recv_at_eq. by apply H. Qed.

Lemma preserves_cut_through_length_at P k :
  (∀ s m, P s -> P (set_cut_through_length m s)) ->
  preserves P (cut_through_length_at k).
Proof. intros H s Hs. rewrite cut_through_length_at_eq. by apply H. Qed.

(** Walks through a member function whose writes do not matter to the
    property at hand. *)
Ltac keep_step :=
  first
    [ progress cbv beta iota zeta
    | apply preserves_ret
    | apply preserves_emit
    | apply preserves_gets
    | apply preserves_modify; intros ? ?; cbv beta in *;
      try match goal with
          | |- context [manage_subscriptions ?d ?c ?a ?b] =>
              destruct (manage_subscriptions d c a b)
          | |- context [set_slot ?r _ _] => is_var r; destruct r
          end;
      assumption
    | apply preserves_cut_through_map_at; intros ? ? ?; assumption
    | apply preserves_cut_through_header_recv_at; intros ? ? ?; assumption
    | apply preserves_cut_through_length_at; intros ? ? ?; assumption
    | match goal with
      | |- preserves _ (if ?c then _ else _) => destruct c
      | |- preserves _ (match ?c with _ => _ end) => destruct c
      end
    | apply preserves_when
    | apply preserves_for_each; intros ?
    | apply preserves_bind; [|intros ?]
    | solve [auto] ].

Ltac keep :=
  unfold did_close, did_recv_SUBSCRIBE, did_recv_UNSUBSCRIBE, did_recv_MESSAGE,
    did_dial, subscribe, unsubscribe, dial,
    peer_selection_timer_cb, blacklist_timer_cb, message_id_timer_cb,
    call_manage_subscriptions,
    cut_through_recv_start, cut_through_recv_end, cut_through_recv_flush,
    cut_through_recv_skip, cut_through_subscribe,
    send_message_on_channel, send_message_with_cut_through_check;
  unfold add_sol_conn, add_unsol_conn, add_sol_standby_conn;
  unfold remove_conn, check_tranport_present,
    send_MESSAGE, send_RESPONSE, send_SUBSCRIBE, send_UNSUBSCRIBE,
    send_HEARTBEAT, transport_close_;
  repeat keep_step.

(** The entry points of the node: what its transports, its timers and
    its user call. *)
Inductive NodeCall : Type :=
| call_did_recv_message (t : TransportId) (bytes : Buffer.t)
| call_did_dial (t : TransportId)
| call_slot (c : SlotCall)
| call_subscribe (addr : SocketAddress) (remote_static_pk : list byte)
| call_unsubscribe (addr : SocketAddress)
| call_send_message_on_channel
    (channel message_id : N) (data : Buffer.t) (size : N)
    (excluded : option SocketAddress) (prev_header : MessageHeaderType)
| call_peer_selection_timer_cb
| call_blacklist_timer_cb
| call_message_id_timer_cb
| call_cut_through_recv_start (t : TransportId) (id length : N)
| call_cut_through_recv_bytes (t : TransportId) (id : N) (bytes : Buffer.t)
| call_cut_through_recv_end (t : TransportId) (id : N)
| call_cut_through_recv_flush (t : TransportId) (id : N)
| call_cut_through_recv_skip (t : TransportId) (id : N).

(** The caps are the ones the node was built with. *)
Definition has_caps (max_sol max_unsol : nat) (s : Node) : Prop :=
  max_sol_conns s = max_sol ∧ max_unsol_conns s = max_unsol.

Definition well_formed (max_sol max_unsol : nat) (s : Node) : Prop :=
  one_slot s ∧ caps_ok s ∧ ring_ok s ∧ has_caps max_sol max_unsol s.

Section WellFormed.

Context {attester : Attester} {witnesser : Witnesser}.
Variable f : TransportLayer.
Variable delegate : PubSubDelegate.
Variables accept_unsol_conn enable_relay : bool.

Definition node_call (c : NodeCall) : M unit :=
  match c with
  | call_did_recv_message t bytes =>
      fun s =>
        let r := (did_recv_message f delegate accept_unsol_conn enable_relay
                    t bytes s).1 in
        (tt, state_of r, events r)
  | call_did_dial t => did_dial delegate t
  | call_slot c => slot_call f delegate accept_unsol_conn c
  | call_subscribe addr remote_static_pk =>
      subscribe f delegate addr remote_static_pk
  | call_unsubscribe addr => unsubscribe f delegate addr
  | call_send_message_on_channel channel message_id data size excluded
      prev_header =>
      send_message_on_channel f channel message_id data size excluded
        prev_header
  | call_peer_selection_timer_cb => peer_selection_timer_cb delegate
  | call_blacklist_timer_cb => blacklist_timer_cb
  | call_message_id_timer_cb => message_id_timer_cb
  | call_cut_through_recv_start t id length =>
      cut_through_recv_start t id length
  | call_cut_through_recv_bytes t id bytes =>
      cut_through_recv_bytes f t id bytes ;;; ret tt
  | call_cut_through_recv_end t id => cut_through_recv_end t id
  | call_cut_through_recv_flush t id => cut_through_recv_flush t id
  | call_cut_through_recv_skip t id => cut_through_recv_skip t id
  end.

(** The four ways [did_recv_message] can go. *)
Lemma did_recv_message_state t bytes s :
  let s' := state_of (did_recv_message f delegate accept_unsol_conn
                        enable_relay t bytes s).1 in
  s' = s
  ∨ s' = state_of (did_recv_SUBSCRIBE f delegate accept_unsol_conn t
                     (Buffer.cover bytes 1) s)
  ∨ s' = state_of (remove_conn ref_unsol_conns t s)
  ∨ s' = state_of (did_recv_MESSAGE f enable_relay t (Buffer.cover bytes 1) s).
Proof.
  cbv zeta. unfold did_recv_message.
  destruct (bool_decide (Buffer.size bytes = 0)); [by left|].
  destruct (Buffer.byte_at bytes 0) as [|[[p|p|]|[p|p|]|]]; cbn [fst];
    try (by left).
  - right; by left.
  - right; right; by right.
  - right; right; left. unfold did_recv_UNSUBSCRIBE.
    rewrite !state_of_bind. reflexivity.
Qed.

Lemma preserves_did_recv_message P t bytes :
  preserves P (did_recv_SUBSCRIBE f delegate accept_unsol_conn t
                 (Buffer.cover bytes 1)) ->
  preserves P (remove_conn ref_unsol_conns t) ->
  preserves P (did_recv_MESSAGE f enable_relay t (Buffer.cover bytes 1)) ->
  preserves P (node_call (call_did_recv_message t bytes)).
Proof.
  intros H1 H2 H3 s Hs. cbn [node_call]. unfold state_of at 1; cbn [fst snd].
  destruct (did_recv_message_state t bytes s) as [-> | [-> | [-> | ->]]]; auto.
Qed.

Lemma preserves_cut_through_recv_bytes_fuel P n t id bytes :
  (∀ s m, P s -> P (set_cut_through_map m s)) ->
  (∀ s m, P s -> P (set_cut_through_header_recv m s)) ->
  (∀ s m, P s -> P (set_cut_through_length m s)) ->
  (∀ s x, P s -> x ∉ message_id_set s -> P (record_message_id x s)) ->
  preserves P (cut_through_recv_bytes_fuel f n t id bytes).
Proof.
  intros Hmap Hrecv Hlen Hrec. revert bytes.
  induction n as [|n IH]; intros bytes; cbn [cut_through_recv_bytes_fuel];
    [apply preserves_ret|].
  apply preserves_bind; [by apply preserves_cut_through_header_recv_at|].
  intros [|]; cbn [negb].
  { apply preserves_bind; [by apply preserves_cut_through_map_at|].
    intros subs. apply preserves_bind; [|intros; apply preserves_ret].
    apply preserves_for_each. intros sub.
    apply preserves_bind; [apply preserves_emit|]. intros _.
    apply preserves_when. apply preserves_emit. }
  destruct (decide _).
  { apply preserves_bind; [apply preserves_emit|intros; apply preserves_ret]. }
  apply preserves_bind; [apply preserves_modify; intros s; apply Hrecv|].
  intros _. apply preserves_gets_bind. intros s Hs.
  destruct (bool_decide_reflect
              (Buffer.read_uint64_be bytes 1 ∈ message_id_set s)) as [Hin|Hnew].
  { exact Hs. }
  rewrite (state_of_bind_eq _ _ s tt
             (record_message_id (Buffer.read_uint64_be bytes 1) s) [])
    by reflexivity.
  cbv beta.
  match goal with
  | |- P (state_of (?m ?s1)) =>
      cut (preserves P m); [intros Hm; apply Hm; by apply Hrec|]
  end.
  assert (Hsub : ∀ sub,
            preserves P (cut_through_subscribe f t id bytes
                           (Buffer.read_uint16_be bytes 11) sub)).
  { intros sub. unfold cut_through_subscribe.
    destruct (bool_decide (t = sub)); [apply preserves_ret|].
    destruct (found_in_witness _ _ _ _); [apply preserves_ret|].
    apply preserves_bind; [by apply preserves_cut_through_length_at|].
    intros len. cbv zeta. apply preserves_bind; [apply preserves_emit|].
    intros _. destruct (bool_decide _); [apply preserves_ret|].
    apply preserves_bind; [by apply preserves_cut_through_map_at|].
    intros subs. apply preserves_modify. intros s'. apply Hmap. }
  apply preserves_bind; [apply preserves_gets|]. intros sol.
  apply preserves_bind; [by apply preserves_for_each|]. intros _.
  apply preserves_bind; [apply preserves_gets|]. intros unsol.
  apply preserves_bind; [by apply preserves_for_each|]. intros _.
  cbv zeta. apply preserves_bind; [apply preserves_gets|]. intros sk.
  apply preserves_bind; [apply IH|]. intros [r|]; [|apply preserves_ret].
  destruct (bool_decide _); [apply preserves_ret|apply IH].
Qed.

Lemma preserves_did_recv_MESSAGE P t bytes :
  (∀ s x, P s -> x ∉ message_id_set s -> P (record_message_id x s)) ->
  preserves P (did_recv_MESSAGE f enable_relay t bytes).
Proof.
  intros Hrec s Hs.
  destruct (did_recv_MESSAGE_state f enable_relay t bytes s)
    as [->|[Hnew ->]]; [done|by apply Hrec].
Qed.

(** The caps never change. *)
Lemma has_caps_node_call a b c : preserves (has_caps a b) (node_call c).
Proof.
  destruct c as [t bytes|t|c| | | | | | | |t id bytes| | |]; cbn [node_call].
  - apply preserves_did_recv_message; [keep|keep|].
    apply preserves_did_recv_MESSAGE. by intros s x Hs _.
  - keep.
  - destruct c; cbn [slot_call]; keep.
  - keep.
  - keep.
  - keep.
  - keep.
  - keep.
  - keep.
  - keep.
  - apply preserves_bind; [|intros; apply preserves_ret].
    apply preserves_cut_through_recv_bytes_fuel; by intros.
  - keep.
  - keep.
  - keep.
Qed.

Lemma ring_ok_node_call c : preserves ring_ok (node_call c).
Proof.
  destruct c as [t bytes|t|c| | | | | | | |t id bytes| | |]; cbn [node_call].
  - apply preserves_did_recv_message; [keep|keep|].
    apply preserves_did_recv_MESSAGE. intros s x. apply ring_ok_record.
  - keep.
  - destruct c; cbn [slot_call]; keep.
  - keep.
  - keep.
  - keep.
  - keep.
  - keep.
  - intros s Hs. rewrite message_id_timer_cb_eq. by apply ring_ok_tick.
  - keep.
  - apply preserves_bind; [|intros; apply preserves_ret].
    apply preserves_cut_through_recv_bytes_fuel; try (by intros).
    intros s x. apply ring_ok_record.
  - keep.
  - keep.
  - keep.
Qed.

Lemma one_slot_node_call c :
  keeps_one_slot delegate -> preserves one_slot (node_call c).
Proof.
  intros Hd.
  destruct c as [t bytes|t|c|addr pk| | | | | | |t id bytes| | |];
    cbn [node_call].
  - apply preserves_did_recv_message.
    + apply one_slot_did_recv_SUBSCRIBE.
    + apply one_slot_remove_conn.
    + apply preserves_did_recv_MESSAGE. by intros s x Hs _.
  - unfold did_dial.
    apply preserves_bind; [apply one_slot_add_sol_conn|intros; apply preserves_ret].
  - destruct c; cbn [slot_call];
      [..|by apply one_slot_did_close];
      (apply preserves_bind; [|intros; apply preserves_ret]).
    + apply one_slot_add_sol_conn.
    + apply one_slot_add_unsol_conn.
    + apply one_slot_add_sol_standby_conn.
    + apply one_slot_remove_conn.
    + apply one_slot_did_recv_SUBSCRIBE.
  - unfold subscribe. apply preserves_bind; [apply preserves_gets|].
    intros []; [apply preserves_ret|].
    destruct (get_transport f addr) as [t|]; [|keep].
    destruct (negb _); [apply preserves_ret|].
    apply preserves_bind; [apply one_slot_add_sol_conn|intros; apply preserves_ret].
  - keep.
  - keep.
  - unfold peer_selection_timer_cb, call_manage_subscriptions.
    apply preserves_bind; [apply preserves_emit|]. intros _.
    apply preserves_modify. intros s (H1 & H2 & H3).
    specialize (Hd (max_sol_conns s) (sol_conns s) (sol_standby_conns s) H1).
    destruct (manage_subscriptions delegate _ _ _) as [sol standby].
    destruct Hd as [Hd1 Hd2]. unfold one_slot; cbn in *. set_solver.
  - keep.
  - keep.
  - keep.
  - apply preserves_bind; [|intros; apply preserves_ret].
    apply preserves_cut_through_recv_bytes_fuel; by intros.
  - keep.
  - keep.
  - keep.
Qed.

Lemma caps_ok_node_call c :
  respects_cap delegate -> preserves caps_ok (node_call c).
Proof.
  intros Hd.
  destruct c as [t bytes|t|c|addr pk| | | | | | |t id bytes| | |];
    cbn [node_call].
  - apply preserves_did_recv_message.
    + apply caps_ok_did_recv_SUBSCRIBE.
    + apply caps_ok_remove_conn.
    + apply preserves_did_recv_MESSAGE. by intros s x Hs _.
  - unfold did_dial.
    apply preserves_bind; [apply caps_ok_add_sol_conn|intros; apply preserves_ret].
  - by apply caps_ok_slot_call.
  - unfold subscribe. apply preserves_bind; [apply preserves_gets|].
    intros []; [apply preserves_ret|].
    destruct (get_transport f addr) as [t|]; [|keep].
    destruct (negb _); [apply preserves_ret|].
    apply preserves_bind; [apply caps_ok_add_sol_conn|intros; apply preserves_ret].
  - keep.
  - keep.
  - unfold peer_selection_timer_cb, call_manage_subscriptions.
    apply preserves_bind; [apply preserves_emit|]. intros _.
    apply preserves_modify. intros s [H1 H2].
    specialize (Hd (max_sol_conns s) (sol_conns s) (sol_standby_conns s) H1).
    destruct (manage_subscriptions delegate _ _ _) as [sol standby].
    split; cbn in *; done.
  - keep.
  - keep.
  - keep.
  - apply preserves_bind; [|intros; apply preserves_ret].
    apply preserves_cut_through_recv_bytes_fuel; by intros.
  - keep.
  - keep.
  - keep.
Qed.

(** X22.  From the constructor on, whatever the transports, the timers
    and the user call, in whatever order (frames received, dials,
    closes, subscribe and unsubscribe, publishing, the three timers,
    the cut-through callbacks and the slot operations), the node stays
    well formed, provided the delegate's [manage_subscriptions] only
    moves transports between the two sets it is handed and hands back
    at most the cap: every transport sits in at most one of the three
    slot sets, the solicited and unsolicited sets stay within the caps
    the node was built with, and the dedup ring keeps its 256 buckets
    with the seen set equal to the ids stored in them. *)
Theorem node_stays_well_formed
    (calls : list NodeCall) (max_sol max_unsol : nat) (keys : list byte) :
  keeps_one_slot delegate ->
  respects_cap delegate ->
  let s := state_of (for_each calls node_call
                       (PubSubNode max_sol max_unsol keys)) in
  one_slot s
  ∧ (size (sol_conns s) ≤ max_sol)%nat
  ∧ (size (unsol_conns s) ≤ max_unsol)%nat
  ∧ ring_ok s.
Proof.
  intros Hslots Hcap s.
  assert (Hwf : well_formed max_sol max_unsol s).
  { subst s. apply preserves_for_each.
    - intros c s (H1 & H2 & H3 & H4). split; [|split; [|split]].
      + by apply one_slot_node_call.
      + by apply caps_ok_node_call.
      + by apply ring_ok_node_call.
      + by apply has_caps_node_call.
    - split; [apply one_slot_PubSubNode|]. split; [|split].
      + split; cbn; rewrite size_empty; lia.
      + apply ring_ok_PubSubNode.
      + by split. }
  destruct Hwf as (H1 & [H2 H3] & H4 & [H5 H6]).
  rewrite H5 in H2. rewrite H6 in H3. done.
Qed.

End WellFormed.

(** * The further properties on the concrete network *)

Section MoreOnTheNetwork.

Import Scenario.

Lemma delegate_keeps_one_slot : keeps_one_slot delegate.
Proof. intros cap sol standby H. cbn. split; [exact H|reflexivity]. Qed.

Lemma delegate_respects_cap : respects_cap delegate.
Proof. intros cap sol standby H. exact H. Qed.

Lemma headerless_nonempty : headerless nonempty_attester EmptyWitnesser.
Proof. repeat split. Qed.

Lemma one_slot_node_full_unsol : one_slot node_full_unsol.
Proof. unfold one_slot. repeat split; by_computation. Qed.

(** "hi" with id 7 is seen through a tick, a duplicate and another
    tick. *)
Lemma dedup_retention_window_witness :
  ring_ok node0
  ∧ (MESSAGE_id frame_hi ∉ message_id_set node0)
  ∧ MESSAGE_verified (attester := nonempty_attester)
      (witnesser := EmptyWitnesser) frame_hi = true
  ∧ MESSAGE_id frame_hi
    ∈ message_id_set
        (state_of (for_each [timer_tick; deliver 2 frame_hi; timer_tick]
                     (dedup_call (attester := nonempty_attester)
                        (witnesser := EmptyWitnesser) transports true)
                     (state_of (did_recv_MESSAGE (attester := nonempty_attester)
                                  (witnesser := EmptyWitnesser) transports true
                                  1 frame_hi node0)))).
Proof.
  assert (H1 : ring_ok node0) by apply ring_ok_PubSubNode.
  assert (H2 : MESSAGE_id frame_hi ∉ message_id_set node0) by by_computation.
  assert (H3 : MESSAGE_verified (attester := nonempty_attester)
                 (witnesser := EmptyWitnesser) frame_hi = true) by reflexivity.
  split; [exact H1|]. split; [exact H2|]. split; [exact H3|].
  apply (proj1 (dedup_retention_window (attester := nonempty_attester)
                  (witnesser := EmptyWitnesser) transports true 1 frame_hi
                  [timer_tick; deliver 2 frame_hi; timer_tick] node0 H1 H2 H3)).
  cbn. lia.
Defined.

Lemma message_id_timer_cb_heartbeats_witness :
  one_slot node_full_unsol
  ∧ frames_to 2 (events (message_id_timer_cb node_full_unsol)) = 1%nat
  ∧ frames_to 1 (events (message_id_timer_cb node_full_unsol)) = 0%nat
  ∧ (∀ t m, t ∈ unsol_conns node_full_unsol ->
            transport_send t m ∉ events (message_id_timer_cb node_full_unsol)).
Proof.
  split; [exact one_slot_node_full_unsol|].
  destruct (proj2 (proj2 (proj2 (proj2 (proj2
              (message_id_timer_cb_heartbeats node_full_unsol)))))
              one_slot_node_full_unsol) as [Hcount Hunsol].
  split; [exact (Hcount 2)|]. split; [exact (Hcount 1)|]. exact Hunsol.
Defined.

Lemma did_close_clears_slots_witness :
  keeps_one_slot delegate
  ∧ one_slot node_full_unsol
  ∧ present (state_of (did_close transports delegate 2 node_full_unsol)) 2
    = false.
Proof.
  split; [exact delegate_keeps_one_slot|].
  split; [exact one_slot_node_full_unsol|].
  exact (proj1 (did_close_clears_slots transports delegate 2 node_full_unsol
                  delegate_keeps_one_slot one_slot_node_full_unsol)).
Defined.

Lemma blacklist_cycle_witness :
  (2 ∈ sol_conns node_full ∨ 2 ∈ sol_standby_conns node_full)
  ∧ (let s1 := state_of (did_close transports delegate 2 node_full) in
     subscribe transports delegate (dst_addr transports 2) [] s1
     = (tt, s1, [])).
Proof.
  assert (H1 : 2 ∈ sol_conns node_full ∨ 2 ∈ sol_standby_conns node_full).
  { left. by_computation. }
  split; [exact H1|].
  exact (proj1 (blacklist_cycle transports delegate 2 [] node_full H1)).
Defined.

Lemma add_sol_conn_promotes_witness :
  (size (sol_conns node0) < max_sol_conns node0)%nat
  ∧ sol_conns (state_of (add_sol_conn delegate 2 node0))
    = {[2]} ∪ sol_conns node0.
Proof.
  assert (H1 : (size (sol_conns node0) < max_sol_conns node0)%nat)
    by by_computation.
  split; [exact H1|].
  exact (proj1 (proj2 (add_sol_conn_promotes delegate 2 node0 H1))).
Defined.

Lemma subscribe_unsubscribe_round_trip_witness :
  (dst_addr transports 1 ∉ blacklist_addr node_full)
  ∧ present node_full 1 = false
  ∧ (size (unsol_conns node_full) < max_unsol_conns node_full)%nat
  ∧ state_of (did_recv_UNSUBSCRIBE 1 []
                (state_of (did_recv_SUBSCRIBE transports delegate true 1 []
                             node_full)))
    = node_full.
Proof.
  assert (H1 : dst_addr transports 1 ∉ blacklist_addr node_full)
    by by_computation.
  assert (H2 : present node_full 1 = false) by reflexivity.
  assert (H3 : (size (unsol_conns node_full) < max_unsol_conns node_full)%nat)
    by by_computation.
  split; [exact H1|]. split; [exact H2|]. split; [exact H3|].
  exact (proj1 (proj2 (proj2 (proj2
           (subscribe_unsubscribe_round_trip transports delegate 1 [] []
              node_full H1 H2 H3))))).
Defined.

(** A HEARTBEAT frame. *)
Lemma did_recv_message_ignored_witness :
  ([x04] = [] ∨ 4 <= Buffer.byte_at [x04] 0)
  ∧ did_recv_message (attester := nonempty_attester)
      (witnesser := EmptyWitnesser) transports delegate true true 2 [x04]
      node_full
    = ((0%Z, node_full, []), []).
Proof.
  assert (H1 : [x04] = [] ∨ 4 <= Buffer.byte_at [x04] 0).
  { right. by_computation. }
  split; [exact H1|].
  exact (did_recv_message_ignored (attester := nonempty_attester)
           (witnesser := EmptyWitnesser) transports delegate true true 2 [x04]
           node_full H1).
Defined.

(** "hi" published with id 7 on channel 1 and received by a fresh node. *)
Lemma MESSAGE_round_trip_witness :
  headerless nonempty_attester EmptyWitnesser
  ∧ 11 + Buffer.size [x68; x69] < 2 ^ 64
  ∧ (wrap64 7 ∉ message_id_set node0)
  ∧ attester_verify (Attester := nonempty_attester) (wrap64 7) (wrap16 1)
      [x68; x69] (Buffer.size [x68; x69])
      (MkHeader [x68; x69] 0 [x68; x69] 0) = true
  ∧ (let frame := create_MESSAGE (attester := nonempty_attester)
                    (witnesser := EmptyWitnesser) 1 7 [x68; x69]
                    (Buffer.size [x68; x69]) empty_header in
     let r := (did_recv_message (attester := nonempty_attester)
                 (witnesser := EmptyWitnesser) transports delegate true true
                 2 frame node0).1 in
     delegate_calls (wrap64 7) (events r) = 1%nat).
Proof.
  assert (H2 : 11 + Buffer.size [x68; x69] < 2 ^ 64) by by_computation.
  assert (H3 : wrap64 7 ∉ message_id_set node0) by by_computation.
  assert (H4 : attester_verify (Attester := nonempty_attester) (wrap64 7)
                 (wrap16 1) [x68; x69] (Buffer.size [x68; x69])
                 (MkHeader [x68; x69] 0 [x68; x69] 0) = true) by reflexivity.
  split; [exact headerless_nonempty|]. split; [exact H2|].
  split; [exact H3|]. split; [exact H4|].
  exact (proj2 (proj2 (proj2 (proj2
           (MESSAGE_round_trip (attester := nonempty_attester)
              (witnesser := EmptyWitnesser) transports delegate true true
              1 7 [x68; x69] empty_header 2 node0
              headerless_nonempty H2 H3 H4))))).
Defined.

(** Transport 1 delivers "hi"; it is relayed to transport 2. *)
Lemma did_recv_MESSAGE_relays_onward_witness :
  (MESSAGE_id frame_hi ∉ message_id_set node_full_unsol)
  ∧ MESSAGE_verified (attester := nonempty_attester)
      (witnesser := EmptyWitnesser) frame_hi = true
  ∧ (∀ t e,
       e ∈ events (did_recv_MESSAGE (attester := nonempty_attester)
                     (witnesser := EmptyWitnesser) transports true 1 frame_hi
                     node_full_unsol) ->
       message_to t e -> dst_addr transports t ≠ dst_addr transports 1).
Proof.
  assert (H1 : MESSAGE_id frame_hi ∉ message_id_set node_full_unsol)
    by by_computation.
  assert (H2 : MESSAGE_verified (attester := nonempty_attester)
                 (witnesser := EmptyWitnesser) frame_hi = true) by reflexivity.
  split; [exact H1|]. split; [exact H2|].
  intros t e He Hm.
  exact (proj1 (proj2 (proj2
           (proj1 (did_recv_MESSAGE_relays_onward
                     (attester := nonempty_attester)
                     (witnesser := EmptyWitnesser) transports true 1 frame_hi
                     node_full_unsol H1 H2) t e He Hm)))).
Defined.

Lemma cut_through_recv_start_then_first_chunk_witness :
  ¬ wrap16 (Buffer.size chunk_fresh) < 13 + Buffer.read_uint16_be chunk_fresh 11
  ∧ (Buffer.read_uint64_be chunk_fresh 1 ∉ message_id_set node_full_unsol)
  ∧ result (cut_through_recv_bytes transports 1 5 chunk_fresh
              (state_of (cut_through_recv_start 1 5 70000 node_full_unsol)))
    = Some 0%Z.
Proof.
  assert (H1 : ¬ wrap16 (Buffer.size chunk_fresh)
                 < 13 + Buffer.read_uint16_be chunk_fresh 11)
    by by_computation.
  assert (H2 : Buffer.read_uint64_be chunk_fresh 1
               ∉ message_id_set node_full_unsol) by by_computation.
  split; [exact H1|]. split; [exact H2|].
  exact (proj1 (cut_through_recv_start_then_first_chunk transports 1 5
                  chunk_fresh 70000 node_full_unsol H1 H2)).
Defined.

(** The same MESSAGE arrives again, as stream 6 of transport 3. *)
Lemma cut_through_duplicate_stream_swallowed_witness :
  ¬ wrap16 (Buffer.size chunk_fresh) < 13 + Buffer.read_uint16_be chunk_fresh 11
  ∧ Buffer.read_uint64_be chunk_fresh 1 ∈ message_id_set node_relayed
  ∧ (let s1 := state_of (cut_through_recv_start 3 6 70000 node_relayed) in
     let r := cut_through_recv_bytes transports 3 6 chunk_fresh s1 in
     events r = [transport_cut_through_send_skip 3 6]
     ∧ events (cut_through_recv_bytes transports 3 6 [x68; x69] (state_of r))
       = []).
Proof.
  assert (H1 : ¬ wrap16 (Buffer.size chunk_fresh)
                 < 13 + Buffer.read_uint16_be chunk_fresh 11)
    by by_computation.
  assert (H2 : Buffer.read_uint64_be chunk_fresh 1 ∈ message_id_set node_relayed)
    by by_computation.
  split; [exact H1|]. split; [exact H2|].
  destruct (cut_through_duplicate_stream_swallowed transports 3 6 chunk_fresh
              70000 [x68; x69] node_relayed H1 H2) as (_ & He & _ & _ & He').
  split; [exact He|exact He'].
Defined.

Lemma cut_through_short_header_closes_witness :
  header_received node_session (1, 5) = false
  ∧ wrap16 (Buffer.size [x03; x00]) < 13 + Buffer.read_uint16_be [x03; x00] 11
  ∧ events (cut_through_recv_bytes transports 1 5 [x03; x00] node_session)
    = [transport_close 1].
Proof.
  assert (H1 : header_received node_session (1, 5) = false) by reflexivity.
  assert (H2 : wrap16 (Buffer.size [x03; x00])
               < 13 + Buffer.read_uint16_be [x03; x00] 11) by by_computation.
  split; [exact H1|]. split; [exact H2|].
  exact (proj1 (proj2 (cut_through_short_header_closes transports 1 5
                         [x03; x00] node_session H1 H2))).
Defined.

Lemma cut_through_never_reaches_delegate_witness :
  header_received node_session (1, 5) = false
  ∧ ¬ wrap16 (Buffer.size chunk_fresh) < 13 + Buffer.read_uint16_be chunk_fresh 11
  ∧ (Buffer.read_uint64_be chunk_fresh 1 ∉ message_id_set node_session)
  ∧ MESSAGE_id frame_42 = Buffer.read_uint64_be chunk_fresh 1
  ∧ (let r := cut_through_recv_bytes transports 1 5 chunk_fresh node_session in
     did_recv_MESSAGE (attester := nonempty_attester)
       (witnesser := EmptyWitnesser) transports true 2 frame_42 (state_of r)
     = (0%Z, state_of r, [])).
Proof.
  assert (H1 : header_received node_session (1, 5) = false) by reflexivity.
  assert (H2 : ¬ wrap16 (Buffer.size chunk_fresh)
                 < 13 + Buffer.read_uint16_be chunk_fresh 11)
    by by_computation.
  assert (H3 : Buffer.read_uint64_be chunk_fresh 1 ∉ message_id_set node_session)
    by by_computation.
  assert (H4 : MESSAGE_id frame_42 = Buffer.read_uint64_be chunk_fresh 1)
    by reflexivity.
  split; [exact H1|]. split; [exact H2|]. split; [exact H3|].
  split; [exact H4|].
  exact (proj2 (proj2 (cut_through_never_reaches_delegate transports 1 5 chunk_fresh
                         (attester := nonempty_attester)
                         (witnesser := EmptyWitnesser) true 2 frame_42
                         node_session H1 H2 H3 H4))).
Defined.

(** "hi" with id 7 as the first chunk of a stream, empty witness. *)
Definition chunk_hi : Buffer.t :=
  [x03; x00; x00; x00; x00; x00; x00; x00; x07; x00; x01; x00; x00; x68; x69].

Lemma message_then_cut_through_skipped_witness :
  (MESSAGE_id frame_hi ∉ message_id_set node_full_unsol)
  ∧ MESSAGE_verified (attester := nonempty_attester)
      (witnesser := EmptyWitnesser) frame_hi = true
  ∧ Buffer.read_uint64_be chunk_hi 1 = MESSAGE_id frame_hi
  ∧ ¬ wrap16 (Buffer.size chunk_hi) < 13 + Buffer.read_uint16_be chunk_hi 11
  ∧ (let s1 := state_of (did_recv_MESSAGE (attester := nonempty_attester)
                           (witnesser := EmptyWitnesser) transports true 1
                           frame_hi node_full_unsol) in
     let s2 := state_of (cut_through_recv_start 2 9 100 s1) in
     events (cut_through_recv_bytes transports 2 9 chunk_hi s2)
     = [transport_cut_through_send_skip 2 9]).
Proof.
  assert (H1 : MESSAGE_id frame_hi ∉ message_id_set node_full_unsol)
    by by_computation.
  assert (H2 : MESSAGE_verified (attester := nonempty_attester)
                 (witnesser := EmptyWitnesser) frame_hi = true) by reflexivity.
  assert (H3 : Buffer.read_uint64_be chunk_hi 1 = MESSAGE_id frame_hi)
    by reflexivity.
  assert (H4 : ¬ wrap16 (Buffer.size chunk_hi)
                 < 13 + Buffer.read_uint16_be chunk_hi 11) by by_computation.
  split; [exact H1|]. split; [exact H2|]. split; [exact H3|].
  split; [exact H4|].
  exact (proj1 (proj2 (message_then_cut_through_skipped transports 2 9 chunk_hi
                         (attester := nonempty_attester)
                         (witnesser := EmptyWitnesser) true 1 frame_hi 100
                         node_full_unsol H1 H2 H3 H4))).
Defined.

Lemma cut_through_recv_end_keeps_session_witness :
  header_received node_relayed (1, 5) = true
  ∧ events (cut_through_recv_bytes transports 1 5 [x68; x69]
              (state_of (cut_through_recv_end 1 5 node_relayed)))
    = relay_events transports (session node_relayed (1, 5)) [x68; x69].
Proof.
  assert (H1 : header_received node_relayed (1, 5) = true) by reflexivity.
  split; [exact H1|].
  exact (proj1 (proj2 (proj2 (proj2
           (cut_through_recv_end_keeps_session transports 1 5 [x68; x69]
              node_relayed H1))))).
Defined.

(** Transport 2 skips its stream 3. *)
Lemma cut_through_recv_skip_stops_relay_witness :
  header_received node_relayed (1, 5) = true
  ∧ NoDup (session node_relayed (1, 5))
  ∧ (2, 3) ∈ session node_relayed (1, 5)
  ∧ (∀ b, transport_cut_through_send_bytes 2 3 b
          ∉ events (cut_through_recv_bytes transports 1 5 [x68; x69]
                      (state_of (cut_through_recv_skip 2 3 node_relayed)))).
Proof.
  assert (H1 : header_received node_relayed (1, 5) = true) by reflexivity.
  assert (H2 : NoDup (session node_relayed (1, 5))) by by_computation.
  split; [exact H1|]. split; [exact H2|]. split; [by_computation|].
  exact (proj2 (proj2 (proj2
           (cut_through_recv_skip_stops_relay transports 1 5 2 3 [x68; x69]
              node_relayed H1 H2)))).
Defined.

(** A day in the life of the node. *)
Definition busy_day : list NodeCall :=
  [call_did_dial 2;
   call_did_recv_message 1 [x00; x00; x07];
   call_did_recv_message 1 (x03 :: frame_hi);
   call_message_id_timer_cb;
   call_cut_through_recv_start 1 5 70000;
   call_cut_through_recv_bytes 1 5 chunk_fresh;
   call_cut_through_recv_end 1 5;
   call_send_message_on_channel 1 9 [x68; x69] 2 None empty_header;
   call_subscribe 103 [];
   call_peer_selection_timer_cb;
   call_slot (call_did_close 2);
   call_blacklist_timer_cb;
   call_unsubscribe 101;
   call_did_recv_message 1 [x01; x00; x07]].

Lemma node_stays_well_formed_witness :
  keeps_one_slot delegate
  ∧ respects_cap delegate
  ∧ (let s := state_of (for_each busy_day
                          (node_call (attester := nonempty_attester)
                             (witnesser := EmptyWitnesser) transports delegate
                             true true)
                          (PubSubNode 1 1 (replicate 32 x09))) in
     one_slot s
     ∧ (size (sol_conns s) ≤ 1)%nat
     ∧ (size (unsol_conns s) ≤ 1)%nat
     ∧ ring_ok s).
Proof.
  split; [exact delegate_keeps_one_slot|].
  split; [exact delegate_respects_cap|].
  exact (node_stays_well_formed (attester := nonempty_attester)
           (witnesser := EmptyWitnesser) transports delegate true true
           busy_day 1 1 (replicate 32 x09)
           delegate_keeps_one_slot delegate_respects_cap).
Defined.

End MoreOnTheNetwork.
